(** * Taleweaver: render sizes, offset conversion, layout and cursor commands

    A shallow embedding of the parts of the editor that the specification
    talks about, and the properties it states about them:

    - [DocRenderNode] (packages/core/src/render/DocRenderNode.ts): cached
      sizes, child insertion and deletion, selectable-to-model conversion,
      over children seen through [BlockRenderNode.Interface];
    - [DocumentView] (src/editor/view/DocumentView.ts): line breaking,
      pagination, screen positions and word boundary search;
    - [CursorCommands] (packages/core/src/command/handlers/cursor.ts): the
      boundary helpers and the move handlers, over any layout service
      ([LayoutService.Interface]);
    - [DocView] (packages/taleweaver-core/src/view/DocView.ts): child
      insertion into the view and its DOM container.

    [RenderTree] and [Layout] are the render subtrees and the layout tree as
    the specification describes them; they instantiate the two interfaces.

    Offsets, sizes and positions are counts, modelled as [Z]: the code only
    adds, subtracts and compares them.  Measured widths and heights are
    JavaScript numbers, modelled as the binary64 doubles they are
    ([Number]): their sums round at each addition.  A method that mutates
    its object returns the object after the call. *)

From Stdlib Require Import ZArith Lia List String.
From Stdlib Require Import Floats.
From stdpp Require Import base option list gmap strings.
Import ListNotations.
Local Open Scope Z_scope.
Set Warnings "-register-all".
Set Warnings "-inexact-float".

(** ** Exceptions

    Each [throw new Error(...)] of the sources is one constructor; a
    computation that may throw returns [result]. *)

Inductive exn : Type :=
| SelectableOffsetOutOfRange (selectableOffset : Z)
| CannotDeleteChildNotFound
| ScreenPositionsUndetermined (from to : Z)
| PositionNotInDocument (position : Z)
| DocViewOffsetOutOfRange (offset : Z)
(** reading a member of [undefined] *)
| TypeErrorUndefined.

Inductive result (A : Type) : Type :=
| Ok (a : A)
| Throw (e : exn).
Arguments Ok {A} a.
Arguments Throw {A} e.

Definition bind {A B : Type} (r : result A) (k : A -> result B) : result B :=
  match r with
  | Ok a => k a
  | Throw e => Throw e
  end.

Notation "'let!' x ':=' r 'in' k" := (bind r (fun x => k))
  (at level 10, x name, r at level 100, k at level 200).

Definition isThrow {A : Type} (r : result A) : bool :=
  match r with
  | Ok _ => false
  | Throw _ => true
  end.

(** ** JavaScript array helpers *)

(** [l.splice(start, 0, x)]: a negative [start] counts from the end, and the
    index is clamped to [0, length]. *)
Definition spliceIndex {A : Type} (l : list A) (start : Z) : nat :=
  let len := Z.of_nat (length l) in
  Z.to_nat (if start <? 0 then Z.max (len + start) 0 else Z.min start len).

Definition spliceInsert {A : Type} (l : list A) (start : Z) (x : A) : list A :=
  take (spliceIndex l start) l ++ x :: drop (spliceIndex l start) l.

(** Sum of a measure over a list, the way the specification words the sizes. *)
Definition sumOf {A : Type} (f : A -> Z) (l : list A) : Z :=
  foldr (fun a acc => f a + acc) 0 l.
Arguments sumOf : simpl never.

(** ** Render tree: the document node *)

Module BlockRenderNode.

(** The children of a document render node are block render nodes, an
    abstract class whose implementations are per element type.  The
    document node uses exactly these members.  [objectId] stands for the
    identity of the object, which is what [indexOf] compares; the sizes are
    those the child reports at the time of the call. *)
Class Interface (C : Type) : Type := {
  objectId : C -> nat;
  getSelectableSize : C -> Z;
  getModelSize : C -> Z;
  convertSelectableOffsetToModelOffset : C -> Z -> result Z;
  setParent : option string -> C -> C;
  setParent_objectId : forall p c, objectId (setParent p c) = objectId c;
  setParent_getSelectableSize :
    forall p c, getSelectableSize (setParent p c) = getSelectableSize c;
  setParent_getModelSize :
    forall p c, getModelSize (setParent p c) = getModelSize c;
}.

End BlockRenderNode.

Module Doc.

(** The model element handed to [onModelUpdated]. *)
Record t : Type := {
  getID : string;
  getWidth : Z;
  getHeight : Z;
  getPadding : Z;
}.

End Doc.

Module DocRenderNode.

Section WithChild.

Context {Child : Type} `{BlockRenderNode.Interface Child}.

Record t : Type := mk {
  id : string;
  version : Z;
  width : Z;
  height : Z;
  padding : Z;
  children : list Child;
  (** [undefined] is [None] *)
  selectableSize : option Z;
  modelSize : option Z;
}.

Definition new (id : string) : t :=
  {| id := id; version := 0; width := 0; height := 0; padding := 0;
     children := []; selectableSize := None; modelSize := None |}.

(** Modelled from the spec: [clearCache] is inherited from the base class
    [RenderNode], which is not among the sources; the spec says the two
    cached scalars are invalidated by it. *)
Definition clearCache (n : t) : t :=
  {| id := id n; version := version n; width := width n;
     height := height n; padding := padding n; children := children n;
     selectableSize := None; modelSize := None |}.

Definition setChildren (cs : list Child) (n : t) : t :=
  {| id := id n; version := version n; width := width n;
     height := height n; padding := padding n; children := cs;
     selectableSize := selectableSize n; modelSize := modelSize n |}.

Definition getInnerWidth (n : t) : Z := width n - padding n - padding n.
Definition getInnerHeight (n : t) : Z := height n - padding n - padding n.
Definition getChildren (n : t) : list Child := children n.

Definition insertChild (child : Child) (offset : option Z) (n : t) : t :=
  let child := BlockRenderNode.setParent (Some (id n)) child in
  let cs :=
    match offset with
    | None => children n ++ [child]
    | Some o => spliceInsert (children n) o child
    end in
  clearCache (setChildren cs n).

(** [Array.prototype.indexOf] on object references; [-1] when absent. *)
Fixpoint indexOfFrom (cs : list Child) (child : Child) (k : Z) : Z :=
  match cs with
  | [] => -1
  | c :: rest =>
      if Nat.eqb (BlockRenderNode.objectId c) (BlockRenderNode.objectId child)
      then k
      else indexOfFrom rest child (k + 1)
  end.

Definition indexOf (cs : list Child) (child : Child) : Z :=
  indexOfFrom cs child 0.

(** [child.setParent(null)] touches only the child that leaves the list. *)
Definition deleteChild (child : Child) (n : t) : result t :=
  let childOffset := indexOf (children n) child in
  if childOffset <? 0 then Throw CannotDeleteChildNotFound
  else Ok (clearCache (setChildren (delete (Z.to_nat childOffset) (children n)) n)).

Definition getSelectableSize (n : t) : Z * t :=
  match selectableSize n with
  | None =>
      let selectableSize :=
        fold_left (fun acc child => acc + BlockRenderNode.getSelectableSize child)
                  (children n) 0 in
      (selectableSize,
       {| id := id n; version := version n; width := width n;
          height := height n; padding := padding n; children := children n;
          selectableSize := Some selectableSize; modelSize := modelSize n |})
  | Some s => (s, n)
  end.

Definition getModelSize (n : t) : Z * t :=
  match modelSize n with
  | None =>
      let modelSize :=
        fold_left (fun acc child => acc + BlockRenderNode.getModelSize child)
                  (children n) 2 in
      (modelSize,
       {| id := id n; version := version n; width := width n;
          height := height n; padding := padding n; children := children n;
          selectableSize := selectableSize n; modelSize := Some modelSize |})
  | Some s => (s, n)
  end.

(** The [for] loop of [convertSelectableOffsetToModelOffset], from child
    [n] on, with the two running offsets. *)
Fixpoint convertLoop (cs : list Child)
         (cumulatedSelectableOffset cumulatedModelOffset : Z)
         (selectableOffset : Z) : result Z :=
  match cs with
  | [] => Throw (SelectableOffsetOutOfRange selectableOffset)
  | child :: rest =>
      let childSelectableOffset := BlockRenderNode.getSelectableSize child in
      if cumulatedSelectableOffset + childSelectableOffset >? selectableOffset
      then
        let! m := BlockRenderNode.convertSelectableOffsetToModelOffset child
                    (selectableOffset - cumulatedSelectableOffset) in
        Ok (cumulatedModelOffset + m)
      else
        convertLoop rest
          (cumulatedSelectableOffset + childSelectableOffset)
          (cumulatedModelOffset + BlockRenderNode.getModelSize child)
          selectableOffset
  end.

Definition convertSelectableOffsetToModelOffset (n : t) (selectableOffset : Z)
  : result Z :=
  convertLoop (children n) 0 1 selectableOffset.

Definition onModelUpdated (element : Doc.t) (n : t) : t :=
  clearCache
    {| id := Doc.getID element; version := version n;
       width := Doc.getWidth element; height := Doc.getHeight element;
       padding := Doc.getPadding element; children := children n;
       selectableSize := selectableSize n; modelSize := modelSize n |}.

(** The operations a caller can run on a document render node. *)
Inductive op : Type :=
| InsertChild (child : Child) (offset : option Z)
| DeleteChild (child : Child)
| OnModelUpdated (element : Doc.t)
| GetSelectableSize
| GetModelSize.

Definition isMutation (o : op) : bool :=
  match o with
  | InsertChild _ _ | DeleteChild _ | OnModelUpdated _ => true
  | GetSelectableSize | GetModelSize => false
  end.

Definition step (o : op) (n : t) : result t :=
  match o with
  | InsertChild child offset => Ok (insertChild child offset n)
  | DeleteChild child => deleteChild child n
  | OnModelUpdated element => Ok (onModelUpdated element n)
  | GetSelectableSize => Ok (snd (getSelectableSize n))
  | GetModelSize => Ok (snd (getModelSize n))
  end.

(** A throwing operation leaves the node as it was ([deleteChild] throws
    before it touches anything); the caller carries on. *)
Definition stepOrKeep (n : t) (o : op) : t :=
  match step o n with
  | Ok n' => n'
  | Throw _ => n
  end.

Definition run (ops : list op) (n : t) : t := fold_left stepOrKeep ops n.

(** The cache, when filled, holds what a recomputation would give. *)
Definition cacheCoherent (n : t) : Prop :=
  (forall s, selectableSize n = Some s ->
             s = sumOf BlockRenderNode.getSelectableSize (children n)) /\
  (forall m, modelSize n = Some m ->
             m = 2 + sumOf BlockRenderNode.getModelSize (children n)).

(** What the document node needs from a child for its own conversion to
    be well behaved: a non-negative model size, and a conversion that is
    defined, strictly increasing and inside the child's model span on
    the child's selectable span. *)
Definition childConverts (c : Child) : Prop :=
  0 <= BlockRenderNode.getModelSize c /\
  forall s, 0 <= s < BlockRenderNode.getSelectableSize c ->
    exists m,
      BlockRenderNode.convertSelectableOffsetToModelOffset c s = Ok m /\
      0 <= m < BlockRenderNode.getModelSize c /\
      forall s', s < s' < BlockRenderNode.getSelectableSize c ->
        exists m',
          BlockRenderNode.convertSelectableOffsetToModelOffset c s' = Ok m' /\
          m < m'.

End WithChild.

Arguments t Child : clear implicits.
Arguments op Child : clear implicits.

End DocRenderNode.

(** ** Render subtrees

    Modelled from the spec: the block, inline and atomic render nodes are not
    among the sources.  The spec gives them the same two sizes (an atomic
    node counts its content length on both scales, a structural node adds 2
    to the model size of its children) and the same walk for the conversion,
    with one model position for the opening delimiter of each level. *)

Module RenderTree.

Inductive node : Type :=
| Atomic (oid : nat) (parent : option string) (contentLength : Z)
| Structural (oid : nat) (parent : option string) (children : list node).

Definition objectId (n : node) : nat :=
  match n with
  | Atomic oid _ _ => oid
  | Structural oid _ _ => oid
  end.

Definition setParent (p : option string) (n : node) : node :=
  match n with
  | Atomic oid _ len => Atomic oid p len
  | Structural oid _ cs => Structural oid p cs
  end.

Fixpoint getSelectableSize (n : node) : Z :=
  match n with
  | Atomic _ _ len => len
  | Structural _ _ cs =>
      (fix go (cs : list node) : Z :=
         match cs with
         | [] => 0
         | c :: rest => getSelectableSize c + go rest
         end) cs
  end.

Fixpoint getModelSize (n : node) : Z :=
  match n with
  | Atomic _ _ len => len
  | Structural _ _ cs =>
      2 + (fix go (cs : list node) : Z :=
             match cs with
             | [] => 0
             | c :: rest => getModelSize c + go rest
             end) cs
  end.

Fixpoint convertSelectableOffsetToModelOffset (n : node) (selectableOffset : Z)
  : result Z :=
  match n with
  | Atomic _ _ len =>
      if (0 <=? selectableOffset) && (selectableOffset <? len)
      then Ok selectableOffset
      else Throw (SelectableOffsetOutOfRange selectableOffset)
  | Structural _ _ cs =>
      (fix walk (cs : list node) (cumulatedSelectableOffset cumulatedModelOffset : Z)
         : result Z :=
         match cs with
         | [] => Throw (SelectableOffsetOutOfRange selectableOffset)
         | child :: rest =>
             if cumulatedSelectableOffset + getSelectableSize child >? selectableOffset
             then
               let! m := convertSelectableOffsetToModelOffset child
                           (selectableOffset - cumulatedSelectableOffset) in
               Ok (cumulatedModelOffset + m)
             else
               walk rest (cumulatedSelectableOffset + getSelectableSize child)
                    (cumulatedModelOffset + getModelSize child)
         end) cs 0 1
  end.

(** Content lengths are never negative. *)
Fixpoint wellFormed (n : node) : Prop :=
  match n with
  | Atomic _ _ len => 0 <= len
  | Structural _ _ cs =>
      (fix all (cs : list node) : Prop :=
         match cs with
         | [] => True
         | c :: rest => wellFormed c /\ all rest
         end) cs
  end.

#[global] Program Instance asBlockRenderNode : BlockRenderNode.Interface node := {|
  BlockRenderNode.objectId := objectId;
  BlockRenderNode.getSelectableSize := getSelectableSize;
  BlockRenderNode.getModelSize := getModelSize;
  BlockRenderNode.convertSelectableOffsetToModelOffset :=
    convertSelectableOffsetToModelOffset;
  BlockRenderNode.setParent := setParent;
|}.
Next Obligation. intros p [oid q len | oid q cs]; reflexivity. Qed.
Next Obligation. intros p [oid q len | oid q cs]; reflexivity. Qed.
Next Obligation. intros p [oid q len | oid q cs]; reflexivity. Qed.

End RenderTree.

(** ** JavaScript numbers

    A measured width or height is a JavaScript number, a binary64 double:
    [+] and [-] round to nearest, ties to even, and every comparison with
    NaN is false. *)

Module Number.

Definition t : Type := float.

(** [a > b] *)
Definition gt (a b : t) : bool := (b <? a)%float.

(** The value of [s] after [s = 0; for (w of ws) s += w]. *)
Definition runningSum (ws : list t) : t := fold_left PrimFloat.add ws 0%float.

(** The exact value of a finite double, counted in units of 2^-1074, the
    smallest positive double; infinities and NaN have none. *)
Definition specUnits (x : spec_float) : option Z :=
  match x with
  | S754_zero _ => Some 0
  | S754_finite s m e => Some (cond_Zopp s (Zpos m) * 2 ^ (e + 1074))
  | S754_infinity _ | S754_nan => None
  end.

Definition exactUnits (x : t) : option Z := specUnits (Prim2SF x).

(** The sum of finite doubles in exact arithmetic, in the same units. *)
Fixpoint exactSum (ws : list t) : option Z :=
  match ws with
  | [] => Some 0
  | w :: rest =>
      match exactUnits w, exactSum rest with
      | Some u, Some v => Some (u + v)
      | _, _ => None
      end
  end.


(** A double that is not below zero, read on its specification: a zero of
    either sign, a positive finite double or positive infinity. *)
Definition specNonneg (x : spec_float) : bool :=
  match x with
  | S754_zero _ | S754_infinity false | S754_finite false _ _ => true
  | _ => false
  end.

(** Whether the exact sum of finite doubles is above a finite double. *)
Definition exactSumExceeds (ws : list t) (bound : t) : bool :=
  match exactSum ws, exactUnits bound with
  | Some u, Some v => v <? u
  | _, _ => false
  end.

End Number.

(** ** The document view: lines, pages and positions *)

Module DocumentView.

(** Document view configs. *)
Record DocumentViewConfig : Type := {
  pageWidth : Number.t;
  pageHeight : Number.t;
  pagePaddingTop : Number.t;
  pagePaddingBottom : Number.t;
  pagePaddingLeft : Number.t;
  pagePaddingRight : Number.t;
}.

(** Modelled from the spec: the classes [BoxView], [LineView] and
    [PageView] are not among the sources.  A box is a word with a measured
    width and the selectable span it covers; a line holds its boxes and a
    page its lines, and the size of each is the span it covers. *)
Record BoxView : Type := {
  boxGetWidth : Number.t;
  boxGetSize : Z;
}.

Record LineView : Type := {
  lineWidth : Number.t;
  getBoxViews : list BoxView;
}.

Record PageView : Type := {
  pageConfig : DocumentViewConfig;
  getLineViews : list LineView;
}.

Definition newLineView (width : Number.t) : LineView :=
  {| lineWidth := width; getBoxViews := [] |}.

Definition appendBoxView (boxView : BoxView) (lineView : LineView) : LineView :=
  {| lineWidth := lineWidth lineView;
     getBoxViews := getBoxViews lineView ++ [boxView] |}.

Definition newPageView (config : DocumentViewConfig) : PageView :=
  {| pageConfig := config; getLineViews := [] |}.

Definition appendLineView (lineView : LineView) (pageView : PageView) : PageView :=
  {| pageConfig := pageConfig pageView;
     getLineViews := getLineViews pageView ++ [lineView] |}.

Definition lineGetSize (lineView : LineView) : Z :=
  sumOf boxGetSize (getBoxViews lineView).

Definition pageGetSize (pageView : PageView) : Z :=
  sumOf lineGetSize (getLineViews pageView).

(** Box views of a block element. *)
Record BoxViewBlock : Type := {
  blockElementType : string;
  boxViews : list BoxView;
}.

(** *** buildLineViews

    [lineView] is a reference to the line last pushed on [lineViews]; the
    array is the store and the reference is the slot. *)
Record LineBuild : Type := {
  lineViews : list LineView;
  lineView : nat;
  cumulatedWidth : Number.t;
}.

Definition pageContentWidth (config : DocumentViewConfig) : Number.t :=
  (pageWidth config - pagePaddingLeft config - pagePaddingRight config)%float.

Definition pushLineView (config : DocumentViewConfig) (lvs : list LineView)
  : LineBuild :=
  {| lineViews := lvs ++ [newLineView (pageWidth config - pagePaddingLeft config
                                       - pagePaddingRight config)%float];
     lineView := length lvs;
     cumulatedWidth := 0%float |}.

Definition placeBoxView (config : DocumentViewConfig) (st : LineBuild)
           (boxView : BoxView) : LineBuild :=
  (* Start new line if current line is full *)
  let st :=
    if Number.gt (cumulatedWidth st + boxGetWidth boxView)%float
                 (pageContentWidth config)
    then pushLineView config (lineViews st)
    else st in
  (* Append box view to current line view *)
  {| lineViews := alter (appendBoxView boxView) (lineView st) (lineViews st);
     lineView := lineView st;
     cumulatedWidth := (cumulatedWidth st + boxGetWidth boxView)%float |}.

Definition buildBlockLineViews (config : DocumentViewConfig)
           (lvs : list LineView) (boxViewBlock : BoxViewBlock) : list LineView :=
  lineViews (fold_left (placeBoxView config) (boxViews boxViewBlock)
                       (pushLineView config lvs)).

Definition buildLineViews (config : DocumentViewConfig)
           (boxViewBlocks : list BoxViewBlock) : list LineView :=
  fold_left (buildBlockLineViews config) boxViewBlocks [].

(** *** buildPageViews *)

Record PageBuild : Type := {
  pageViews : list PageView;
  pageView : nat;
  cumulatedHeight : Number.t;
}.

Definition pageContentHeight (config : DocumentViewConfig) : Number.t :=
  (pageHeight config - pagePaddingTop config - pagePaddingBottom config)%float.

Definition pushPageView (config : DocumentViewConfig) (pvs : list PageView)
  : PageBuild :=
  {| pageViews := pvs ++ [newPageView config];
     pageView := length pvs;
     cumulatedHeight := 0%float |}.

Section Pagination.

(** [LineView.getHeight] is measured by the line view class. *)
Variable lineGetHeight : LineView -> Number.t.

Definition placeLineView (config : DocumentViewConfig) (st : PageBuild)
           (lineView : LineView) : PageBuild :=
  (* Start new page if current page is full *)
  let st :=
    if Number.gt (cumulatedHeight st + lineGetHeight lineView)%float
                 (pageContentHeight config)
    then pushPageView config (pageViews st)
    else st in
  (* Append line view to page view *)
  {| pageViews := alter (appendLineView lineView) (pageView st) (pageViews st);
     pageView := pageView st;
     cumulatedHeight := (cumulatedHeight st + lineGetHeight lineView)%float |}.

Definition buildPageViews (config : DocumentViewConfig)
           (lineViews : list LineView) : list PageView :=
  pageViews (fold_left (placeLineView config) lineViews (pushPageView config [])).

End Pagination.

(** *** The view and its position queries *)

Record t : Type := {
  (** [documentElement.getSize()] *)
  documentElementGetSize : Z;
  config : DocumentViewConfig;
  viewPageViews : list PageView;
}.

Definition getSize (dv : t) : Z := documentElementGetSize dv.

Section ScreenPositions.

(** [PageView.getScreenPositions] belongs to the page view class. *)
Variable PageViewScreenPositions : Type.
Variable pageGetScreenPositions :
  PageView -> Z -> Z -> result PageViewScreenPositions.

(** The loop [for (n = length - 1; n >= 0; n--)]; [k] is [n + 1]. *)
Fixpoint getScreenPositionsLoop (pvs : list PageView) (k : nat)
         (currentPosition from to : Z)
         (screenPositions : list (PageView * PageViewScreenPositions))
  : result (list (PageView * PageViewScreenPositions)) :=
  match k with
  | O => Throw (ScreenPositionsUndetermined from to)
  | S n =>
      match pvs !! n with
      | None => Throw TypeErrorUndefined
      | Some pageView =>
          let currentPosition := currentPosition - pageGetSize pageView in
          let! screenPositions :=
            (if currentPosition <=? to
             then
               let! psp := pageGetScreenPositions pageView
                             (Z.max (from - currentPosition) 0)
                             (Z.min (to - currentPosition)
                                    (pageGetSize pageView - 1)) in
               Ok (screenPositions ++ [(pageView, psp)])
             else Ok screenPositions) in
          if currentPosition <=? from
          then Ok screenPositions
          else getScreenPositionsLoop pvs n currentPosition from to screenPositions
      end
  end.

Definition getScreenPositions (dv : t) (from to : Z)
  : result (list (PageView * PageViewScreenPositions)) :=
  let currentPosition := documentElementGetSize dv in
  if (from >=? currentPosition) || (to >=? currentPosition)
  then Throw (ScreenPositionsUndetermined from to)
  else getScreenPositionsLoop (viewPageViews dv) (length (viewPageViews dv))
                              currentPosition from to [].

End ScreenPositions.

(** *** Word boundaries

    The three nested [for] loops either return from the method or run to
    their end and let the enclosing loop go on with [currentPosition]. *)
Inductive loop (A : Type) : Type :=
| Return (a : A)
| Fallthrough (currentPosition : Z).
Arguments Return {A} a.
Arguments Fallthrough {A} currentPosition.

Definition lastWordBack (previousLineView : LineView) (currentPosition : Z) : Z :=
  match last (getBoxViews previousLineView) with
  | Some previousWordView => currentPosition - boxGetSize previousWordView
  | None => currentPosition
  end.

(** The branch taken when [position === currentPosition]: try to go to the
    previous word, then the previous line, then the previous page. *)
Definition toPreviousWord (pageViews : list PageView) (n : nat)
           (lineViews : list LineView) (m : nat)
           (wordViews : list BoxView) (o : nat) (currentPosition : Z)
  : result Z :=
  if (0 <? o)%nat then
    match wordViews !! (o - 1)%nat with
    | Some previousWordView => Ok (currentPosition - boxGetSize previousWordView)
    | None => Throw TypeErrorUndefined
    end
  else if (0 <? m)%nat then
    match lineViews !! (m - 1)%nat with
    | Some previousLineView => Ok (lastWordBack previousLineView currentPosition)
    | None => Throw TypeErrorUndefined
    end
  else if (0 <? n)%nat then
    match pageViews !! (n - 1)%nat with
    | Some previousPageView =>
        match last (getLineViews previousPageView) with
        | Some previousLineView => Ok (lastWordBack previousLineView currentPosition)
        | None => Ok currentPosition
        end
    | None => Throw TypeErrorUndefined
    end
  else Ok currentPosition.

Fixpoint wordStartInWords (pageViews : list PageView) (n : nat)
         (lineViews : list LineView) (m : nat) (wordViews : list BoxView)
         (rest : list BoxView) (o : nat) (currentPosition position : Z)
  : loop (result Z) :=
  match rest with
  | [] => Fallthrough currentPosition
  | wordView :: rest =>
      if currentPosition + boxGetSize wordView <=? position
      then wordStartInWords pageViews n lineViews m wordViews rest (S o)
             (currentPosition + boxGetSize wordView) position
      else Return (if position =? currentPosition
                   then toPreviousWord pageViews n lineViews m wordViews o
                          currentPosition
                   else Ok currentPosition)
  end.

Fixpoint wordStartInLines (pageViews : list PageView) (n : nat)
         (lineViews : list LineView) (rest : list LineView) (m : nat)
         (currentPosition position : Z) : loop (result Z) :=
  match rest with
  | [] => Fallthrough currentPosition
  | lineView :: rest =>
      if currentPosition + lineGetSize lineView <=? position
      then wordStartInLines pageViews n lineViews rest (S m)
             (currentPosition + lineGetSize lineView) position
      else
        match wordStartInWords pageViews n lineViews m (getBoxViews lineView)
                (getBoxViews lineView) 0 currentPosition position with
        | Return r => Return r
        | Fallthrough currentPosition =>
            wordStartInLines pageViews n lineViews rest (S m) currentPosition position
        end
  end.

Fixpoint wordStartInPages (pageViews : list PageView) (rest : list PageView)
         (n : nat) (currentPosition position : Z) : loop (result Z) :=
  match rest with
  | [] => Fallthrough currentPosition
  | pageView :: rest =>
      if currentPosition + pageGetSize pageView <=? position
      then wordStartInPages pageViews rest (S n)
             (currentPosition + pageGetSize pageView) position
      else
        match wordStartInLines pageViews n (getLineViews pageView)
                (getLineViews pageView) 0 currentPosition position with
        | Return r => Return r
        | Fallthrough currentPosition =>
            wordStartInPages pageViews rest (S n) currentPosition position
        end
  end.

Definition getWordStartPosition (dv : t) (position : Z) : result Z :=
  match wordStartInPages (viewPageViews dv) (viewPageViews dv) 0 0 position with
  | Return r => r
  | Fallthrough _ => Throw (PositionNotInDocument position)
  end.

Definition firstWordForth (nextLineView : LineView) (currentPosition : Z) : Z :=
  match head (getBoxViews nextLineView) with
  | Some nextWordView => currentPosition + boxGetSize nextWordView
  | None => currentPosition
  end.

(** The branch taken when [position === currentPosition]: try to go to the
    next word, then the next line, then the next page. *)
Definition toNextWord (pageViews : list PageView) (n : nat)
           (lineViews : list LineView) (m : nat)
           (wordViews : list BoxView) (o : nat) (currentPosition : Z)
  : result Z :=
  if Z.of_nat o <? Z.of_nat (length wordViews) - 1 then
    match wordViews !! (o + 1)%nat with
    | Some nextWordView => Ok (currentPosition + boxGetSize nextWordView)
    | None => Throw TypeErrorUndefined
    end
  else if Z.of_nat m <? Z.of_nat (length lineViews) - 1 then
    match lineViews !! (m + 1)%nat with
    | Some nextLineView => Ok (firstWordForth nextLineView currentPosition)
    | None => Throw TypeErrorUndefined
    end
  else if Z.of_nat n <? Z.of_nat (length pageViews) - 1 then
    match pageViews !! (n + 1)%nat with
    | Some nextPageView =>
        match head (getLineViews nextPageView) with
        | Some nextLineView => Ok (firstWordForth nextLineView currentPosition)
        | None => Ok currentPosition
        end
    | None => Throw TypeErrorUndefined
    end
  else Ok currentPosition.

(** The loops of [getWordEndPosition] count down; [k] is the index plus 1. *)
Fixpoint wordEndInWords (pageViews : list PageView) (n : nat)
         (lineViews : list LineView) (m : nat) (wordViews : list BoxView)
         (k : nat) (currentPosition position : Z) : loop (result Z) :=
  match k with
  | O => Fallthrough currentPosition
  | S o =>
      match wordViews !! o with
      | None => Return (Throw TypeErrorUndefined)
      | Some wordView =>
          if currentPosition - boxGetSize wordView >=? position
          then wordEndInWords pageViews n lineViews m wordViews o
                 (currentPosition - boxGetSize wordView) position
          else Return (if position =? currentPosition
                       then toNextWord pageViews n lineViews m wordViews o
                              currentPosition
                       else Ok currentPosition)
      end
  end.

Fixpoint wordEndInLines (pageViews : list PageView) (n : nat)
         (lineViews : list LineView) (k : nat)
         (currentPosition position : Z) : loop (result Z) :=
  match k with
  | O => Fallthrough currentPosition
  | S m =>
      match lineViews !! m with
      | None => Return (Throw TypeErrorUndefined)
      | Some lineView =>
          if currentPosition - lineGetSize lineView >=? position
          then wordEndInLines pageViews n lineViews m
                 (currentPosition - lineGetSize lineView) position
          else
            match wordEndInWords pageViews n lineViews m (getBoxViews lineView)
                    (length (getBoxViews lineView)) currentPosition position with
            | Return r => Return r
            | Fallthrough currentPosition =>
                wordEndInLines pageViews n lineViews m currentPosition position
            end
      end
  end.

Fixpoint wordEndInPages (pageViews : list PageView) (k : nat)
         (currentPosition position : Z) : loop (result Z) :=
  match k with
  | O => Fallthrough currentPosition
  | S n =>
      match pageViews !! n with
      | None => Return (Throw TypeErrorUndefined)
      | Some pageView =>
          if currentPosition - pageGetSize pageView >=? position
          then wordEndInPages pageViews n
                 (currentPosition - pageGetSize pageView) position
          else
            match wordEndInLines pageViews n (getLineViews pageView)
                    (length (getLineViews pageView)) currentPosition position with
            | Return r => Return r
            | Fallthrough currentPosition =>
                wordEndInPages pageViews n currentPosition position
            end
      end
  end.

Definition getWordEndPosition (dv : t) (position : Z) : result Z :=
  match wordEndInPages (viewPageViews dv) (length (viewPageViews dv))
          (documentElementGetSize dv - 1) position with
  | Return r => r
  | Fallthrough _ => Throw (PositionNotInDocument position)
  end.

(** A view built over a document: the document's size is the span of its
    pages, and no box covers a negative span. *)
Definition built (dv : t) : Prop :=
  documentElementGetSize dv = sumOf pageGetSize (viewPageViews dv) /\
  Forall (fun pageView =>
    Forall (fun lineView =>
      Forall (fun boxView => 0 <= boxGetSize boxView) (getBoxViews lineView))
      (getLineViews pageView))
    (viewPageViews dv).

(** *** Line boundaries

    The two nested [for] loops of [getLineStartPosition] and
    [getLineEndPosition]. *)

Fixpoint lineStartInLines (rest : list LineView) (currentPosition position : Z)
  : loop (result Z) :=
  match rest with
  | [] => Fallthrough currentPosition
  | lineView :: rest =>
      if currentPosition + lineGetSize lineView <=? position
      then lineStartInLines rest (currentPosition + lineGetSize lineView) position
      else Return (Ok currentPosition)
  end.

Fixpoint lineStartInPages (rest : list PageView) (currentPosition position : Z)
  : loop (result Z) :=
  match rest with
  | [] => Fallthrough currentPosition
  | pageView :: rest =>
      if currentPosition + pageGetSize pageView <=? position
      then lineStartInPages rest (currentPosition + pageGetSize pageView) position
      else
        match lineStartInLines (getLineViews pageView) currentPosition position with
        | Return r => Return r
        | Fallthrough currentPosition => lineStartInPages rest currentPosition position
        end
  end.

Definition getLineStartPosition (dv : t) (position : Z) : result Z :=
  match lineStartInPages (viewPageViews dv) 0 position with
  | Return r => r
  | Fallthrough _ => Throw (PositionNotInDocument position)
  end.

(** The loops of [getLineEndPosition] count down; [k] is the index plus 1. *)
Fixpoint lineEndInLines (lineViews : list LineView) (k : nat)
         (currentPosition position : Z) : loop (result Z) :=
  match k with
  | O => Fallthrough currentPosition
  | S m =>
      match lineViews !! m with
      | None => Return (Throw TypeErrorUndefined)
      | Some lineView =>
          if currentPosition - lineGetSize lineView >=? position
          then lineEndInLines lineViews m (currentPosition - lineGetSize lineView)
                 position
          else Return (Ok currentPosition)
      end
  end.

Fixpoint lineEndInPages (pageViews : list PageView) (k : nat)
         (currentPosition position : Z) : loop (result Z) :=
  match k with
  | O => Fallthrough currentPosition
  | S n =>
      match pageViews !! n with
      | None => Return (Throw TypeErrorUndefined)
      | Some pageView =>
          if currentPosition - pageGetSize pageView >=? position
          then lineEndInPages pageViews n (currentPosition - pageGetSize pageView)
                 position
          else
            match lineEndInLines (getLineViews pageView)
                    (length (getLineViews pageView)) currentPosition position with
            | Return r => Return r
            | Fallthrough currentPosition =>
                lineEndInPages pageViews n currentPosition position
            end
      end
  end.

Definition getLineEndPosition (dv : t) (position : Z) : result Z :=
  match lineEndInPages (viewPageViews dv) (length (viewPageViews dv))
          (documentElementGetSize dv - 1) position with
  | Return r => r
  | Fallthrough _ => Throw (PositionNotInDocument position)
  end.

(** ** Positions on a page *)

Section PageIdentity.

(** [pageObjectId] stands for the identity of a page view object, which is
    what [loopPageView === pageView] compares. *)
Variable pageObjectId : PageView -> nat.

(** The [for] loop of [resolvePageViewPosition]: [break] at the page. *)
Fixpoint resolveLoop (pageViews : list PageView) (pageView : PageView)
         (cumulatedSize : Z) : Z :=
  match pageViews with
  | [] => cumulatedSize
  | loopPageView :: rest =>
      if Nat.eqb (pageObjectId loopPageView) (pageObjectId pageView)
      then cumulatedSize
      else resolveLoop rest pageView (cumulatedSize + pageGetSize loopPageView)
  end.

Definition resolvePageViewPosition (dv : t) (pageViewPosition : Z)
           (pageView : PageView) : Z :=
  let cumulatedSize := resolveLoop (viewPageViews dv) pageView 0 in
  cumulatedSize + pageViewPosition.

End PageIdentity.

End DocumentView.

(** ** The layout service seen by the cursor commands *)

Module LayoutService.

(** [ILayoutService] and the layout nodes it hands out.  The command
    handlers read only these members.  [describePosition(p).atWord()] and
    [.atLine()] give a node and the position inside it. *)
Class Interface (Service Node : Type) : Type := {
  describePositionAtWord : Service -> Z -> result (Node * Z);
  describePositionAtLine : Service -> Z -> result (Node * Z);
  size : Node -> Z;
  trimmedSize : Node -> Z;
  previousCrossParentSibling : Node -> option Node;
  nextCrossParentSibling : Node -> option Node;
  convertCoordinatesToPosition : Node -> Z -> Z -> Z;
}.

End LayoutService.

(** Modelled from the spec: the layout tree and the implementation of the
    layout service are not among the sources.  The spec has pages of lines
    of word boxes, each node with the selectable span it covers; a position
    is described by the node that contains it and the offset inside that
    node; the cross-parent siblings of a node are its neighbours at the same
    depth, across line and page ends.  Nodes are named by their rank at
    their depth, so a neighbour is the rank before or after. *)

Module Layout.

Record Word : Type := {
  wordSize : Z;
  wordTrimmedSize : Z;
}.

Record Line : Type := {
  words : list Word;
  (** pixel coordinates to a position inside the line *)
  lineConvertCoordinatesToPosition : Z -> Z -> Z;
}.

Record Page : Type := {
  lines : list Line;
}.

Record t : Type := {
  pages : list Page;
}.

Definition allLines (l : t) : list Line := concat (map lines (pages l)).
Definition allWords (l : t) : list Word := concat (map words (allLines l)).

Definition lineSize (ln : Line) : Z := sumOf wordSize (words ln).

Inductive node : Type :=
| WordNode (l : t) (rank : nat)
| LineNode (l : t) (rank : nat).

Definition size (n : node) : Z :=
  match n with
  | WordNode l i => from_option wordSize 0 (allWords l !! i)
  | LineNode l i => from_option lineSize 0 (allLines l !! i)
  end.

Definition trimmedSize (n : node) : Z :=
  match n with
  | WordNode l i => from_option wordTrimmedSize 0 (allWords l !! i)
  | LineNode l i =>
      from_option (fun ln => sumOf wordTrimmedSize (words ln)) 0 (allLines l !! i)
  end.

Definition previousCrossParentSibling (n : node) : option node :=
  match n with
  | WordNode l O | LineNode l O => None
  | WordNode l (S i) => Some (WordNode l i)
  | LineNode l (S i) => Some (LineNode l i)
  end.

Definition nextCrossParentSibling (n : node) : option node :=
  match n with
  | WordNode l i =>
      if (S i <? length (allWords l))%nat then Some (WordNode l (S i)) else None
  | LineNode l i =>
      if (S i <? length (allLines l))%nat then Some (LineNode l (S i)) else None
  end.

Definition convertCoordinatesToPosition (n : node) (x y : Z) : Z :=
  match n with
  | WordNode _ _ => 0
  | LineNode l i =>
      from_option (fun ln => lineConvertCoordinatesToPosition ln x y) 0
                  (allLines l !! i)
  end.

(** The node of a sequence of spans that contains [position], with the
    position inside it. *)
Fixpoint locate (sizes : list Z) (rank : nat) (position : Z) : option (nat * Z) :=
  match sizes with
  | [] => None
  | s :: rest =>
      if position <? s then Some (rank, position)
      else locate rest (S rank) (position - s)
  end.

Definition describePositionAtWord (l : t) (position : Z) : result (node * Z) :=
  if position <? 0 then Throw (PositionNotInDocument position)
  else
    match locate (map wordSize (allWords l)) 0 position with
    | Some (i, p) => Ok (WordNode l i, p)
    | None => Throw (PositionNotInDocument position)
    end.

Definition describePositionAtLine (l : t) (position : Z) : result (node * Z) :=
  if position <? 0 then Throw (PositionNotInDocument position)
  else
    match locate (map lineSize (allLines l)) 0 position with
    | Some (i, p) => Ok (LineNode l i, p)
    | None => Throw (PositionNotInDocument position)
    end.

#[global] Instance asLayoutService : LayoutService.Interface t node := {|
  LayoutService.describePositionAtWord := describePositionAtWord;
  LayoutService.describePositionAtLine := describePositionAtLine;
  LayoutService.size := size;
  LayoutService.trimmedSize := trimmedSize;
  LayoutService.previousCrossParentSibling := previousCrossParentSibling;
  LayoutService.nextCrossParentSibling := nextCrossParentSibling;
  LayoutService.convertCoordinatesToPosition := convertCoordinatesToPosition;
|}.

Definition contentSize (l : t) : Z := sumOf wordSize (allWords l).

(** A built layout: every word box covers at least one position, and its
    trimmed size (the span without trailing white space) is within it. *)
Definition built (l : t) : Prop :=
  Forall (fun w => 1 <= wordSize w /\ 0 <= wordTrimmedSize w <= wordSize w)
         (allWords l).

End Layout.

(** ** Cursor commands *)

Module CursorCommands.

Record Cursor : Type := {
  anchor : Z;
  head : Z;
  leftLock : Z;
}.

(** Content operations are opaque to the handlers, which always pass an
    empty list. *)
Inductive Operation : Type :=
| OpaqueOperation (tag : nat).

(** Modelled from the spec: the class [Transformation] of the transform
    package is not among the sources; it is built from the operations, the
    target head, and optionally the anchor and whether to keep the left
    lock. *)
Record Transformation : Type := {
  operations : list Operation;
  cursorHead : Z;
  cursorAnchor : option Z;
  keepLeftLock : bool;
}.

Definition newTransformation2 (ops : list Operation) (head : Z) : Transformation :=
  {| operations := ops; cursorHead := head; cursorAnchor := None;
     keepLeftLock := false |}.

Definition newTransformation3 (ops : list Operation) (head anchor : Z)
  : Transformation :=
  {| operations := ops; cursorHead := head; cursorAnchor := Some anchor;
     keepLeftLock := false |}.

Definition newTransformation4 (ops : list Operation) (head anchor : Z)
           (keep : bool) : Transformation :=
  {| operations := ops; cursorHead := head; cursorAnchor := Some anchor;
     keepLeftLock := keep |}.

(** The anchor that the cursor takes: the head when none is given. *)
Definition targetAnchor (tn : Transformation) : Z :=
  default (cursorHead tn) (cursorAnchor tn).

Section WithLayout.

Context {Service Node : Type} `{LayoutService.Interface Service Node}.

Definition atPreviousLine (position leftLock : Z) (layoutService : Service)
  : result Z :=
  let! d := LayoutService.describePositionAtLine layoutService position in
  let '(lineLayoutNode, linePosition) := d in
  match LayoutService.previousCrossParentSibling lineLayoutNode with
  | None => Ok (position - linePosition)
  | Some previousLine =>
      Ok (position - linePosition - LayoutService.size previousLine
          + LayoutService.convertCoordinatesToPosition previousLine leftLock 0)
  end.

Definition atNextLine (position leftLock : Z) (layoutService : Service)
  : result Z :=
  let! d := LayoutService.describePositionAtLine layoutService position in
  let '(lineLayoutNode, linePosition) := d in
  match LayoutService.nextCrossParentSibling lineLayoutNode with
  | None => Ok (position - linePosition + LayoutService.size lineLayoutNode - 1)
  | Some nextLine =>
      Ok (position - linePosition + LayoutService.size lineLayoutNode
          + LayoutService.convertCoordinatesToPosition nextLine leftLock 0)
  end.

Definition atPreviousWord (position : Z) (layoutService : Service) : result Z :=
  let! d := LayoutService.describePositionAtWord layoutService position in
  let '(wordLayoutNode, wordPosition) := d in
  if wordPosition >? 0 then Ok (position - wordPosition)
  else
    match LayoutService.previousCrossParentSibling wordLayoutNode with
    | None => Ok position
    | Some previousWord => Ok (position - LayoutService.size previousWord)
    end.

Definition atNextWord (position : Z) (layoutService : Service) : result Z :=
  let! d := LayoutService.describePositionAtWord layoutService position in
  let '(wordLayoutNode, wordPosition) := d in
  if wordPosition <? LayoutService.size wordLayoutNode - 1
  then Ok (position - wordPosition + LayoutService.trimmedSize wordLayoutNode)
  else
    match LayoutService.nextCrossParentSibling wordLayoutNode with
    | None => Ok position
    | Some nextWord =>
        Ok (position - wordPosition + LayoutService.size wordLayoutNode
            + LayoutService.trimmedSize wordLayoutNode)
    end.

Definition atLineStart (position : Z) (layoutService : Service) : result Z :=
  let! d := LayoutService.describePositionAtLine layoutService position in
  let '(_, linePosition) := d in
  if linePosition =? 0 then Ok position else Ok (position - linePosition).

Definition atLineEnd (position : Z) (layoutService : Service) : result Z :=
  let! d := LayoutService.describePositionAtLine layoutService position in
  let '(lineLayoutNode, linePosition) := d in
  if linePosition >=? LayoutService.size lineLayoutNode - 1 then Ok position
  else Ok (position - linePosition + LayoutService.size lineLayoutNode - 1).

(** Each handler is given what [cursorService.getCursor()] returns and
    yields the transformation it submits, if any. *)

Definition MoveBackwardByLineCommandHandler (getCursor : option Cursor)
           (layoutService : Service) : result (option Transformation) :=
  match getCursor with
  | None => Ok None
  | Some cursor =>
      let position := Z.min (anchor cursor) (head cursor) in
      let! newPosition := atPreviousLine position (leftLock cursor) layoutService in
      Ok (Some (newTransformation4 [] newPosition newPosition true))
  end.

Definition MoveForwardByLineCommandHandler (getCursor : option Cursor)
           (layoutService : Service) : result (option Transformation) :=
  match getCursor with
  | None => Ok None
  | Some cursor =>
      let position := Z.max (anchor cursor) (head cursor) in
      let! newPosition := atNextLine position (leftLock cursor) layoutService in
      Ok (Some (newTransformation4 [] newPosition newPosition true))
  end.

Definition MoveBackwardByWordCommandHandler (getCursor : option Cursor)
           (layoutService : Service) : result (option Transformation) :=
  match getCursor with
  | None => Ok None
  | Some cursor =>
      let position := Z.min (anchor cursor) (head cursor) in
      let! newPosition := atPreviousWord position layoutService in
      Ok (Some (newTransformation2 [] newPosition))
  end.

Definition MoveForwardByWordCommandHandler (getCursor : option Cursor)
           (layoutService : Service) : result (option Transformation) :=
  match getCursor with
  | None => Ok None
  | Some cursor =>
      let position := Z.max (anchor cursor) (head cursor) in
      let! newPosition := atNextWord position layoutService in
      Ok (Some (newTransformation2 [] newPosition))
  end.

End WithLayout.

Definition MoveCommandHandler (position : Z) : option Transformation :=
  Some (newTransformation2 [] position).

Definition MoveBackwardCommandHandler (getCursor : option Cursor)
  : option Transformation :=
  match getCursor with
  | None => None
  | Some cursor =>
      let newPosition :=
        if anchor cursor =? head cursor
        then anchor cursor - 1
        else Z.min (anchor cursor) (head cursor) in
      Some (newTransformation2 [] newPosition)
  end.

Definition MoveForwardCommandHandler (getCursor : option Cursor)
  : option Transformation :=
  match getCursor with
  | None => None
  | Some cursor =>
      let newPosition :=
        if anchor cursor =? head cursor
        then anchor cursor + 1
        else Z.max (anchor cursor) (head cursor) in
      Some (newTransformation2 [] newPosition)
  end.

Definition MoveToDocStartCommandHandler : option Transformation :=
  let newPosition := 0 in
  Some (newTransformation2 [] newPosition).

Definition MoveToDocEndCommandHandler (getDocContentSize : Z)
  : option Transformation :=
  let newPosition := getDocContentSize - 1 in
  Some (newTransformation2 [] newPosition).

Definition MoveHeadCommandHandler (getCursor : option Cursor) (position : Z)
  : option Transformation :=
  match getCursor with
  | None => None
  | Some cursor => Some (newTransformation3 [] position (anchor cursor))
  end.

Definition MoveHeadBackwardCommandHandler (getCursor : option Cursor)
  : option Transformation :=
  match getCursor with
  | None => None
  | Some cursor =>
      let newHead := Z.max 0 (head cursor - 1) in
      Some (newTransformation3 [] newHead (anchor cursor))
  end.

Definition MoveHeadForward (getCursor : option Cursor) (getDocContentSize : Z)
  : option Transformation :=
  match getCursor with
  | None => None
  | Some cursor =>
      let contentSize := getDocContentSize in
      let newHead := Z.min (contentSize - 1) (head cursor + 1) in
      Some (newTransformation3 [] newHead (anchor cursor))
  end.

Definition SelectAllCommandHandler (getCursor : option Cursor)
           (getDocContentSize : Z) : option Transformation :=
  match getCursor with
  | None => None
  | Some cursor =>
      let newAnchor := 0 in
      let newHead := getDocContentSize - 1 in
      Some (newTransformation3 [] newHead newAnchor)
  end.

(** The positions a cursor may take in a document of the given content
    size: [MoveToDocStart] goes to the first, [MoveToDocEnd] to the last. *)
Definition inRange (getDocContentSize position : Z) : Prop :=
  0 <= position <= getDocContentSize - 1.

End CursorCommands.

(** ** The document view of the DOM binding *)

Module DocView.

(** A DOM node is known by its identity. *)
Definition DOMNode : Type := nat.

(** A page view, as far as the document view uses it. *)
Record PageView : Type := {
  getDOMContainer : DOMNode;
}.

Record t : Type := {
  children : list PageView;
  (** [domContainer.childNodes] *)
  childNodes : list DOMNode;
}.

(** [Node.appendChild]: a node already in the container is moved. *)
Definition appendChild (node : DOMNode) (nodes : list DOMNode) : list DOMNode :=
  filter (fun x => x <> node) nodes ++ [node].

(** [Node.insertBefore] with a reference child, or [undefined], which the
    DOM takes as no reference and appends.  A node inserted before itself
    stays where it is. *)
Fixpoint insertBeforeNode (node ref : DOMNode) (nodes : list DOMNode)
  : list DOMNode :=
  match nodes with
  | [] => [node]
  | x :: rest =>
      if Nat.eqb x ref then node :: x :: rest
      else x :: insertBeforeNode node ref rest
  end.

Definition insertBefore (node : DOMNode) (ref : option DOMNode)
           (nodes : list DOMNode) : list DOMNode :=
  match ref with
  | None => appendChild node nodes
  | Some r =>
      if Nat.eqb r node then nodes
      else insertBeforeNode node r (filter (fun x => x <> node) nodes)
  end.

(** [childNodes[i]] for a number [i]. *)
Definition item (nodes : list DOMNode) (i : Z) : option DOMNode :=
  if i <? 0 then None else nodes !! Z.to_nat i.

Definition getChildren (v : t) : list PageView := children v.

(** The view after the call, and whether the call returned or threw.  The
    push on [children] comes first and is not undone by the throw. *)
Definition insertChild (child : PageView) (offset : Z) (v : t) : t * result unit :=
  let children := children v ++ [child] in
  let childDOMContainer := getDOMContainer child in
  if offset >? Z.of_nat (length (childNodes v)) then
    ({| children := children; childNodes := childNodes v |},
     Throw (DocViewOffsetOutOfRange offset))
  else
    let nodes :=
      if offset =? Z.of_nat (length (childNodes v))
      then appendChild childDOMContainer (childNodes v)
      else insertBefore childDOMContainer (item (childNodes v) (offset + 1))
                        (childNodes v) in
    ({| children := children; childNodes := appendChild childDOMContainer nodes |},
     Ok tt).

End DocView.

(** * Further parts of the sources *)

(** ** The model document (packages/core/src/model/Doc.ts) *)

Module ModelDoc.

Section WithChild.

(** The children are branch or leaf nodes; [objectId] stands for the
    identity of the object, which is what [indexOf] compares. *)
Variable Child : Type.
Variable objectId : Child -> nat.

Record t : Type := {
  children : list Child;
}.

Definition new : t := {| children := [] |}.

Definition getType (d : t) : string := "Doc".

Definition getChildren (d : t) : list Child := children d.

Definition insertChild (child : Child) (offset : Z) (d : t) : t :=
  {| children := spliceInsert (children d) offset child |}.

Fixpoint indexOfFrom (cs : list Child) (child : Child) (k : Z) : Z :=
  match cs with
  | [] => -1
  | c :: rest =>
      if Nat.eqb (objectId c) (objectId child) then k
      else indexOfFrom rest child (k + 1)
  end.

Definition indexOf (cs : list Child) (child : Child) : Z := indexOfFrom cs child 0.

Definition deleteChild (child : Child) (d : t) : result t :=
  let childOffset := indexOf (children d) child in
  if childOffset <? 0 then Throw CannotDeleteChildNotFound
  else Ok {| children := delete (Z.to_nat childOffset) (children d) |}.

End WithChild.

End ModelDoc.

(** ** The element registry (packages/core/src/config/ElementConfig.ts) *)

Module ElementConfig.

(** A registered class is a constructor; it is known by its name. *)
Definition ClassRef : Type := string.

(** One constructor for each [throw new Error(...)] of the getters. *)
Inductive notRegistered : Type :=
| BlockElementTypeNotRegistered (elementType : string)
| InlineElementTypeNotRegistered (elementType : string)
| ElementTypeNotRegistered (elementType : string)
| BlockRenderNodeNotRegistered (elementType : string)
| InlineRenderNodeNotRegistered (elementType : string)
| BlockBoxNotRegistered (renderNodeType : string)
| InlineBoxNotRegistered (renderNodeType : string)
| AtomicBoxNotRegistered (renderNodeType : string)
| BlockViewNodeNotRegistered (boxType : string)
| InlineViewNodeNotRegistered (boxType : string).

Inductive lookup : Type :=
| Found (c : ClassRef)
| Thrown (e : notRegistered).

Record t : Type := {
  blockElementClasses : gmap string ClassRef;
  orderedBlockElementClasses : list ClassRef;
  inlineElementClasses : gmap string ClassRef;
  orderedInlineElementClasses : list ClassRef;
  blockRenderNodeClasses : gmap string ClassRef;
  inlineRenderNodeClasses : gmap string ClassRef;
  blockBoxClasses : gmap string ClassRef;
  inlineBoxClasses : gmap string ClassRef;
  atomicBoxClasses : gmap string ClassRef;
  blockViewNodeClasses : gmap string ClassRef;
  inlineViewNodeClasses : gmap string ClassRef;
}.

(** The field initialisers, before the constructor body runs. *)
Definition empty : t :=
  {| blockElementClasses := ∅; orderedBlockElementClasses := [];
     inlineElementClasses := ∅; orderedInlineElementClasses := [];
     blockRenderNodeClasses := ∅; inlineRenderNodeClasses := ∅;
     blockBoxClasses := ∅; inlineBoxClasses := ∅; atomicBoxClasses := ∅;
     blockViewNodeClasses := ∅; inlineViewNodeClasses := ∅ |}.

Definition registerBlockElementClass (elementType : string) (elementClass : ClassRef)
           (c : t) : t :=
  {| blockElementClasses := <[elementType := elementClass]> (blockElementClasses c);
     orderedBlockElementClasses := orderedBlockElementClasses c ++ [elementClass];
     inlineElementClasses := inlineElementClasses c;
     orderedInlineElementClasses := orderedInlineElementClasses c;
     blockRenderNodeClasses := blockRenderNodeClasses c;
     inlineRenderNodeClasses := inlineRenderNodeClasses c;
     blockBoxClasses := blockBoxClasses c;
     inlineBoxClasses := inlineBoxClasses c;
     atomicBoxClasses := atomicBoxClasses c;
     blockViewNodeClasses := blockViewNodeClasses c;
     inlineViewNodeClasses := inlineViewNodeClasses c |}.

Definition getBlockElementClass (elementType : string) (c : t) : lookup :=
  match blockElementClasses c !! elementType with
  | None => Thrown (BlockElementTypeNotRegistered elementType)
  | Some k => Found k
  end.

Definition getAllBlockElementClasses (c : t) : list ClassRef :=
  orderedBlockElementClasses c.

Definition registerInlineElementClass (elementType : string) (elementClass : ClassRef)
           (c : t) : t :=
  {| blockElementClasses := blockElementClasses c;
     orderedBlockElementClasses := orderedBlockElementClasses c;
     inlineElementClasses := <[elementType := elementClass]> (inlineElementClasses c);
     orderedInlineElementClasses := orderedInlineElementClasses c ++ [elementClass];
     blockRenderNodeClasses := blockRenderNodeClasses c;
     inlineRenderNodeClasses := inlineRenderNodeClasses c;
     blockBoxClasses := blockBoxClasses c;
     inlineBoxClasses := inlineBoxClasses c;
     atomicBoxClasses := atomicBoxClasses c;
     blockViewNodeClasses := blockViewNodeClasses c;
     inlineViewNodeClasses := inlineViewNodeClasses c |}.

Definition getInlineElementClass (elementType : string) (c : t) : lookup :=
  match inlineElementClasses c !! elementType with
  | None => Thrown (InlineElementTypeNotRegistered elementType)
  | Some k => Found k
  end.

Definition getAllInlineElementClasses (c : t) : list ClassRef :=
  orderedInlineElementClasses c.

Definition getElementClass (elementType : string) (c : t) : lookup :=
  match blockElementClasses c !! elementType with
  | Some k => Found k
  | None =>
      match inlineElementClasses c !! elementType with
      | Some k => Found k
      | None => Thrown (ElementTypeNotRegistered elementType)
      end
  end.

Definition registerBlockRenderNodeClass (elementType : string)
           (renderNodeClass : ClassRef) (c : t) : t :=
  {| blockElementClasses := blockElementClasses c;
     orderedBlockElementClasses := orderedBlockElementClasses c;
     inlineElementClasses := inlineElementClasses c;
     orderedInlineElementClasses := orderedInlineElementClasses c;
     blockRenderNodeClasses :=
       <[elementType := renderNodeClass]> (blockRenderNodeClasses c);
     inlineRenderNodeClasses := inlineRenderNodeClasses c;
     blockBoxClasses := blockBoxClasses c;
     inlineBoxClasses := inlineBoxClasses c;
     atomicBoxClasses := atomicBoxClasses c;
     blockViewNodeClasses := blockViewNodeClasses c;
     inlineViewNodeClasses := inlineViewNodeClasses c |}.

Definition getBlockRenderNodeClass (elementType : string) (c : t) : lookup :=
  match blockRenderNodeClasses c !! elementType with
  | None => Thrown (BlockRenderNodeNotRegistered elementType)
  | Some k => Found k
  end.

Definition registerInlineRenderNodeClass (elementType : string)
           (renderNodeClass : ClassRef) (c : t) : t :=
  {| blockElementClasses := blockElementClasses c;
     orderedBlockElementClasses := orderedBlockElementClasses c;
     inlineElementClasses := inlineElementClasses c;
     orderedInlineElementClasses := orderedInlineElementClasses c;
     blockRenderNodeClasses := blockRenderNodeClasses c;
     inlineRenderNodeClasses :=
       <[elementType := renderNodeClass]> (inlineRenderNodeClasses c);
     blockBoxClasses := blockBoxClasses c;
     inlineBoxClasses := inlineBoxClasses c;
     atomicBoxClasses := atomicBoxClasses c;
     blockViewNodeClasses := blockViewNodeClasses c;
     inlineViewNodeClasses := inlineViewNodeClasses c |}.

Definition getInlineRenderNodeClass (elementType : string) (c : t) : lookup :=
  match inlineRenderNodeClasses c !! elementType with
  | None => Thrown (InlineRenderNodeNotRegistered elementType)
  | Some k => Found k
  end.

Definition registerBlockBoxClass (renderNodeType : string) (boxClass : ClassRef)
           (c : t) : t :=
  {| blockElementClasses := blockElementClasses c;
     orderedBlockElementClasses := orderedBlockElementClasses c;
     inlineElementClasses := inlineElementClasses c;
     orderedInlineElementClasses := orderedInlineElementClasses c;
     blockRenderNodeClasses := blockRenderNodeClasses c;
     inlineRenderNodeClasses := inlineRenderNodeClasses c;
     blockBoxClasses := <[renderNodeType := boxClass]> (blockBoxClasses c);
     inlineBoxClasses := inlineBoxClasses c;
     atomicBoxClasses := atomicBoxClasses c;
     blockViewNodeClasses := blockViewNodeClasses c;
     inlineViewNodeClasses := inlineViewNodeClasses c |}.

Definition getBlockBoxClass (renderNodeType : string) (c : t) : lookup :=
  match blockBoxClasses c !! renderNodeType with
  | None => Thrown (BlockBoxNotRegistered renderNodeType)
  | Some k => Found k
  end.

Definition registerInlineBoxClass (renderNodeType : string) (boxClass : ClassRef)
           (c : t) : t :=
  {| blockElementClasses := blockElementClasses c;
     orderedBlockElementClasses := orderedBlockElementClasses c;
     inlineElementClasses := inlineElementClasses c;
     orderedInlineElementClasses := orderedInlineElementClasses c;
     blockRenderNodeClasses := blockRenderNodeClasses c;
     inlineRenderNodeClasses := inlineRenderNodeClasses c;
     blockBoxClasses := blockBoxClasses c;
     inlineBoxClasses := <[renderNodeType := boxClass]> (inlineBoxClasses c);
     atomicBoxClasses := atomicBoxClasses c;
     blockViewNodeClasses := blockViewNodeClasses c;
     inlineViewNodeClasses := inlineViewNodeClasses c |}.

Definition getInlineBoxClass (renderNodeType : string) (c : t) : lookup :=
  match inlineBoxClasses c !! renderNodeType with
  | None => Thrown (InlineBoxNotRegistered renderNodeType)
  | Some k => Found k
  end.

Definition registerAtomicBoxClass (renderNodeType : string) (boxClass : ClassRef)
           (c : t) : t :=
  {| blockElementClasses := blockElementClasses c;
     orderedBlockElementClasses := orderedBlockElementClasses c;
     inlineElementClasses := inlineElementClasses c;
     orderedInlineElementClasses := orderedInlineElementClasses c;
     blockRenderNodeClasses := blockRenderNodeClasses c;
     inlineRenderNodeClasses := inlineRenderNodeClasses c;
     blockBoxClasses := blockBoxClasses c;
     inlineBoxClasses := inlineBoxClasses c;
     atomicBoxClasses := <[renderNodeType := boxClass]> (atomicBoxClasses c);
     blockViewNodeClasses := blockViewNodeClasses c;
     inlineViewNodeClasses := inlineViewNodeClasses c |}.

Definition getAtomicBoxClass (renderNodeType : string) (c : t) : lookup :=
  match atomicBoxClasses c !! renderNodeType with
  | None => Thrown (AtomicBoxNotRegistered renderNodeType)
  | Some k => Found k
  end.

Definition registerBlockViewNodeClass (boxType : string) (viewNodeClass : ClassRef)
           (c : t) : t :=
  {| blockElementClasses := blockElementClasses c;
     orderedBlockElementClasses := orderedBlockElementClasses c;
     inlineElementClasses := inlineElementClasses c;
     orderedInlineElementClasses := orderedInlineElementClasses c;
     blockRenderNodeClasses := blockRenderNodeClasses c;
     inlineRenderNodeClasses := inlineRenderNodeClasses c;
     blockBoxClasses := blockBoxClasses c;
     inlineBoxClasses := inlineBoxClasses c;
     atomicBoxClasses := atomicBoxClasses c;
     blockViewNodeClasses := <[boxType := viewNodeClass]> (blockViewNodeClasses c);
     inlineViewNodeClasses := inlineViewNodeClasses c |}.

Definition getBlockViewNodeClass (boxType : string) (c : t) : lookup :=
  match blockViewNodeClasses c !! boxType with
  | None => Thrown (BlockViewNodeNotRegistered boxType)
  | Some k => Found k
  end.

Definition registerInlineViewNodeClass (boxType : string) (viewNodeClass : ClassRef)
           (c : t) : t :=
  {| blockElementClasses := blockElementClasses c;
     orderedBlockElementClasses := orderedBlockElementClasses c;
     inlineElementClasses := inlineElementClasses c;
     orderedInlineElementClasses := orderedInlineElementClasses c;
     blockRenderNodeClasses := blockRenderNodeClasses c;
     inlineRenderNodeClasses := inlineRenderNodeClasses c;
     blockBoxClasses := blockBoxClasses c;
     inlineBoxClasses := inlineBoxClasses c;
     atomicBoxClasses := atomicBoxClasses c;
     blockViewNodeClasses := blockViewNodeClasses c;
     inlineViewNodeClasses := <[boxType := viewNodeClass]> (inlineViewNodeClasses c) |}.

Definition getInlineViewNodeClass (boxType : string) (c : t) : lookup :=
  match inlineViewNodeClasses c !! boxType with
  | None => Thrown (InlineViewNodeNotRegistered boxType)
  | Some k => Found k
  end.

(** The constructor registers the built-in classes, in this order. *)
Definition new : t :=
  registerInlineViewNodeClass "TextInlineBox" "TextInlineViewNode"
    (registerBlockViewNodeClass "ParagraphBlockBox" "ParagraphBlockViewNode"
       (registerAtomicBoxClass "TextAtomicRenderNode" "TextAtomicBox"
          (registerInlineBoxClass "TextInlineRenderNode" "TextInlineBox"
             (registerBlockBoxClass "ParagraphBlockRenderNode" "ParagraphBlockBox"
                (registerInlineRenderNodeClass "Text" "TextInlineRenderNode"
                   (registerBlockRenderNodeClass "Paragraph" "ParagraphBlockRenderNode"
                      (registerInlineElementClass "Text" "Text"
                         (registerBlockElementClass "Paragraph" "Paragraph"
                            empty)))))))).

(** The registration calls a client can make. *)
Inductive registration : Type :=
| RegisterBlockElementClass (elementType : string) (elementClass : ClassRef)
| RegisterInlineElementClass (elementType : string) (elementClass : ClassRef)
| RegisterBlockRenderNodeClass (elementType : string) (renderNodeClass : ClassRef)
| RegisterInlineRenderNodeClass (elementType : string) (renderNodeClass : ClassRef)
| RegisterBlockBoxClass (renderNodeType : string) (boxClass : ClassRef)
| RegisterInlineBoxClass (renderNodeType : string) (boxClass : ClassRef)
| RegisterAtomicBoxClass (renderNodeType : string) (boxClass : ClassRef)
| RegisterBlockViewNodeClass (boxType : string) (viewNodeClass : ClassRef)
| RegisterInlineViewNodeClass (boxType : string) (viewNodeClass : ClassRef).

Definition register (c : t) (r : registration) : t :=
  match r with
  | RegisterBlockElementClass ty k => registerBlockElementClass ty k c
  | RegisterInlineElementClass ty k => registerInlineElementClass ty k c
  | RegisterBlockRenderNodeClass ty k => registerBlockRenderNodeClass ty k c
  | RegisterInlineRenderNodeClass ty k => registerInlineRenderNodeClass ty k c
  | RegisterBlockBoxClass ty k => registerBlockBoxClass ty k c
  | RegisterInlineBoxClass ty k => registerInlineBoxClass ty k c
  | RegisterAtomicBoxClass ty k => registerAtomicBoxClass ty k c
  | RegisterBlockViewNodeClass ty k => registerBlockViewNodeClass ty k c
  | RegisterInlineViewNodeClass ty k => registerInlineViewNodeClass ty k c
  end.

Definition registerAll (rs : list registration) (c : t) : t := fold_left register rs c.

(** The constructor body as the list of its calls. *)
Definition defaultRegistrations : list registration :=
  [RegisterBlockElementClass "Paragraph" "Paragraph";
   RegisterInlineElementClass "Text" "Text";
   RegisterBlockRenderNodeClass "Paragraph" "ParagraphBlockRenderNode";
   RegisterInlineRenderNodeClass "Text" "TextInlineRenderNode";
   RegisterBlockBoxClass "ParagraphBlockRenderNode" "ParagraphBlockBox";
   RegisterInlineBoxClass "TextInlineRenderNode" "TextInlineBox";
   RegisterAtomicBoxClass "TextAtomicRenderNode" "TextAtomicBox";
   RegisterBlockViewNodeClass "ParagraphBlockBox" "ParagraphBlockViewNode";
   RegisterInlineViewNodeClass "TextInlineBox" "TextInlineViewNode"].

(** The nine maps of the registry, and the getter of each. *)
Inductive registry : Type :=
| BlockElementClasses
| InlineElementClasses
| BlockRenderNodeClasses
| InlineRenderNodeClasses
| BlockBoxClasses
| InlineBoxClasses
| AtomicBoxClasses
| BlockViewNodeClasses
| InlineViewNodeClasses.

Definition registry_eqb (a b : registry) : bool :=
  match a, b with
  | BlockElementClasses, BlockElementClasses
  | InlineElementClasses, InlineElementClasses
  | BlockRenderNodeClasses, BlockRenderNodeClasses
  | InlineRenderNodeClasses, InlineRenderNodeClasses
  | BlockBoxClasses, BlockBoxClasses
  | InlineBoxClasses, InlineBoxClasses
  | AtomicBoxClasses, AtomicBoxClasses
  | BlockViewNodeClasses, BlockViewNodeClasses
  | InlineViewNodeClasses, InlineViewNodeClasses => true
  | _, _ => false
  end.

Definition getClass (g : registry) (key : string) (c : t) : lookup :=
  match g with
  | BlockElementClasses => getBlockElementClass key c
  | InlineElementClasses => getInlineElementClass key c
  | BlockRenderNodeClasses => getBlockRenderNodeClass key c
  | InlineRenderNodeClasses => getInlineRenderNodeClass key c
  | BlockBoxClasses => getBlockBoxClass key c
  | InlineBoxClasses => getInlineBoxClass key c
  | AtomicBoxClasses => getAtomicBoxClass key c
  | BlockViewNodeClasses => getBlockViewNodeClass key c
  | InlineViewNodeClasses => getInlineViewNodeClass key c
  end.

(** The error each getter throws for a key it does not have. *)
Definition errorOf (g : registry) (key : string) : notRegistered :=
  match g with
  | BlockElementClasses => BlockElementTypeNotRegistered key
  | InlineElementClasses => InlineElementTypeNotRegistered key
  | BlockRenderNodeClasses => BlockRenderNodeNotRegistered key
  | InlineRenderNodeClasses => InlineRenderNodeNotRegistered key
  | BlockBoxClasses => BlockBoxNotRegistered key
  | InlineBoxClasses => InlineBoxNotRegistered key
  | AtomicBoxClasses => AtomicBoxNotRegistered key
  | BlockViewNodeClasses => BlockViewNodeNotRegistered key
  | InlineViewNodeClasses => InlineViewNodeNotRegistered key
  end.

(** The map a registration call writes to, its key and its class. *)
Definition registryOf (r : registration) : registry :=
  match r with
  | RegisterBlockElementClass _ _ => BlockElementClasses
  | RegisterInlineElementClass _ _ => InlineElementClasses
  | RegisterBlockRenderNodeClass _ _ => BlockRenderNodeClasses
  | RegisterInlineRenderNodeClass _ _ => InlineRenderNodeClasses
  | RegisterBlockBoxClass _ _ => BlockBoxClasses
  | RegisterInlineBoxClass _ _ => InlineBoxClasses
  | RegisterAtomicBoxClass _ _ => AtomicBoxClasses
  | RegisterBlockViewNodeClass _ _ => BlockViewNodeClasses
  | RegisterInlineViewNodeClass _ _ => InlineViewNodeClasses
  end.

Definition keyOf (r : registration) : string :=
  match r with
  | RegisterBlockElementClass key _ | RegisterInlineElementClass key _
  | RegisterBlockRenderNodeClass key _ | RegisterInlineRenderNodeClass key _
  | RegisterBlockBoxClass key _ | RegisterInlineBoxClass key _
  | RegisterAtomicBoxClass key _ | RegisterBlockViewNodeClass key _
  | RegisterInlineViewNodeClass key _ => key
  end.

Definition classOf (r : registration) : ClassRef :=
  match r with
  | RegisterBlockElementClass _ k | RegisterInlineElementClass _ k
  | RegisterBlockRenderNodeClass _ k | RegisterInlineRenderNodeClass _ k
  | RegisterBlockBoxClass _ k | RegisterInlineBoxClass _ k
  | RegisterAtomicBoxClass _ k | RegisterBlockViewNodeClass _ k
  | RegisterInlineViewNodeClass _ k => k
  end.

(** Whether a call writes the given key of the given map. *)
Definition writes (g : registry) (key : string) (r : registration) : bool :=
  registry_eqb (registryOf r) g && String.eqb (keyOf r) key.

(** The class of the last call that writes the key, if any. *)
Definition lastWritten (g : registry) (key : string) (rs : list registration)
  : option ClassRef :=
  classOf <$> last (List.filter (writes g key) rs).

(** The classes of the calls that write the given map, in call order. *)
Definition classesWritten (g : registry) (rs : list registration) : list ClassRef :=
  map classOf (List.filter (fun r => registry_eqb (registryOf r) g) rs).

End ElementConfig.

(** ** The transformation of the first cursor package
    (packages/taleweaver-core/src/cursor/Transformation.ts) *)

Module CursorTransformation.

Section WithOperation.

(** [Operation] is a class of its own; the transformation only stores it. *)
Variable Operation : Type.

Record t : Type := {
  operations : list Operation;
  (** [null] is [None] *)
  leftAnchor : option Z;
}.

Definition new : t := {| operations := []; leftAnchor := None |}.

Definition addOperation (operation : Operation) (tn : t) : t :=
  {| operations := operations tn ++ [operation]; leftAnchor := leftAnchor tn |}.

Definition getOperations (tn : t) : list Operation := operations tn.

Definition setLeftAnchor (anchor : Z) (tn : t) : t :=
  {| operations := operations tn; leftAnchor := Some anchor |}.

Definition getLeftAnchor (tn : t) : option Z := leftAnchor tn.

(** The two mutating calls. *)
Inductive call : Type :=
| AddOperation (operation : Operation)
| SetLeftAnchor (anchor : Z).

Definition apply (tn : t) (c : call) : t :=
  match c with
  | AddOperation operation => addOperation operation tn
  | SetLeftAnchor anchor => setLeftAnchor anchor tn
  end.

Definition applyAll (cs : list call) (tn : t) : t := fold_left apply cs tn.

Definition addedOperations (cs : list call) : list Operation :=
  omap (fun c => match c with AddOperation o => Some o | SetLeftAnchor _ => None end) cs.

Definition anchorsSet (cs : list call) : list Z :=
  omap (fun c => match c with AddOperation _ => None | SetLeftAnchor a => Some a end) cs.

End WithOperation.

End CursorTransformation.

(** ** The view of a text run (packages/core/src/view/TextInlineViewNode.ts) *)

Module TextInlineViewNode.

Record TextStyle : Type := {
  font : string;
  size : Z;
  letterSpacing : Z;
  weight : Z;
  color : string;
  underline : bool;
  italic : bool;
  strikethrough : bool;
}.

(** The children of a text inline box: text atomic boxes, or any other
    atomic box, for which [instanceof TextAtomicBox] is false. *)
Inductive AtomicBox : Type :=
| TextAtomicBox (getContent : string)
| OtherAtomicBox.

Record TextInlineBox : Type := {
  getTextStyle : TextStyle;
  getSize : Z;
  getChildren : list AtomicBox;
  getPaddingTop : Z;
  getPaddingBottom : Z;
}.

(** A length written as a number followed by [px]. *)
Inductive Length : Type :=
| Px (n : Z).

(** The style properties the view writes; a property that was never set,
    or was set to [null], is [None]. *)
Record Style : Type := {
  display : option string;
  whiteSpace : option string;
  lineHeight : option string;
  paddingTop : option Length;
  paddingBottom : option Length;
  fontFamily : option string;
  fontSize : option Length;
  styleLetterSpacing : option Length;
  fontWeight : option Z;
  styleColor : option string;
  textDecoration : option string;
  fontStyle : option string;
}.

Record t : Type := {
  (** [this.size] of the base class; [undefined] is [None] *)
  viewSize : option Z;
  containerClassName : string;
  containerId : string;
  containerRole : string;
  containerStyle : Style;
  contentClassName : string;
  contentTextDecoration : option string;
  innerText : string;
}.

Definition new (id : string) : t :=
  {| viewSize := None;
     containerClassName := "tw--text-inline";
     containerId := id;
     containerRole := "inline";
     containerStyle :=
       {| display := Some "inline-block"; whiteSpace := Some "pre";
          lineHeight := Some "1em";
          paddingTop := None; paddingBottom := None; fontFamily := None;
          fontSize := None; styleLetterSpacing := None; fontWeight := None;
          styleColor := None; textDecoration := None; fontStyle := None |};
     contentClassName := "tw--text-inline-content";
     contentTextDecoration := None;
     innerText := EmptyString |}.

Inductive outcome : Type :=
| Returned
| ThrewInvalidChild.

(** [getChildren().map(child => ...)]: the callback throws at the first
    child that is not a text atomic box. *)
Fixpoint contents (children : list AtomicBox) : option (list string) :=
  match children with
  | [] => Some []
  | TextAtomicBox content :: rest =>
      match contents rest with
      | Some texts => Some (content :: texts)
      | None => None
      end
  | OtherAtomicBox :: _ => None
  end.

Definition onLayoutUpdated (layoutNode : TextInlineBox) (v : t) : t * outcome :=
  let textStyle := getTextStyle layoutNode in
  let v :=
    {| viewSize := Some (getSize layoutNode);
       containerClassName := containerClassName v;
       containerId := containerId v;
       containerRole := containerRole v;
       containerStyle := containerStyle v;
       contentClassName := contentClassName v;
       contentTextDecoration := contentTextDecoration v;
       innerText := innerText v |} in
  match contents (getChildren layoutNode) with
  | None => (v, ThrewInvalidChild)
  | Some texts =>
      let text := String.concat EmptyString texts in
      ({| viewSize := viewSize v;
          containerClassName := containerClassName v;
          containerId := containerId v;
          containerRole := containerRole v;
          containerStyle :=
            {| display := display (containerStyle v);
               whiteSpace := whiteSpace (containerStyle v);
               lineHeight := lineHeight (containerStyle v);
               paddingTop := Some (Px (getPaddingTop layoutNode));
               paddingBottom := Some (Px (getPaddingBottom layoutNode));
               fontFamily := Some (font textStyle);
               fontSize := Some (Px (size textStyle));
               styleLetterSpacing := Some (Px (letterSpacing textStyle));
               fontWeight := Some (weight textStyle);
               styleColor := Some (color textStyle);
               textDecoration :=
                 if underline textStyle then Some "underline" else None;
               fontStyle := if italic textStyle then Some "italic" else None |};
          contentClassName := contentClassName v;
          contentTextDecoration :=
            if strikethrough textStyle then Some "line-through" else None;
          innerText := text |},
       Returned)
  end.

(** A text atomic box, as [instanceof TextAtomicBox] answers. *)
Definition isTextAtomicBox (child : AtomicBox) : Prop :=
  match child with
  | TextAtomicBox _ => True
  | OtherAtomicBox => False
  end.

(** The content of a child, empty for a child that has none. *)
Definition contentOf (child : AtomicBox) : string :=
  match child with
  | TextAtomicBox content => content
  | OtherAtomicBox => EmptyString
  end.

End TextInlineViewNode.

(** * Sample data *)

Module Samples.

(** A document of two paragraphs, [Hello] and [Foo], both with one text run. *)
Definition helloBlock : RenderTree.node :=
  RenderTree.Structural 1 None
    [RenderTree.Structural 2 None [RenderTree.Atomic 3 None 5]].

Definition fooBlock : RenderTree.node :=
  RenderTree.Structural 4 None
    [RenderTree.Structural 5 None [RenderTree.Atomic 6 None 3]].

Definition emptyDocNode : DocRenderNode.t RenderTree.node :=
  DocRenderNode.new "doc".

Definition docNode : DocRenderNode.t RenderTree.node :=
  DocRenderNode.insertChild fooBlock None
    (DocRenderNode.insertChild helloBlock None emptyDocNode).

Definition docNodeOps : list (DocRenderNode.op RenderTree.node) :=
  [DocRenderNode.InsertChild helloBlock None;
   DocRenderNode.GetSelectableSize;
   DocRenderNode.InsertChild fooBlock (Some 0);
   DocRenderNode.GetModelSize;
   DocRenderNode.DeleteChild helloBlock;
   DocRenderNode.DeleteChild helloBlock;
   DocRenderNode.OnModelUpdated
     {| Doc.getID := "doc2"; Doc.getWidth := 800; Doc.getHeight := 600;
        Doc.getPadding := 20 |}].

(** Pages whose content area is 6 units wide and 4 units high. *)
Definition viewConfig : DocumentView.DocumentViewConfig :=
  {| DocumentView.pageWidth := 8%float; DocumentView.pageHeight := 6%float;
     DocumentView.pagePaddingTop := 1%float;
     DocumentView.pagePaddingBottom := 1%float;
     DocumentView.pagePaddingLeft := 1%float;
     DocumentView.pagePaddingRight := 1%float |}.

Definition helloBox : DocumentView.BoxView :=
  {| DocumentView.boxGetWidth := 6%float; DocumentView.boxGetSize := 6 |}.
Definition worldBox : DocumentView.BoxView :=
  {| DocumentView.boxGetWidth := 5%float; DocumentView.boxGetSize := 6 |}.
Definition fooBox : DocumentView.BoxView :=
  {| DocumentView.boxGetWidth := 3%float; DocumentView.boxGetSize := 4 |}.
Definition abBox : DocumentView.BoxView :=
  {| DocumentView.boxGetWidth := 2%float; DocumentView.boxGetSize := 2 |}.

(** Pages without padding whose content area is 250.54 wide and 210.72
    high, and boxes with measured widths that are no whole numbers. *)
Definition measuredConfig : DocumentView.DocumentViewConfig :=
  {| DocumentView.pageWidth := 250.54%float;
     DocumentView.pageHeight := 210.72%float;
     DocumentView.pagePaddingTop := 0%float;
     DocumentView.pagePaddingBottom := 0%float;
     DocumentView.pagePaddingLeft := 0%float;
     DocumentView.pagePaddingRight := 0%float |}.

Definition measuredBox (width : Number.t) : DocumentView.BoxView :=
  {| DocumentView.boxGetWidth := width; DocumentView.boxGetSize := 1 |}.

Definition measuredLineOf (boxes : list DocumentView.BoxView)
  : DocumentView.LineView :=
  {| DocumentView.lineWidth := 250.54%float; DocumentView.getBoxViews := boxes |}.

Definition measuredPageOf (lines : list DocumentView.LineView)
  : DocumentView.PageView :=
  {| DocumentView.pageConfig := measuredConfig;
     DocumentView.getLineViews := lines |}.

(** A line view class whose lines are as high as their first box is wide,
    so that a sample chooses the height of each line. *)
Definition highAsFirstBoxIsWide (l : DocumentView.LineView) : Number.t :=
  match DocumentView.getBoxViews l with
  | b :: _ => DocumentView.boxGetWidth b
  | [] => 0%float
  end.

Definition helloWorldBlocks : list DocumentView.BoxViewBlock :=
  [{| DocumentView.blockElementType := "Paragraph";
      DocumentView.boxViews := [helloBox; worldBox] |};
   {| DocumentView.blockElementType := "Paragraph";
      DocumentView.boxViews := [fooBox] |}].

Definition lineOf (boxes : list DocumentView.BoxView) : DocumentView.LineView :=
  {| DocumentView.lineWidth := 6%float; DocumentView.getBoxViews := boxes |}.

Definition pageOf (lines : list DocumentView.LineView) : DocumentView.PageView :=
  {| DocumentView.pageConfig := viewConfig; DocumentView.getLineViews := lines |}.

(** Every line two units high, as a paragraph's line height. *)
Definition twoHigh (l : DocumentView.LineView) : Number.t := 2%float.

(** Every line five units high: taller than the content area. *)
Definition fiveHigh (l : DocumentView.LineView) : Number.t := 5%float.

Definition helloWorldView : DocumentView.t :=
  {| DocumentView.documentElementGetSize := 16;
     DocumentView.config := viewConfig;
     DocumentView.viewPageViews :=
       DocumentView.buildPageViews twoHigh viewConfig
         (DocumentView.buildLineViews viewConfig helloWorldBlocks) |}.

(** A document view with two pages bound to DOM nodes 10 and 20. *)
Definition twoPageDocView : DocView.t :=
  {| DocView.children := [{| DocView.getDOMContainer := 10%nat |};
                          {| DocView.getDOMContainer := 20%nat |}];
     DocView.childNodes := [10%nat; 20%nat] |}.

(** The layout of the same two paragraphs: [Hello ] and [world] on two
    lines of the first page, [Foo] on the second page.  Each word box counts
    the blank or the paragraph end after it; one position is one pixel. *)
Definition columnOf (size : Z) (x y : Z) : Z := Z.max 0 (Z.min x (size - 1)).

Definition helloLine : Layout.Line :=
  {| Layout.words := [{| Layout.wordSize := 6; Layout.wordTrimmedSize := 5 |}];
     Layout.lineConvertCoordinatesToPosition := columnOf 6 |}.

Definition worldLine : Layout.Line :=
  {| Layout.words := [{| Layout.wordSize := 6; Layout.wordTrimmedSize := 5 |}];
     Layout.lineConvertCoordinatesToPosition := columnOf 6 |}.

Definition fooLine : Layout.Line :=
  {| Layout.words := [{| Layout.wordSize := 4; Layout.wordTrimmedSize := 3 |}];
     Layout.lineConvertCoordinatesToPosition := columnOf 4 |}.

Definition helloWorldLayout : Layout.t :=
  {| Layout.pages := [{| Layout.lines := [helloLine; worldLine] |};
                      {| Layout.lines := [fooLine] |}] |}.

(** A third paragraph, [Ba], that is not in [docNode]. *)
Definition barBlock : RenderTree.node :=
  RenderTree.Structural 7 None
    [RenderTree.Structural 8 None [RenderTree.Atomic 9 None 2]].

(** A model document whose children are known by a number. *)
Definition numberedDoc : ModelDoc.t nat := {| ModelDoc.children := [1; 2; 3]%nat |}.

(** The two pages of [helloWorldView] differ in their number of lines,
    which tells the two objects apart. *)
Definition pageByLineCount (p : DocumentView.PageView) : nat :=
  length (DocumentView.getLineViews p).

End Samples.

(** * Induction on render subtrees

    The induction principle that gives the hypothesis for every child of a
    structural node. *)

Fixpoint node_rect_Forall (P : RenderTree.node -> Prop)
         (HA : forall oid p len, P (RenderTree.Atomic oid p len))
         (HS : forall oid p cs, Forall P cs -> P (RenderTree.Structural oid p cs))
         (n : RenderTree.node) : P n :=
  match n with
  | RenderTree.Atomic oid p len => HA oid p len
  | RenderTree.Structural oid p cs =>
      HS oid p cs
         ((fix go (cs : list RenderTree.node) : Forall P cs :=
             match cs with
             | [] => @List.Forall_nil _ P
             | c :: rest =>
                 @List.Forall_cons _ P c rest (node_rect_Forall P HA HS c) (go rest)
             end) cs)
  end.

(** * Loop invariants and the specification's wording *)

(** The width on a line and the height on a page as the two loops
    accumulate them: from 0, one rounded addition for each box or line, in
    order. *)
Definition widthOnLine (line : DocumentView.LineView) : Number.t :=
  Number.runningSum (map DocumentView.boxGetWidth (DocumentView.getBoxViews line)).

Definition heightOnPage (lineGetHeight : DocumentView.LineView -> Number.t)
           (page : DocumentView.PageView) : Number.t :=
  Number.runningSum (map lineGetHeight (DocumentView.getLineViews page)).


(** A page respects the content height: it is empty, or the running height
    of its lines is not above the limit, or it holds one line that is too
    tall on its own. *)
Definition pageWithinHeight (lineGetHeight : DocumentView.LineView -> Number.t)
           (config : DocumentView.DocumentViewConfig)
           (page : DocumentView.PageView) : Prop :=
  DocumentView.getLineViews page = [] \/
  Number.gt (heightOnPage lineGetHeight page)
            (DocumentView.pageContentHeight config) = false \/
  exists l, DocumentView.getLineViews page = [l] /\
            Number.gt (lineGetHeight l) (DocumentView.pageContentHeight config)
            = true.

(** In [buildPageViews] the current page is the last one pushed, the
    running height is the height of the lines already on it, the pages hold
    the lines seen so far in order, and only the first page may be empty. *)
Definition pageBuildInv (lineGetHeight : DocumentView.LineView -> Number.t)
           (config : DocumentView.DocumentViewConfig)
           (st : DocumentView.PageBuild) (prev : list DocumentView.PageView)
           (cur : DocumentView.PageView) (seen : list DocumentView.LineView) : Prop :=
  DocumentView.pageViews st = prev ++ [cur] /\
  DocumentView.pageView st = length prev /\
  DocumentView.cumulatedHeight st = heightOnPage lineGetHeight cur /\
  Forall (pageWithinHeight lineGetHeight config) (prev ++ [cur]) /\
  (forall i page, (prev ++ [cur]) !! i = Some page -> i <> 0%nat ->
                  DocumentView.getLineViews page <> []) /\
  concat (map DocumentView.getLineViews (prev ++ [cur])) = seen.

(** The pagination property as the specification words it: every page holds
    a line, and the heights of the lines of a page, added up exactly, are
    at most the content height unless the page is a single line that is
    too tall. *)
Definition paginationAsSpecified
           (lineGetHeight : DocumentView.LineView -> Number.t)
           (config : DocumentView.DocumentViewConfig)
           (lineViews : list DocumentView.LineView) : Prop :=
  forall page,
    In page (DocumentView.buildPageViews lineGetHeight config lineViews) ->
    DocumentView.getLineViews page <> [] /\
    (Number.exactSumExceeds (map lineGetHeight (DocumentView.getLineViews page))
                            (DocumentView.pageContentHeight config) = false \/
     exists l, DocumentView.getLineViews page = [l] /\
               Number.gt (lineGetHeight l) (DocumentView.pageContentHeight config)
               = true).

(** A page followed by the lines appended to it later. *)
Definition pageWithMore (page : DocumentView.PageView)
           (more : list DocumentView.LineView) : DocumentView.PageView :=
  {| DocumentView.pageConfig := DocumentView.pageConfig page;
     DocumentView.getLineViews := DocumentView.getLineViews page ++ more |}.

(** Lines and pages that cover no position, and views in which no box
    covers a negative span. *)
Definition boxZero (boxView : DocumentView.BoxView) : Prop :=
  DocumentView.boxGetSize boxView = 0.

Definition lineZero (lineView : DocumentView.LineView) : Prop :=
  Forall boxZero (DocumentView.getBoxViews lineView).

Definition pageZero (pageView : DocumentView.PageView) : Prop :=
  Forall lineZero (DocumentView.getLineViews pageView).

Definition lineNonneg (lineView : DocumentView.LineView) : Prop :=
  Forall (fun boxView => 0 <= DocumentView.boxGetSize boxView)
         (DocumentView.getBoxViews lineView).

Definition pageNonneg (pageView : DocumentView.PageView) : Prop :=
  Forall lineNonneg (DocumentView.getLineViews pageView).

(** The position at which a word or a line of a layout starts. *)
Definition wordStart (l : Layout.t) (rank : nat) : Z :=
  sumOf Layout.wordSize (take rank (Layout.allWords l)).

Definition lineStart (l : Layout.t) (rank : nat) : Z :=
  sumOf Layout.lineSize (take rank (Layout.allLines l)).

(** Going to the previous boundary and then to the next one. *)
Definition previousThenNextWord {Service Node : Type}
           `{LayoutService.Interface Service Node}
           (layoutService : Service) (position : Z) : result Z :=
  let! back := CursorCommands.atPreviousWord position layoutService in
  CursorCommands.atNextWord back layoutService.

Definition previousThenNextLine {Service Node : Type}
           `{LayoutService.Interface Service Node}
           (layoutService : Service) (position leftLock : Z) : result Z :=
  let! back := CursorCommands.atPreviousLine position leftLock layoutService in
  CursorCommands.atNextLine back leftLock layoutService.

(** The round trip as the specification words it: from every position of
    the document but its first word start, going to the previous word and
    then to the next one comes back to the position, and the same for
    lines. *)
Definition roundTripAsSpecified (l : Layout.t) : Prop :=
  forall position leftLock,
    0 < position < Layout.contentSize l ->
    previousThenNextWord l position = Ok position /\
    previousThenNextLine l position leftLock = Ok position.

(** A line respects the content width: it is empty, or the running width
    of its boxes is not above the limit, or it holds one box that is too
    wide on its own. *)
Definition lineFitsWidth (config : DocumentView.DocumentViewConfig)
           (line : DocumentView.LineView) : Prop :=
  DocumentView.getBoxViews line = [] \/
  Number.gt (widthOnLine line) (DocumentView.pageContentWidth config) = false \/
  exists b, DocumentView.getBoxViews line = [b] /\
            Number.gt (DocumentView.boxGetWidth b)
                      (DocumentView.pageContentWidth config) = true.

(** The lines that [buildLineViews] makes for one block: at least one, they
    hold the boxes of the block in order, each respects the content width
    and is as wide as the content area, and only the first may be empty. *)
Definition linesOfBlock (config : DocumentView.DocumentViewConfig)
           (boxes : list DocumentView.BoxView)
           (group : list DocumentView.LineView) : Prop :=
  group <> [] /\
  concat (map DocumentView.getBoxViews group) = boxes /\
  Forall (lineFitsWidth config) group /\
  Forall (fun l => DocumentView.lineWidth l = DocumentView.pageContentWidth config)
         group /\
  (forall i l, group !! i = Some l -> i <> 0%nat -> DocumentView.getBoxViews l <> []).

(** While the boxes of a block are placed, the lines pushed for the block
    so far are [group ++ [cur]], after the lines [lvs] of the blocks
    before. *)
Definition blockLinesInv (config : DocumentView.DocumentViewConfig)
           (lvs : list DocumentView.LineView) (st : DocumentView.LineBuild)
           (group : list DocumentView.LineView) (cur : DocumentView.LineView)
           (seen : list DocumentView.BoxView) : Prop :=
  DocumentView.lineViews st = (lvs ++ group) ++ [cur] /\
  DocumentView.lineView st = length (lvs ++ group) /\
  DocumentView.cumulatedWidth st = widthOnLine cur /\
  linesOfBlock config seen (group ++ [cur]).

(** The children of a document view and the DOM children of its container
    are in step when the DOM children are the containers of the children,
    in order. *)
Definition childrenInStep (v : DocView.t) : Prop :=
  map DocView.getDOMContainer (DocView.getChildren v) = DocView.childNodes v.

(** * Properties *)

(** ** Sums and array helpers *)

Lemma sumOf_nil {A : Type} (f : A -> Z) : sumOf f [] = 0.
Proof. reflexivity. Qed.

Lemma sumOf_cons {A : Type} (f : A -> Z) (a : A) (l : list A) :
  sumOf f (a :: l) = f a + sumOf f l.
Proof. reflexivity. Qed.

Lemma sumOf_app {A : Type} (f : A -> Z) (l1 l2 : list A) :
  sumOf f (l1 ++ l2) = sumOf f l1 + sumOf f l2.
Proof.
  induction l1 as [|a l1 IH]; simpl.
  - rewrite sumOf_nil. lia.
  - rewrite !sumOf_cons, IH. lia.
Qed.

Lemma sumOf_nonneg {A : Type} (f : A -> Z) (l : list A) :
  Forall (fun a => 0 <= f a) l -> 0 <= sumOf f l.
Proof.
  induction 1 as [|a l Ha _ IH]; [rewrite sumOf_nil | rewrite sumOf_cons]; lia.
Qed.

Lemma sumOf_zero_each {A : Type} (f : A -> Z) (l : list A) :
  Forall (fun a => 0 <= f a) l -> sumOf f l <= 0 -> Forall (fun a => f a = 0) l.
Proof.
  induction 1 as [|a l Ha Hl IH]; intros Hsum; constructor.
  - rewrite sumOf_cons in Hsum. pose proof (sumOf_nonneg f l Hl). lia.
  - apply IH. rewrite sumOf_cons in Hsum. lia.
Qed.

Lemma fold_left_accumulates {A : Type} (f : A -> Z) (l : list A) (start : Z) :
  fold_left (fun acc a => acc + f a) l start = start + sumOf f l.
Proof.
  revert start. induction l as [|a l IH]; intros start; simpl.
  - rewrite sumOf_nil. lia.
  - rewrite IH, sumOf_cons. lia.
Qed.

(** ** The document render node *)

Section DocRenderNodeFacts.

Context {Child : Type} `{BlockRenderNode.Interface Child}.

Local Abbreviation node := (DocRenderNode.t Child).
Local Abbreviation selectableOf := BlockRenderNode.getSelectableSize.
Local Abbreviation modelOf := BlockRenderNode.getModelSize.

Lemma new_cacheCoherent (id : string) :
  DocRenderNode.cacheCoherent (DocRenderNode.new (Child := Child) id).
Proof. split; intros x Hx; discriminate Hx. Qed.

Lemma clearCache_cacheCoherent (n : node) :
  DocRenderNode.cacheCoherent (DocRenderNode.clearCache n).
Proof. split; intros x Hx; discriminate Hx. Qed.

Lemma getSelectableSize_value (n : node) :
  DocRenderNode.cacheCoherent n ->
  fst (DocRenderNode.getSelectableSize n)
  = sumOf selectableOf (DocRenderNode.getChildren n).
Proof.
  intros [Hs _]. unfold DocRenderNode.getSelectableSize, DocRenderNode.getChildren.
  destruct (DocRenderNode.selectableSize n) as [s|] eqn:E; simpl.
  - apply Hs. reflexivity.
  - rewrite fold_left_accumulates. lia.
Qed.

Lemma getModelSize_value (n : node) :
  DocRenderNode.cacheCoherent n ->
  fst (DocRenderNode.getModelSize n)
  = 2 + sumOf modelOf (DocRenderNode.getChildren n).
Proof.
  intros [_ Hm]. unfold DocRenderNode.getModelSize, DocRenderNode.getChildren.
  destruct (DocRenderNode.modelSize n) as [m|] eqn:E; simpl.
  - apply Hm. reflexivity.
  - rewrite fold_left_accumulates. lia.
Qed.

Lemma getSelectableSize_cacheCoherent (n : node) :
  DocRenderNode.cacheCoherent n ->
  DocRenderNode.cacheCoherent (snd (DocRenderNode.getSelectableSize n)).
Proof.
  intros Hc. unfold DocRenderNode.getSelectableSize.
  destruct (DocRenderNode.selectableSize n) as [s|] eqn:E; simpl; [exact Hc|].
  destruct Hc as [_ Hm]. split; simpl.
  - intros s Hs. injection Hs as <-. rewrite fold_left_accumulates. lia.
  - exact Hm.
Qed.

Lemma getModelSize_cacheCoherent (n : node) :
  DocRenderNode.cacheCoherent n ->
  DocRenderNode.cacheCoherent (snd (DocRenderNode.getModelSize n)).
Proof.
  intros Hc. unfold DocRenderNode.getModelSize.
  destruct (DocRenderNode.modelSize n) as [m|] eqn:E; simpl; [exact Hc|].
  destruct Hc as [Hs _]. split; simpl.
  - exact Hs.
  - intros m Hm. injection Hm as <-. rewrite fold_left_accumulates. lia.
Qed.

(** An insertion adds the child's sizes to the sums, wherever the offset
    puts the child. *)
Lemma insertChild_sizes (child : Child) (offset : option Z) (n : node) :
  sumOf selectableOf (DocRenderNode.getChildren (DocRenderNode.insertChild child offset n))
  = sumOf selectableOf (DocRenderNode.getChildren n) + selectableOf child /\
  sumOf modelOf (DocRenderNode.getChildren (DocRenderNode.insertChild child offset n))
  = sumOf modelOf (DocRenderNode.getChildren n) + modelOf child.
Proof.
  unfold DocRenderNode.insertChild, DocRenderNode.getChildren.
  cbn [DocRenderNode.children DocRenderNode.clearCache DocRenderNode.setChildren].
  destruct offset as [o|].
  - unfold spliceInsert.
    set (k := spliceIndex (DocRenderNode.children n) o).
    assert (forall f : Child -> Z,
               sumOf f (DocRenderNode.children n)
               = sumOf f (take k (DocRenderNode.children n))
                 + sumOf f (drop k (DocRenderNode.children n))) as Hsplit
        by (intros f; rewrite <- sumOf_app, take_drop; reflexivity).
    rewrite !sumOf_app, !sumOf_cons.
    rewrite BlockRenderNode.setParent_getSelectableSize,
      BlockRenderNode.setParent_getModelSize.
    rewrite (Hsplit selectableOf), (Hsplit modelOf).
    split; lia.
  - rewrite !sumOf_app, !sumOf_cons, !sumOf_nil.
    rewrite BlockRenderNode.setParent_getSelectableSize,
      BlockRenderNode.setParent_getModelSize.
    split; lia.
Qed.

Lemma mutation_clears (o : DocRenderNode.op Child) (n n' : node) :
  DocRenderNode.isMutation o = true ->
  DocRenderNode.step o n = Ok n' ->
  DocRenderNode.selectableSize n' = None /\ DocRenderNode.modelSize n' = None.
Proof.
  destruct o as [child offset | child | element | |]; simpl; try discriminate;
    intros _ Hstep.
  - injection Hstep as <-. split; reflexivity.
  - unfold DocRenderNode.deleteChild in Hstep.
    destruct (_ <? 0); [discriminate|]. injection Hstep as <-. split; reflexivity.
  - injection Hstep as <-. split; reflexivity.
Qed.

Lemma step_cacheCoherent (o : DocRenderNode.op Child) (n n' : node) :
  DocRenderNode.cacheCoherent n ->
  DocRenderNode.step o n = Ok n' ->
  DocRenderNode.cacheCoherent n'.
Proof.
  intros Hc Hstep.
  destruct (DocRenderNode.isMutation o) eqn:Hmut.
  - destruct (mutation_clears o n n' Hmut Hstep) as [Hs Hm].
    split; intros x Hx; congruence.
  - destruct o; simpl in Hmut; try discriminate; simpl in Hstep;
      injection Hstep as <-.
    + apply getSelectableSize_cacheCoherent, Hc.
    + apply getModelSize_cacheCoherent, Hc.
Qed.

Lemma stepOrKeep_cacheCoherent (o : DocRenderNode.op Child) (n : node) :
  DocRenderNode.cacheCoherent n ->
  DocRenderNode.cacheCoherent (DocRenderNode.stepOrKeep n o).
Proof.
  intros Hc. unfold DocRenderNode.stepOrKeep.
  destruct (DocRenderNode.step o n) as [n'|e] eqn:E; [|exact Hc].
  eapply step_cacheCoherent; eassumption.
Qed.

Lemma run_cacheCoherent (ops : list (DocRenderNode.op Child)) (n : node) :
  DocRenderNode.cacheCoherent n ->
  DocRenderNode.cacheCoherent (DocRenderNode.run ops n).
Proof.
  revert n. induction ops as [|o ops IH]; intros n Hc; simpl; [exact Hc|].
  apply IH, stepOrKeep_cacheCoherent, Hc.
Qed.

(** C9. Whatever insertions, deletions, model updates and size queries
    have been run on a document render node, [getSelectableSize] returns
    the sum of the children's selectable sizes and [getModelSize] returns
    2 plus the sum of their model sizes; and each of the three mutations
    leaves both cached values cleared. *)
Theorem sizes_hold_after_every_operation
        (n0 : node) (ops : list (DocRenderNode.op Child)) :
  DocRenderNode.cacheCoherent n0 ->
  let n := DocRenderNode.run ops n0 in
  fst (DocRenderNode.getSelectableSize n)
  = sumOf selectableOf (DocRenderNode.getChildren n) /\
  fst (DocRenderNode.getModelSize n)
  = 2 + sumOf modelOf (DocRenderNode.getChildren n) /\
  forall o n', DocRenderNode.isMutation o = true ->
               DocRenderNode.step o n = Ok n' ->
               DocRenderNode.selectableSize n' = None /\
               DocRenderNode.modelSize n' = None.
Proof.
  intros Hc n. pose proof (run_cacheCoherent ops n0 Hc) as Hn.
  split; [|split].
  - apply getSelectableSize_value, Hn.
  - apply getModelSize_value, Hn.
  - intros o n'. apply mutation_clears.
Qed.

(** The walk of the conversion, started anywhere in the child list. *)
Lemma convertLoop_in_range (cs : list Child) :
  Forall DocRenderNode.childConverts cs ->
  forall cumSel cumModel s,
    cumSel <= s < cumSel + sumOf selectableOf cs ->
    exists m,
      DocRenderNode.convertLoop cs cumSel cumModel s = Ok m /\
      cumModel <= m < cumModel + sumOf modelOf cs /\
      forall s', s < s' < cumSel + sumOf selectableOf cs ->
        exists m',
          DocRenderNode.convertLoop cs cumSel cumModel s' = Ok m' /\ m < m'.
Proof.
  induction 1 as [|c cs Hc Hcs IH]; intros cumSel cumModel s Hs.
  - rewrite sumOf_nil in Hs. lia.
  - rewrite !sumOf_cons in *.
    assert (0 <= sumOf modelOf cs) as Hrest.
    { apply sumOf_nonneg. eapply Forall_impl; [exact Hcs|].
      intros x Hx. apply Hx. }
    destruct Hc as [Hmodel Hconv].
    cbn [DocRenderNode.convertLoop].
    destruct (cumSel + selectableOf c >? s) eqn:Hhere.
    + apply Z.gtb_lt in Hhere.
      destruct (Hconv (s - cumSel)) as (m0 & Hm0 & Hrange & Hmono); [lia|].
      rewrite Hm0. cbn [bind]. exists (cumModel + m0).
      split; [reflexivity|]. split; [lia|].
      intros s' Hs'.
      destruct (cumSel + selectableOf c >? s') eqn:Hhere'.
      * apply Z.gtb_lt in Hhere'.
        destruct (Hmono (s' - cumSel)) as (m1 & Hm1 & Hlt); [lia|].
        rewrite Hm1. cbn [bind]. exists (cumModel + m1).
        split; [reflexivity | lia].
      * assert (cumSel + selectableOf c <= s') as Hpast
            by (destruct (Z.gtb_spec (cumSel + selectableOf c) s'); [discriminate | lia]).
        destruct (IH (cumSel + selectableOf c) (cumModel + modelOf c) s')
          as (m1 & Hm1 & Hrange1 & _); [lia|].
        exists m1. split; [exact Hm1 | lia].
    + assert (cumSel + selectableOf c <= s) as Hpast
          by (destruct (Z.gtb_spec (cumSel + selectableOf c) s); [discriminate | lia]).
      destruct (IH (cumSel + selectableOf c) (cumModel + modelOf c) s)
        as (m & Hm & Hrange & Hmono); [lia|].
      exists m. split; [exact Hm|]. split; [lia|].
      intros s' Hs'.
      assert ((cumSel + selectableOf c >? s') = false) as ->
          by (destruct (Z.gtb_spec (cumSel + selectableOf c) s'); [lia | reflexivity]).
      apply Hmono. lia.
Qed.

Lemma convertLoop_out_of_range (cs : list Child) :
  Forall (fun c => 0 <= selectableOf c) cs ->
  forall cumSel cumModel s,
    cumSel + sumOf selectableOf cs <= s ->
    DocRenderNode.convertLoop cs cumSel cumModel s
    = Throw (SelectableOffsetOutOfRange s).
Proof.
  induction 1 as [|c cs Hc Hcs IH]; intros cumSel cumModel s Hs; [reflexivity|].
  rewrite sumOf_cons in Hs.
  pose proof (sumOf_nonneg selectableOf cs Hcs) as Hrest.
  cbn [DocRenderNode.convertLoop].
  assert ((cumSel + selectableOf c >? s) = false) as ->
      by (destruct (Z.gtb_spec (cumSel + selectableOf c) s); [lia | reflexivity]).
  apply IH. lia.
Qed.

(** C1. On a document render node whose children convert well, the
    conversion of every selectable offset [s] in [0, selectableSize)
    succeeds, its result lies in [1, modelSize - 1), and every larger
    offset of that range converts to a strictly larger model offset. *)
Theorem convertSelectableOffsetToModelOffset_total_increasing_bounded
        (n : node) (s : Z) :
  DocRenderNode.cacheCoherent n ->
  Forall DocRenderNode.childConverts (DocRenderNode.getChildren n) ->
  0 <= s < fst (DocRenderNode.getSelectableSize n) ->
  exists m,
    DocRenderNode.convertSelectableOffsetToModelOffset n s = Ok m /\
    1 <= m < fst (DocRenderNode.getModelSize n) - 1 /\
    forall s', s < s' < fst (DocRenderNode.getSelectableSize n) ->
      exists m',
        DocRenderNode.convertSelectableOffsetToModelOffset n s' = Ok m' /\
        m < m'.
Proof.
  intros Hc Hcs. rewrite getSelectableSize_value, getModelSize_value by exact Hc.
  intros Hs. unfold DocRenderNode.convertSelectableOffsetToModelOffset.
  destruct (convertLoop_in_range _ Hcs 0 1 s) as (m & Hm & Hrange & Hmono); [lia|].
  exists m. split; [exact Hm|]. split; [lia|].
  intros s' Hs'. apply Hmono. lia.
Qed.

End DocRenderNodeFacts.

(** ** Render subtrees convert well *)

Section RenderTreeFacts.

Lemma structural_getSelectableSize oid p cs :
  RenderTree.getSelectableSize (RenderTree.Structural oid p cs)
  = sumOf RenderTree.getSelectableSize cs.
Proof. reflexivity. Qed.

Lemma structural_getModelSize oid p cs :
  RenderTree.getModelSize (RenderTree.Structural oid p cs)
  = 2 + sumOf RenderTree.getModelSize cs.
Proof. reflexivity. Qed.

Lemma structural_convert oid p cs s :
  RenderTree.convertSelectableOffsetToModelOffset (RenderTree.Structural oid p cs) s
  = DocRenderNode.convertLoop cs 0 1 s.
Proof.
  cbn [RenderTree.convertSelectableOffsetToModelOffset].
  match goal with
  | |- ?walk cs 0 1 = _ =>
      enough (forall a b, walk cs a b = DocRenderNode.convertLoop cs a b s) as Hg
        by apply Hg
  end.
  induction cs as [|c cs IH]; intros cumSel cumModel; [reflexivity|].
  cbn [DocRenderNode.convertLoop BlockRenderNode.getSelectableSize
       BlockRenderNode.getModelSize
       BlockRenderNode.convertSelectableOffsetToModelOffset
       RenderTree.asBlockRenderNode].
  destruct (_ >? s); [reflexivity|]. apply IH.
Qed.

Lemma structural_wellFormed oid p cs :
  RenderTree.wellFormed (RenderTree.Structural oid p cs)
  <-> Forall RenderTree.wellFormed cs.
Proof.
  cbn [RenderTree.wellFormed].
  induction cs as [|c cs IH]; split; intros Hw.
  - constructor.
  - exact I.
  - destruct Hw as [Hc Hcs]. constructor; [exact Hc | apply IH, Hcs].
  - inversion Hw as [|? ? Hc Hcs]; subst. split; [exact Hc | apply IH, Hcs].
Qed.

(** Every render subtree with non-negative content lengths meets what the
    document node asks of a child. *)
Lemma wellFormed_childConverts (n : RenderTree.node) :
  RenderTree.wellFormed n -> DocRenderNode.childConverts n.
Proof.
  induction n as [oid p len | oid p cs IH] using node_rect_Forall; intros Hw.
  - cbn in Hw. split; [exact Hw|].
    intros s Hs. exists s.
    cbn [BlockRenderNode.convertSelectableOffsetToModelOffset
         BlockRenderNode.getSelectableSize BlockRenderNode.getModelSize
         RenderTree.asBlockRenderNode
         RenderTree.convertSelectableOffsetToModelOffset
         RenderTree.getSelectableSize RenderTree.getModelSize] in *.
    assert (((0 <=? s) && (s <? len))%bool = true) as ->
        by (apply andb_true_iff; split; [apply Z.leb_le | apply Z.ltb_lt]; lia).
    split; [reflexivity|]. split; [lia|].
    intros s' Hs'. exists s'.
    assert (((0 <=? s') && (s' <? len))%bool = true) as ->
        by (apply andb_true_iff; split; [apply Z.leb_le | apply Z.ltb_lt]; lia).
    split; [reflexivity | lia].
  - apply structural_wellFormed in Hw.
    assert (Forall DocRenderNode.childConverts cs) as Hcs.
    { clear -IH Hw. induction IH as [|c cs Hc _ IHcs]; [constructor|].
      inversion Hw; subst. constructor; auto. }
    assert (0 <= sumOf RenderTree.getModelSize cs) as Hsum.
    { apply sumOf_nonneg. eapply Forall_impl; [exact Hcs|]. intros x Hx. apply Hx. }
    unfold DocRenderNode.childConverts.
    cbn [BlockRenderNode.convertSelectableOffsetToModelOffset
         BlockRenderNode.getSelectableSize BlockRenderNode.getModelSize
         RenderTree.asBlockRenderNode].
    rewrite structural_getSelectableSize, structural_getModelSize.
    split; [lia|].
    intros s Hs.
    destruct (convertLoop_in_range cs Hcs 0 1 s) as (m & Hm & Hrange & Hmono).
    { cbn [BlockRenderNode.getSelectableSize RenderTree.asBlockRenderNode]. lia. }
    cbn [BlockRenderNode.getSelectableSize BlockRenderNode.getModelSize
         RenderTree.asBlockRenderNode] in *.
    exists m. rewrite structural_convert. split; [exact Hm|]. split; [lia|].
    intros s' Hs'. rewrite structural_convert. apply Hmono. lia.
Qed.

End RenderTreeFacts.

(** ** Instances on sample documents *)

Lemma sizes_hold_after_every_operation_witness :
  DocRenderNode.cacheCoherent Samples.emptyDocNode /\
  let n := DocRenderNode.run Samples.docNodeOps Samples.emptyDocNode in
  fst (DocRenderNode.getSelectableSize n)
  = sumOf BlockRenderNode.getSelectableSize (DocRenderNode.getChildren n) /\
  fst (DocRenderNode.getModelSize n)
  = 2 + sumOf BlockRenderNode.getModelSize (DocRenderNode.getChildren n) /\
  forall o n', DocRenderNode.isMutation o = true ->
               DocRenderNode.step o n = Ok n' ->
               DocRenderNode.selectableSize n' = None /\
               DocRenderNode.modelSize n' = None.
Proof.
  assert (DocRenderNode.cacheCoherent Samples.emptyDocNode) as Hc
      by (split; intros x Hx; discriminate Hx).
  split; [exact Hc|].
  exact (sizes_hold_after_every_operation Samples.emptyDocNode Samples.docNodeOps Hc).
Defined.

Example docNodeOps_result :
  let n := DocRenderNode.run Samples.docNodeOps Samples.emptyDocNode in
  map RenderTree.objectId (DocRenderNode.getChildren n) = [4%nat] /\
  DocRenderNode.getSelectableSize n
  = (3, @DocRenderNode.mk RenderTree.node "doc2"%string 0 800 600 20
          (DocRenderNode.getChildren n) (Some 3) None).
Proof. vm_compute. split; reflexivity. Qed.

Lemma docNode_children_convert :
  Forall DocRenderNode.childConverts (DocRenderNode.getChildren Samples.docNode).
Proof.
  repeat constructor; apply wellFormed_childConverts; vm_compute; intuition discriminate.
Qed.

Lemma convertSelectableOffsetToModelOffset_witness :
  DocRenderNode.cacheCoherent Samples.docNode /\
  Forall DocRenderNode.childConverts (DocRenderNode.getChildren Samples.docNode) /\
  0 <= 5 < fst (DocRenderNode.getSelectableSize Samples.docNode) /\
  exists m,
    DocRenderNode.convertSelectableOffsetToModelOffset Samples.docNode 5 = Ok m /\
    1 <= m < fst (DocRenderNode.getModelSize Samples.docNode) - 1 /\
    forall s', 5 < s' < fst (DocRenderNode.getSelectableSize Samples.docNode) ->
      exists m',
        DocRenderNode.convertSelectableOffsetToModelOffset Samples.docNode s' = Ok m' /\
        m < m'.
Proof.
  assert (DocRenderNode.cacheCoherent Samples.docNode) as Hc
      by (split; intros x Hx; discriminate Hx).
  assert (0 <= 5 < fst (DocRenderNode.getSelectableSize Samples.docNode)) as Hs
      by (vm_compute; split; [discriminate | reflexivity]).
  split; [exact Hc|]. split; [exact docNode_children_convert|]. split; [exact Hs|].
  exact (convertSelectableOffsetToModelOffset_total_increasing_bounded
           Samples.docNode 5 Hc docNode_children_convert Hs).
Defined.

Example docNode_conversions :
  map (DocRenderNode.convertSelectableOffsetToModelOffset Samples.docNode)
      [0; 4; 5; 7; 8]
  = [Ok 3; Ok 7; Ok 12; Ok 14; Throw (SelectableOffsetOutOfRange 8)] /\
  DocRenderNode.getModelSize (DocRenderNode.clearCache Samples.docNode)
  = (18, @DocRenderNode.mk RenderTree.node "doc"%string 0 0 0 0
           (DocRenderNode.getChildren Samples.docNode) None (Some 18)).
Proof. vm_compute. split; reflexivity. Qed.

(** ** Order facts of binary64 addition

    Adding two doubles that are not below zero gives a double that is not
    below either of them: rounding to nearest never goes below a double
    that the exact sum reaches.  The facts are proved on the specification
    of the operations ([SpecFloat]) and carried to the primitive doubles. *)

Section Binary64.

Local Abbreviation digits m := (Zpos (digits2_pos m)).
Local Abbreviation fexp64 := (fexp prec emax).

Lemma digits2_pos_size (m : positive) : digits2_pos m = Pos.size m.
Proof. induction m as [m IH|m IH|]; cbn; rewrite ?IH; reflexivity. Qed.

Lemma digits_bounds (m : positive) :
  2 ^ (digits m - 1) <= Zpos m < 2 ^ digits m.
Proof.
  rewrite digits2_pos_size. split.
  - pose proof (Pos.size_le m) as H.
    assert (Zpos (2 ^ Pos.size m) <= Zpos m~0) as H' by exact H.
    rewrite Pos2Z.inj_pow in H'.
    replace (Zpos (Pos.size m)) with (Z.succ (Zpos (Pos.size m) - 1)) in H' by lia.
    rewrite Z.pow_succ_r in H' by lia. lia.
  - pose proof (Pos.size_gt m) as H.
    assert (Zpos m < Zpos (2 ^ Pos.size m)) as H' by exact H.
    rewrite Pos2Z.inj_pow in H'. exact H'.
Qed.

Lemma digits_shifted (m1 m2 : positive) (k : Z) :
  0 <= k -> Zpos m1 * 2 ^ k <= Zpos m2 -> digits m1 + k <= digits m2.
Proof.
  intros Hk Hle.
  destruct (Z_le_gt_dec (digits m1 + k) (digits m2)) as [H|H]; [exact H|exfalso].
  pose proof (digits_bounds m1) as [H1 _]. pose proof (digits_bounds m2) as [_ H2].
  assert (2 ^ digits m2 <= 2 ^ (digits m1 - 1 + k)) as Hpow
      by (apply Z.pow_le_mono_r; lia).
  rewrite Z.pow_add_r in Hpow by lia.
  assert (0 < 2 ^ k) by (apply Z.pow_pos_nonneg; lia).
  nia.
Qed.

Lemma fexp64_mono (a b : Z) : a <= b -> fexp64 a <= fexp64 b.
Proof. unfold fexp, SpecFloat.emin. cbn. lia. Qed.

Lemma fexp64_value (a : Z) : fexp64 a = Z.max (a - 53) (-1074).
Proof. reflexivity. Qed.

Lemma shr_1_m (mrs : shr_record) :
  0 <= shr_m mrs -> shr_m (shr_1 mrs) = shr_m mrs / 2.
Proof.
  destruct mrs as [m r s]. cbn [shr_m]. intros Hm.
  destruct m as [|p|p]; [reflexivity| |lia].
  destruct p as [p|p|]; cbn [shr_1 shr_m].
  - rewrite Pos2Z.inj_xI. apply Z.div_unique with (r := 1); lia.
  - rewrite Pos2Z.inj_xO. apply Z.div_unique with (r := 0); lia.
  - reflexivity.
Qed.

Lemma iter_shr_1_m (p : positive) :
  forall mrs, 0 <= shr_m mrs ->
              shr_m (SpecFloat.iter_pos shr_1 p mrs) = shr_m mrs / 2 ^ Zpos p.
Proof.
  induction p as [p IH|p IH|]; intros mrs Hm; cbn [SpecFloat.iter_pos].
  - assert (0 <= shr_m (shr_1 mrs)) as H1
        by (rewrite shr_1_m by exact Hm; apply Z.div_pos; lia).
    assert (0 <= shr_m (SpecFloat.iter_pos shr_1 p (shr_1 mrs))) as H2
        by (rewrite IH by exact H1; apply Z.div_pos; [exact H1|];
            apply Z.pow_pos_nonneg; lia).
    rewrite IH by exact H2. rewrite IH by exact H1. rewrite shr_1_m by exact Hm.
    rewrite !Z.div_div by (try apply Z.pow_pos_nonneg; lia).
    f_equal. assert (Zpos p~1 = 1 + Zpos p + Zpos p) as -> by lia.
    rewrite !Z.pow_add_r by lia. lia.
  - assert (0 <= shr_m (SpecFloat.iter_pos shr_1 p mrs)) as H2
        by (rewrite IH by exact Hm; apply Z.div_pos; [exact Hm|];
            apply Z.pow_pos_nonneg; lia).
    rewrite IH by exact H2. rewrite IH by exact Hm.
    rewrite !Z.div_div by (try apply Z.pow_pos_nonneg; lia).
    f_equal. assert (Zpos p~0 = Zpos p + Zpos p) as -> by lia.
    rewrite !Z.pow_add_r by lia. lia.
  - rewrite shr_1_m by exact Hm. reflexivity.
Qed.

(** Shifting to the exponent of the format: the mantissa is divided, the
    exponent is the larger of the two. *)
Lemma shr_fexp_value (m : positive) (e : Z) (l : location) :
  let e' := Z.max e (fexp64 (digits m + e)) in
  snd (shr_fexp prec emax (Zpos m) e l) = e' /\
  shr_m (fst (shr_fexp prec emax (Zpos m) e l)) = Zpos m / 2 ^ (e' - e).
Proof.
  intros e'. unfold shr_fexp, shr. cbn [Zdigits2].
  assert (shr_m (shr_record_of_loc (Zpos m) l) = Zpos m) as Hm
      by (destruct l as [|[]]; reflexivity).
  destruct (fexp64 (digits m + e) - e) as [|n|n] eqn:Hn; cbn [fst snd].
  - subst e'. split; [lia|]. rewrite Hm.
    replace (Z.max e (fexp64 (digits m + e)) - e) with 0 by lia.
    rewrite Z.pow_0_r, Z.div_1_r. reflexivity.
  - subst e'. split; [lia|]. rewrite iter_shr_1_m by (rewrite Hm; lia).
    rewrite Hm. f_equal. f_equal. lia.
  - subst e'. split; [lia|]. rewrite Hm.
    replace (Z.max e (fexp64 (digits m + e)) - e) with 0 by lia.
    rewrite Z.pow_0_r, Z.div_1_r. reflexivity.
Qed.

Lemma round_nearest_even_ge (m : Z) (l : location) : m <= round_nearest_even m l.
Proof. destruct l as [|[]]; cbn; try lia. destruct (Z.even m); lia. Qed.

(** Rounding a positive number that is at least a representable number
    gives at least that number. *)
Lemma binary_round_aux_ge (mz : positive) (ez : Z) (my : positive) (ey : Z) :
  bounded prec emax my ey = true ->
  -1074 <= ez <= ey ->
  Zpos my * 2 ^ (ey - ez) <= Zpos mz ->
  SFleb (S754_finite false my ey)
        (binary_round_aux prec emax false (Zpos mz) ez loc_Exact) = true.
Proof.
  intros Hvalid Hez Hle.
  unfold bounded, canonical_mantissa in Hvalid.
  apply andb_true_iff in Hvalid as [Hcanon _]. apply Z.eqb_eq in Hcanon.
  pose proof (digits_shifted my mz (ey - ez) ltac:(lia) Hle) as Hdigits.
  pose proof (fexp64_mono (digits my + ey) (digits mz + ez) ltac:(lia)) as Hfexp.
  rewrite Hcanon in Hfexp.
  unfold binary_round_aux.
  destruct (shr_fexp_value mz ez loc_Exact) as [He1 Hq1].
  destruct (shr_fexp prec emax (Zpos mz) ez loc_Exact) as [mrs1 e1].
  cbn [fst snd] in He1, Hq1. rewrite <- He1 in Hq1.
  set (r1 := round_nearest_even (shr_m mrs1) (loc_of_shr_record mrs1)).
  assert (e1 = fexp64 (digits mz + ez)) as He1' by lia.
  assert (0 < 2 ^ (e1 - ez)) as Hpow1 by (apply Z.pow_pos_nonneg; lia).
  assert (1 <= shr_m mrs1) as Hq1pos.
  { rewrite Hq1. apply Z.div_le_lower_bound; [exact Hpow1|].
    rewrite Z.mul_1_r. pose proof (digits_bounds mz) as [Hlow _].
    eapply Z.le_trans; [|exact Hlow].
    apply Z.pow_le_mono_r; [lia|]. rewrite He1', fexp64_value. lia. }
  assert (shr_m mrs1 <= r1) as Hm1 by apply round_nearest_even_ge.
  destruct r1 as [|m1|m1] eqn:Em1; [lia| |lia].
  destruct (shr_fexp_value m1 e1 loc_Exact) as [He2 Hq2].
  destruct (shr_fexp prec emax (Zpos m1) e1 loc_Exact) as [mrs2 e2].
  cbn [fst snd] in He2, Hq2. rewrite <- He2 in Hq2.
  assert (0 < 2 ^ (e2 - e1)) as Hpow2 by (apply Z.pow_pos_nonneg; lia).
  assert (1 <= shr_m mrs2) as Hq2pos.
  { rewrite Hq2. apply Z.div_le_lower_bound; [exact Hpow2|].
    rewrite Z.mul_1_r. pose proof (digits_bounds m1) as [Hlow _].
    eapply Z.le_trans; [|exact Hlow].
    apply Z.pow_le_mono_r; [lia|]. rewrite He2, fexp64_value. lia. }
  destruct (shr_m mrs2) as [|m2|m2] eqn:Em2; [lia| |lia].
  destruct (e2 <=? emax - prec); [|reflexivity].
  unfold SFleb, SFcompare.
  destruct (Z.compare_spec ey e2) as [Heq|Hlt|Hgt]; [|reflexivity|lia].
  assert (e2 = e1) as -> by lia.
  rewrite Z.sub_diag, Z.pow_0_r, Z.div_1_r in Hq2. injection Hq2 as ->.
  assert (Zpos my <= Zpos m1) as Hmant.
  { eapply Z.le_trans; [|exact Hm1]. rewrite Hq1.
    apply Z.div_le_lower_bound; [exact Hpow1|]. subst e1. rewrite <- Heq. lia. }
  change (Pos.compare_cont Eq my m1) with (Pos.compare my m1).
  destruct (Pos.compare_spec my m1); [reflexivity | reflexivity | lia].
Qed.

Lemma pos_iter_xO (m d : positive) : Zpos (Pos.iter xO m d) = Zpos m * 2 ^ Zpos d.
Proof.
  induction d as [|d IH] using Pos.peano_ind.
  - cbn. lia.
  - rewrite Pos.iter_succ, Pos2Z.inj_xO, IH, Pos2Z.inj_succ, Z.pow_succ_r by lia. lia.
Qed.

Lemma shl_align_value (m : positive) (e e' : Z) :
  e' <= e ->
  Zpos (fst (shl_align m e e')) = Zpos m * 2 ^ (e - e').
Proof.
  intros Hle. unfold shl_align.
  destruct (e' - e) as [|d|d] eqn:Hd; cbn [fst].
  - replace (e - e') with 0 by lia. lia.
  - lia.
  - rewrite pos_iter_xO. f_equal. f_equal. lia.
Qed.

Lemma shl_align_same (m : positive) (e e' : Z) :
  e <= e' -> shl_align m e e' = (m, e).
Proof.
  intros Hle. unfold shl_align. destruct (e' - e) as [|d|d] eqn:Hd; [reflexivity..|lia].
Qed.

Lemma bounded_exponent (m : positive) (e : Z) :
  bounded prec emax m e = true -> fexp64 (digits m + e) = e /\ -1074 <= e.
Proof.
  unfold bounded, canonical_mantissa. intros H.
  apply andb_true_iff in H as [H _]. apply Z.eqb_eq in H.
  split; [exact H|]. rewrite fexp64_value in H. lia.
Qed.

(** The sum of two positive doubles is at least each of them. *)
Lemma SFadd_finite_ge (mx : positive) (ex : Z) (my : positive) (ey : Z) :
  bounded prec emax mx ex = true -> bounded prec emax my ey = true ->
  SFleb (S754_finite false mx ex)
        (SF64add (S754_finite false mx ex) (S754_finite false my ey)) = true /\
  SFleb (S754_finite false my ey)
        (SF64add (S754_finite false mx ex) (S754_finite false my ey)) = true.
Proof.
  intros Hx Hy.
  destruct (bounded_exponent mx ex Hx) as [Hcx Hex].
  destruct (bounded_exponent my ey Hy) as [Hcy Hey].
  unfold SF64add, SFadd. cbn [cond_Zopp].
  set (ez := Z.min ex ey).
  pose proof (shl_align_value mx ex ez ltac:(lia)) as Ha.
  pose proof (shl_align_value my ey ez ltac:(lia)) as Hb.
  set (a := fst (shl_align mx ex ez)) in *.
  set (b := fst (shl_align my ey ez)) in *.
  change (Zpos a + Zpos b) with (Zpos (a + b)).
  cbn [binary_normalize]. unfold binary_round.
  assert (0 < 2 ^ (ex - ez)) by (apply Z.pow_pos_nonneg; lia).
  assert (0 < 2 ^ (ey - ez)) by (apply Z.pow_pos_nonneg; lia).
  assert (Zpos mx * 2 ^ (ex - ez) <= Zpos (a + b)) as Hxle by lia.
  assert (Zpos my * 2 ^ (ey - ez) <= Zpos (a + b)) as Hyle by lia.
  pose proof (digits_shifted mx (a + b) (ex - ez) ltac:(lia) Hxle) as Hd.
  pose proof (fexp64_mono (digits mx + ex) (digits (a + b) + ez) ltac:(lia)) as Hf.
  rewrite Hcx in Hf.
  rewrite shl_align_same by lia.
  split; apply binary_round_aux_ge; try assumption; lia.
Qed.

Lemma SFleb_zero (x : spec_float) : SFleb (S754_zero false) x = Number.specNonneg x.
Proof. destruct x as [[]|[]| |[] m e]; reflexivity. Qed.

Lemma SFleb_refl_finite (m : positive) (e : Z) :
  SFleb (S754_finite false m e) (S754_finite false m e) = true.
Proof.
  unfold SFleb, SFcompare. rewrite Z.compare_refl.
  change (Pos.compare_cont Eq m m) with (Pos.compare m m).
  rewrite Pos.compare_refl. reflexivity.
Qed.

(** Adding two doubles that are not below zero gives at least each. *)
Lemma SFadd_nonneg_ge (x y : spec_float) :
  valid_binary x = true -> valid_binary y = true ->
  Number.specNonneg x = true -> Number.specNonneg y = true ->
  SFleb x (SF64add x y) = true /\ SFleb y (SF64add x y) = true.
Proof.
  intros Hvx Hvy Hx Hy.
  destruct x as [sx|[]| |[] mx ex]; try discriminate Hx;
    destruct y as [sy|[]| |[] my ey]; try discriminate Hy;
    try (split; reflexivity).
  - destruct sx, sy; split; reflexivity.
  - split; [reflexivity | apply SFleb_refl_finite].
  - split; [apply SFleb_refl_finite | reflexivity].
  - apply SFadd_finite_ge; assumption.
Qed.

Ltac compare_cases :=
  change Pos.compare_cont with (fun c a b => Pos.compare_cont c a b) in *;
  cbn beta in *;
  repeat match goal with
         | H : context [Pos.compare_cont Eq ?a ?b] |- _ =>
             change (Pos.compare_cont Eq a b) with (Pos.compare a b) in H
         | |- context [Pos.compare_cont Eq ?a ?b] =>
             change (Pos.compare_cont Eq a b) with (Pos.compare a b)
         end;
  repeat match goal with
         | H : context [Z.compare ?a ?b] |- _ =>
             destruct (Z.compare_spec a b); try discriminate H
         | |- context [Z.compare ?a ?b] => destruct (Z.compare_spec a b)
         | H : context [Pos.compare ?a ?b] |- _ =>
             destruct (Pos.compare_spec a b); try discriminate H
         | |- context [Pos.compare ?a ?b] => destruct (Pos.compare_spec a b)
         end;
  subst; try reflexivity; try discriminate; try lia.

Lemma SFltb_leb_trans (l x y : spec_float) :
  SFltb l x = true -> SFleb x y = true -> SFltb l y = true.
Proof.
  unfold SFltb, SFleb, SFcompare.
  destruct l as [[]|[]| |[] ml el], x as [[]|[]| |[] mx ex], y as [[]|[]| |[] my ey];
    intros H1 H2; try discriminate H1; try discriminate H2; try reflexivity;
    compare_cases.
Qed.

Lemma SFleb_trans (x y z : spec_float) :
  SFleb x y = true -> SFleb y z = true -> SFleb x z = true.
Proof.
  unfold SFleb, SFcompare.
  destruct x as [[]|[]| |[] mx ex], y as [[]|[]| |[] my ey], z as [[]|[]| |[] mz ez];
    intros H1 H2; try discriminate H1; try discriminate H2; try reflexivity;
    compare_cases.
Qed.



(** Between two positive doubles the one with the smaller exponent, or
    with the same exponent and the smaller mantissa, has the smaller
    value. *)
Lemma finite_units_lt (m1 : positive) (e1 : Z) (m2 : positive) (e2 : Z) :
  bounded prec emax m1 e1 = true -> bounded prec emax m2 e2 = true ->
  e1 < e2 \/ (e1 = e2 /\ Zpos m1 < Zpos m2) ->
  Zpos m1 * 2 ^ (e1 + 1074) < Zpos m2 * 2 ^ (e2 + 1074).
Proof.
  intros H1 H2 Hlt.
  destruct (bounded_exponent m1 e1 H1) as [Hc1 He1].
  destruct (bounded_exponent m2 e2 H2) as [Hc2 He2].
  assert (0 < 2 ^ (e1 + 1074)) as Hp1 by (apply Z.pow_pos_nonneg; lia).
  destruct Hlt as [Hlt | [-> Hlt]]; [|nia].
  rewrite fexp64_value in Hc1, Hc2.
  pose proof (digits_bounds m1) as [_ Hm1]. pose proof (digits_bounds m2) as [Hm2 _].
  assert (digits m2 = 53) as Hd2 by lia. rewrite Hd2 in Hm2.
  assert (2 ^ digits m1 <= 2 ^ 53) as Hd1 by (apply Z.pow_le_mono_r; lia).
  assert (2 * 2 ^ (e1 + 1074) <= 2 ^ (e2 + 1074)) as Hstep.
  { rewrite <- Z.pow_succ_r by lia. apply Z.pow_le_mono_r; lia. }
  change (2 ^ (53 - 1)) with 4503599627370496 in Hm2.
  change (2 ^ 53) with 9007199254740992 in Hd1.
  nia.
Qed.

Lemma SFltb_units (x y : spec_float) (u v : Z) :
  valid_binary x = true -> valid_binary y = true ->
  SFltb x y = true -> Number.specUnits x = Some u -> Number.specUnits y = Some v -> u < v.
Proof.
  intros Hx Hy Hlt Hu Hv.
  destruct x as [sx|sx| |sx mx ex]; try discriminate Hu;
    destruct y as [sy|sy| |sy my ey]; try discriminate Hv;
    cbn [Number.specUnits] in Hu, Hv; injection Hu as <-; injection Hv as <-;
    cbn [valid_binary] in Hx, Hy.
  - discriminate Hlt.
  - destruct (bounded_exponent my ey Hy) as [_ He].
    assert (0 < 2 ^ (ey + 1074)) by (apply Z.pow_pos_nonneg; lia).
    destruct sy; [discriminate Hlt|]. cbn [cond_Zopp]. nia.
  - destruct (bounded_exponent mx ex Hx) as [_ He].
    assert (0 < 2 ^ (ex + 1074)) by (apply Z.pow_pos_nonneg; lia).
    destruct sx; [|discriminate Hlt]. cbn [cond_Zopp]. nia.
  - destruct (bounded_exponent mx ex Hx) as [_ Hex].
    destruct (bounded_exponent my ey Hy) as [_ Hey].
    assert (0 < 2 ^ (ex + 1074)) by (apply Z.pow_pos_nonneg; lia).
    assert (0 < 2 ^ (ey + 1074)) by (apply Z.pow_pos_nonneg; lia).
    unfold SFltb, SFcompare in Hlt.
    change (Pos.compare_cont Eq mx my) with (Pos.compare mx my) in Hlt.
    destruct sx, sy; cbn [cond_Zopp].
    + assert (Zpos my * 2 ^ (ey + 1074) < Zpos mx * 2 ^ (ex + 1074)); [|lia].
      apply finite_units_lt; try assumption.
      destruct (Z.compare_spec ex ey) as [Heq|Hl|Hg]; try discriminate Hlt.
      * right. split; [lia|].
        destruct (Pos.compare_spec mx my); try discriminate Hlt. lia.
      * left. lia.
    + nia.
    + discriminate Hlt.
    + apply finite_units_lt; try assumption.
      destruct (Z.compare_spec ex ey) as [Heq|Hl|Hg]; try discriminate Hlt.
      * right. split; [lia|].
        destruct (Pos.compare_spec mx my); try discriminate Hlt. lia.
      * left. lia.
Qed.

Lemma SFnot_ltb_units (x y : spec_float) (u v : Z) :
  valid_binary x = true -> valid_binary y = true ->
  SFltb y x = false ->
  Number.specUnits x = Some u -> Number.specUnits y = Some v -> u <= v.
Proof.
  intros Hx Hy Hnot Hu Hv.
  destruct (SFltb x y) eqn:Hlt.
  - pose proof (SFltb_units x y u v Hx Hy Hlt Hu Hv). lia.
  - assert (u = v); [|lia].
    unfold SFltb, SFcompare in Hnot, Hlt.
    destruct x as [sx|sx| |sx mx ex]; try discriminate Hu;
      destruct y as [sy|sy| |sy my ey]; try discriminate Hv;
      cbn [Number.specUnits] in Hu, Hv; injection Hu as <-; injection Hv as <-.
    + reflexivity.
    + destruct sy; discriminate.
    + destruct sx; discriminate.
    + change (Pos.compare_cont Eq mx my) with (Pos.compare mx my) in Hlt.
      change (Pos.compare_cont Eq my mx) with (Pos.compare my mx) in Hnot.
      rewrite (Z.compare_antisym ex ey), (Pos.compare_antisym mx my) in Hnot.
      destruct sx, sy; try discriminate;
        destruct (Z.compare_spec ex ey); try discriminate;
        destruct (Pos.compare_spec mx my); try discriminate; subst; reflexivity.
Qed.

Lemma SFltb_zero_add (l h : spec_float) :
  SFltb l (SF64add (S754_zero false) h) = SFltb l h.
Proof.
  destruct h as [[]|[]| |[] mh eh]; try reflexivity;
    destruct l as [[]|[]| |[] ml el]; reflexivity.
Qed.

End Binary64.

(** ** The same facts on the primitive doubles *)

Lemma Prim2SF_zero : Prim2SF 0%float = S754_zero false.
Proof. reflexivity. Qed.

Lemma float_add_nonneg_ge (a b : float) :
  (0 <=? a)%float = true -> (0 <=? b)%float = true ->
  (a <=? a + b)%float = true /\ (b <=? a + b)%float = true /\
  (0 <=? a + b)%float = true.
Proof.
  rewrite !leb_spec, add_spec, Prim2SF_zero, !SFleb_zero. intros Ha Hb.
  destruct (SFadd_nonneg_ge (Prim2SF a) (Prim2SF b)
              (Prim2SF_valid a) (Prim2SF_valid b) Ha Hb) as [H1 H2].
  split; [exact H1|]. split; [exact H2|].
  rewrite <- SFleb_zero. eapply SFleb_trans; [|exact H1].
  rewrite SFleb_zero. exact Ha.
Qed.

Lemma float_ltb_leb_trans (l x y : float) :
  (l <? x)%float = true -> (x <=? y)%float = true -> (l <? y)%float = true.
Proof. rewrite !ltb_spec, leb_spec. apply SFltb_leb_trans. Qed.

Lemma float_leb_trans (x y z : float) :
  (x <=? y)%float = true -> (y <=? z)%float = true -> (x <=? z)%float = true.
Proof. rewrite !leb_spec. apply SFleb_trans. Qed.




(** A double that is not above another has no larger exact value. *)
Lemma float_not_ltb_units (x y : float) (u v : Z) :
  (y <? x)%float = false ->
  Number.exactUnits x = Some u -> Number.exactUnits y = Some v -> u <= v.
Proof.
  unfold Number.exactUnits. rewrite ltb_spec.
  apply SFnot_ltb_units; apply Prim2SF_valid.
Qed.

Lemma float_ltb_zero_add (l h : float) :
  (l <? 0 + h)%float = (l <? h)%float.
Proof. rewrite !ltb_spec, add_spec, Prim2SF_zero. apply SFltb_zero_add. Qed.

Lemma float_leb_refl_nonneg (a : float) :
  (0 <=? a)%float = true -> (a <=? a)%float = true.
Proof.
  rewrite !leb_spec, Prim2SF_zero, SFleb_zero.
  destruct (Prim2SF a) as [[]|[]| |[] m e]; intros H; try discriminate H;
    try reflexivity. apply SFleb_refl_finite.
Qed.

(** ** Running sums *)

Lemma runningSum_snoc (ws : list Number.t) (w : Number.t) :
  Number.runningSum (ws ++ [w]) = (Number.runningSum ws + w)%float.
Proof. unfold Number.runningSum. rewrite fold_left_app. reflexivity. Qed.

Lemma gt_zero_add (h limit : Number.t) :
  Number.gt (0 + h)%float limit = Number.gt h limit.
Proof. unfold Number.gt. apply float_ltb_zero_add. Qed.

(** The running sum of numbers that are not below zero is not below zero
    and not below any of them. *)
Lemma runningSum_ge_each (ws : list Number.t) :
  Forall (fun w => (0 <=? w)%float = true) ws ->
  (0 <=? Number.runningSum ws)%float = true /\
  Forall (fun w => (w <=? Number.runningSum ws)%float = true) ws.
Proof.
  induction ws as [|w ws IH] using rev_ind; intros Hall.
  - split; [reflexivity | constructor].
  - apply Forall_app in Hall as [Hws Hw]. apply Forall_cons in Hw as [Hw _].
    destruct (IH Hws) as [Hsum Heach]. rewrite runningSum_snoc.
    destruct (float_add_nonneg_ge (Number.runningSum ws) w Hsum Hw)
      as (Hleft & Hright & Hzero).
    split; [exact Hzero|]. apply Forall_app. split.
    + eapply Forall_impl; [exact Heach|]. intros x Hx. cbn beta in *.
      eapply float_leb_trans; [exact Hx | exact Hleft].
    + constructor; [exact Hright | constructor].
Qed.

(** ** Line breaking *)

Lemma alter_last {A : Type} (f : A -> A) (prev : list A) (cur : A) :
  alter f (length prev) (prev ++ [cur]) = prev ++ [f cur].
Proof.
  rewrite alter_app_r_alt by reflexivity. rewrite Nat.sub_diag. reflexivity.
Qed.

Lemma widthOnLine_appendBoxView (b : DocumentView.BoxView)
      (cur : DocumentView.LineView) :
  widthOnLine (DocumentView.appendBoxView b cur)
  = (widthOnLine cur + DocumentView.boxGetWidth b)%float.
Proof.
  unfold widthOnLine. cbn [DocumentView.appendBoxView DocumentView.getBoxViews].
  rewrite map_app. apply runningSum_snoc.
Qed.

Section LineBreaking.

Variable config : DocumentView.DocumentViewConfig.

Local Abbreviation limit := (DocumentView.pageContentWidth config).







End LineBreaking.

(** ** Pagination *)

Lemma heightOnPage_appendLineView (lineGetHeight : DocumentView.LineView -> Number.t)
      (l : DocumentView.LineView) (cur : DocumentView.PageView) :
  heightOnPage lineGetHeight (DocumentView.appendLineView l cur)
  = (heightOnPage lineGetHeight cur + lineGetHeight l)%float.
Proof.
  unfold heightOnPage. cbn [DocumentView.appendLineView DocumentView.getLineViews].
  rewrite map_app. apply runningSum_snoc.
Qed.

Lemma pageWithMore_nil (page : DocumentView.PageView) : pageWithMore page [] = page.
Proof. destruct page. unfold pageWithMore. cbn. rewrite app_nil_r. reflexivity. Qed.

Section PaginationFacts.

Variable lineGetHeight : DocumentView.LineView -> Number.t.
Variable config : DocumentView.DocumentViewConfig.

Local Abbreviation limit := (DocumentView.pageContentHeight config).
Local Abbreviation heightOf := (heightOnPage lineGetHeight).
Local Abbreviation inv := (pageBuildInv lineGetHeight config).

Lemma pushPageView_inv :
  inv (DocumentView.pushPageView config []) [] (DocumentView.newPageView config) [].
Proof.
  repeat split.
  - constructor; [left; reflexivity | constructor].
  - intros [|i] page Hi Hne; [congruence | discriminate Hi].
Qed.

Lemma placeLineView_inv st prev cur seen l :
  inv st prev cur seen ->
  exists prev' cur',
    inv (DocumentView.placeLineView lineGetHeight config st l) prev' cur' (seen ++ [l]).
Proof.
  intros (Hp & Hi & Hc & Hall & Hne & Hseen).
  unfold DocumentView.placeLineView.
  destruct (Number.gt (DocumentView.cumulatedHeight st + lineGetHeight l)%float limit)
    eqn:Hover.
  - exists (prev ++ [cur]),
           (DocumentView.appendLineView l (DocumentView.newPageView config)).
    cbn [DocumentView.pushPageView DocumentView.pageViews DocumentView.pageView
         DocumentView.cumulatedHeight].
    rewrite Hp. split; [apply alter_last|]. split; [reflexivity|].
    split; [reflexivity|].
    split; [|split].
    + apply Forall_app. split; [exact Hall|]. constructor; [|constructor].
      destruct (Number.gt (lineGetHeight l) limit) eqn:Htall.
      * right. right. exists l. split; [reflexivity | exact Htall].
      * right. left. rewrite <- Htall. apply gt_zero_add.
    + intros i page Hlook Hi0.
      destruct (decide (i < length (prev ++ [cur]))%nat) as [Hlt|Hge].
      * rewrite lookup_app_l in Hlook by exact Hlt. eapply Hne; eassumption.
      * rewrite lookup_app_r in Hlook by lia.
        destruct (i - length (prev ++ [cur]))%nat; [|discriminate Hlook].
        injection Hlook as <-. discriminate.
    + rewrite map_app, concat_app, Hseen. cbn. reflexivity.
  - exists prev, (DocumentView.appendLineView l cur).
    cbn [DocumentView.pageViews DocumentView.pageView DocumentView.cumulatedHeight].
    rewrite Hp, Hi. split; [apply alter_last|]. split; [reflexivity|].
    split; [rewrite Hc; symmetry; apply heightOnPage_appendLineView|].
    apply Forall_app in Hall as [Hprev _].
    split; [|split].
    + apply Forall_app. split; [exact Hprev|]. constructor; [|constructor].
      right. left. rewrite heightOnPage_appendLineView, <- Hc. exact Hover.
    + intros i page Hlook Hi0.
      destruct (decide (i < length prev)%nat) as [Hlt|Hge].
      * rewrite lookup_app_l in Hlook by exact Hlt.
        apply (Hne i page); [|exact Hi0]. rewrite lookup_app_l by exact Hlt. exact Hlook.
      * rewrite lookup_app_r in Hlook by lia.
        destruct (i - length prev)%nat; [|discriminate Hlook].
        injection Hlook as <-. cbn. intros Habs. apply app_eq_nil in Habs as [_ Habs].
        discriminate Habs.
    + rewrite map_app, concat_app in Hseen |- *. cbn in Hseen |- *.
      rewrite !app_nil_r in *. rewrite app_assoc, Hseen. reflexivity.
Qed.

Lemma fold_placeLineView_inv (ls : list DocumentView.LineView) st prev cur seen :
  inv st prev cur seen ->
  exists prev' cur',
    inv (fold_left (DocumentView.placeLineView lineGetHeight config) ls st)
        prev' cur' (seen ++ ls).
Proof.
  revert st prev cur seen. induction ls as [|l ls IH]; intros st prev cur seen Hinv.
  - exists prev, cur. rewrite app_nil_r. exact Hinv.
  - cbn [fold_left].
    destruct (placeLineView_inv st prev cur seen l Hinv) as (prev' & cur' & Hinv').
    destruct (IH _ _ _ _ Hinv') as (prev'' & cur'' & Hinv'').
    exists prev'', cur''. rewrite <- app_assoc in Hinv''. exact Hinv''.
Qed.

(** The pages before the current one are never touched again, and the
    current page only receives lines at its end. *)
Lemma fold_placeLineView_keeps_pages (ls : list DocumentView.LineView) :
  forall st prev cur,
    DocumentView.pageViews st = prev ++ [cur] ->
    DocumentView.pageView st = length prev ->
    exists more later,
      DocumentView.pageViews
        (fold_left (DocumentView.placeLineView lineGetHeight config) ls st)
      = prev ++ pageWithMore cur more :: later.
Proof.
  induction ls as [|l ls IH]; intros st prev cur Hp Hi.
  - exists [], []. cbn [fold_left]. rewrite pageWithMore_nil. exact Hp.
  - cbn [fold_left].
    set (st' := DocumentView.placeLineView lineGetHeight config st l).
    destruct (Number.gt (DocumentView.cumulatedHeight st + lineGetHeight l)%float limit)
      eqn:Hover.
    + destruct (IH st' (prev ++ [cur])
                   (DocumentView.appendLineView l (DocumentView.newPageView config)))
        as (more & later & Hfold).
      * unfold st', DocumentView.placeLineView. rewrite Hover.
        cbn [DocumentView.pushPageView DocumentView.pageViews DocumentView.pageView].
        rewrite Hp. apply alter_last.
      * unfold st', DocumentView.placeLineView. rewrite Hover.
        cbn [DocumentView.pushPageView DocumentView.pageView]. rewrite Hp. reflexivity.
      * exists [], (pageWithMore
                      (DocumentView.appendLineView l (DocumentView.newPageView config))
                      more :: later).
        rewrite Hfold, pageWithMore_nil, <- app_assoc. reflexivity.
    + destruct (IH st' prev (DocumentView.appendLineView l cur))
        as (more & later & Hfold).
      * unfold st', DocumentView.placeLineView. rewrite Hover.
        cbn [DocumentView.pageViews DocumentView.pageView]. rewrite Hp, Hi.
        apply alter_last.
      * unfold st', DocumentView.placeLineView. rewrite Hover.
        cbn [DocumentView.pageView]. exact Hi.
      * exists (l :: more), later. rewrite Hfold. unfold pageWithMore.
        cbn [DocumentView.appendLineView DocumentView.getLineViews
             DocumentView.pageConfig].
        rewrite <- app_assoc. reflexivity.
Qed.

(** What the first page holds: nothing when there is no line or when the
    first line is too tall on its own, and otherwise the first line,
    followed by the lines that joined it. *)
Lemma buildPageViews_first_page (lineViews : list DocumentView.LineView) :
  exists first rest,
    DocumentView.buildPageViews lineGetHeight config lineViews = first :: rest /\
    match lineViews with
    | [] => DocumentView.getLineViews first = [] /\ rest = []
    | l :: _ =>
        if Number.gt (lineGetHeight l) limit
        then DocumentView.getLineViews first = []
        else exists more, DocumentView.getLineViews first = l :: more
    end.
Proof.
  unfold DocumentView.buildPageViews. destruct lineViews as [|l ls].
  - exists (DocumentView.newPageView config), []. repeat split.
  - cbn [fold_left].
    set (st := DocumentView.placeLineView lineGetHeight config
                 (DocumentView.pushPageView config []) l).
    rewrite <- (gt_zero_add (lineGetHeight l) limit).
    destruct (Number.gt (0 + lineGetHeight l)%float limit) eqn:Hover.
    + destruct (fold_placeLineView_keeps_pages ls st [DocumentView.newPageView config]
                  (DocumentView.appendLineView l (DocumentView.newPageView config)))
        as (more & later & Hfold).
      * unfold st, DocumentView.placeLineView.
        cbn [DocumentView.pushPageView DocumentView.cumulatedHeight app].
        rewrite Hover. reflexivity.
      * unfold st, DocumentView.placeLineView.
        cbn [DocumentView.pushPageView DocumentView.cumulatedHeight app].
        rewrite Hover. reflexivity.
      * rewrite Hfold. eexists _, _. split; [reflexivity | reflexivity].
    + destruct (fold_placeLineView_keeps_pages ls st []
                  (DocumentView.appendLineView l (DocumentView.newPageView config)))
        as (more & later & Hfold).
      * unfold st, DocumentView.placeLineView.
        cbn [DocumentView.pushPageView DocumentView.cumulatedHeight app].
        rewrite Hover. reflexivity.
      * unfold st, DocumentView.placeLineView.
        cbn [DocumentView.pushPageView DocumentView.cumulatedHeight app].
        rewrite Hover. reflexivity.
      * rewrite Hfold. eexists _, _. split; [reflexivity|].
        exists more. reflexivity.
Qed.

(** C2, as the code has it. The pages hold the lines in order.  There is
    always a first page; it is empty exactly when there is no line or the
    first line is too tall on its own, and otherwise it starts with the
    first line; every page after the first holds at least one line.  The
    code adds the heights in double arithmetic: for a page that holds
    lines, the running height (from 0, one rounded addition per line) is
    not above pageHeight minus the two paddings, unless the page is one
    line that is too tall on its own; the same holds of the exact sum of
    the heights whenever the running height carries no rounding error.
    When no line has a negative height, a line that is too tall on its own
    is alone on its page. *)
Theorem pages_fit_content_height (lineViews : list DocumentView.LineView) :
  let pages := DocumentView.buildPageViews lineGetHeight config lineViews in
  let contentHeight :=
    (DocumentView.pageHeight config - DocumentView.pagePaddingTop config
     - DocumentView.pagePaddingBottom config)%float in
  concat (map DocumentView.getLineViews pages) = lineViews /\
  (exists first rest,
      pages = first :: rest /\
      match lineViews with
      | [] => DocumentView.getLineViews first = [] /\ rest = []
      | l :: _ =>
          if Number.gt (lineGetHeight l) contentHeight
          then DocumentView.getLineViews first = []
          else exists more, DocumentView.getLineViews first = l :: more
      end) /\
  (forall i page, pages !! i = Some page -> i <> 0%nat ->
                  DocumentView.getLineViews page <> []) /\
  (forall page, In page pages -> DocumentView.getLineViews page <> [] ->
                Number.gt (heightOf page) contentHeight = false \/
                exists l, DocumentView.getLineViews page = [l] /\
                          Number.gt (lineGetHeight l) contentHeight = true) /\
  (forall page, In page pages -> DocumentView.getLineViews page <> [] ->
                Number.exactUnits (heightOf page)
                = Number.exactSum (map lineGetHeight (DocumentView.getLineViews page)) ->
                Number.exactSumExceeds
                  (map lineGetHeight (DocumentView.getLineViews page)) contentHeight
                = false \/
                exists l, DocumentView.getLineViews page = [l] /\
                          Number.gt (lineGetHeight l) contentHeight = true) /\
  (Forall (fun l => (0 <=? lineGetHeight l)%float = true) lineViews ->
   forall page l, In page pages -> In l (DocumentView.getLineViews page) ->
                  Number.gt (lineGetHeight l) contentHeight = true ->
                  DocumentView.getLineViews page = [l]).
Proof.
  intros pages contentHeight.
  destruct (fold_placeLineView_inv lineViews _ _ _ _ pushPageView_inv)
    as (prev & cur & (Hp & _ & _ & Hall & Hne & Hseen)).
  assert (pages = prev ++ [cur]) as Hpages by exact Hp.
  cbn [app] in Hseen.
  assert (forall page, In page pages -> DocumentView.getLineViews page <> [] ->
            Number.gt (heightOf page) contentHeight = false \/
            exists l, DocumentView.getLineViews page = [l] /\
                      Number.gt (lineGetHeight l) contentHeight = true) as Hfit.
  { intros page Hin Hnonempty. rewrite Hpages in Hin.
    rewrite Forall_forall in Hall. apply list_elem_of_In in Hin.
    destruct (Hall page Hin) as [Hempty | [Hle | Htall]];
      [contradiction | left; exact Hle | right; exact Htall]. }
  split; [rewrite Hpages; exact Hseen|].
  split; [apply buildPageViews_first_page|].
  split; [rewrite Hpages; exact Hne|].
  split; [exact Hfit|].
  split.
  { intros page Hin Hnonempty Hnoerror.
    destruct (Hfit page Hin Hnonempty) as [Hwithin | Htall]; [left | right; exact Htall].
    unfold Number.exactSumExceeds. rewrite <- Hnoerror.
    destruct (Number.exactUnits (heightOf page)) as [u|] eqn:Hu; [|reflexivity].
    destruct (Number.exactUnits contentHeight) as [v|] eqn:Hv; [|reflexivity].
    apply Z.ltb_ge. eapply float_not_ltb_units; [exact Hwithin | exact Hu | exact Hv]. }
  intros Hnonneg page l Hpage Hl Htall.
  assert (Forall (fun h => (0 <=? h)%float = true)
                 (map lineGetHeight (DocumentView.getLineViews page))) as Hpos.
  { apply Forall_forall. intros h Hh. apply list_elem_of_In, in_map_iff in Hh
      as (x & <- & Hx).
    rewrite Forall_forall in Hnonneg. apply Hnonneg.
    rewrite <- Hseen, <- Hpages. apply list_elem_of_In, in_concat.
    exists (DocumentView.getLineViews page). split; [apply in_map, Hpage | exact Hx]. }
  destruct (Hfit page Hpage) as [Hle | (l' & Heq & _)].
  - intros Habs. rewrite Habs in Hl. destruct Hl.
  - exfalso. destruct (runningSum_ge_each _ Hpos) as [_ Heach].
    rewrite Forall_forall in Heach.
    assert ((lineGetHeight l <=? heightOf page)%float = true) as Hbelow.
    { apply Heach. apply list_elem_of_In, in_map, Hl. }
    unfold Number.gt in Hle, Htall.
    rewrite (float_ltb_leb_trans _ _ _ Htall Hbelow) in Hle. discriminate Hle.
  - rewrite Heq in Hl |- *. destruct Hl as [<- | []]. reflexivity.
Qed.

End PaginationFacts.

(** ** Line breaking and pagination on sample documents *)

Example helloWorld_lines :
  DocumentView.buildLineViews Samples.viewConfig Samples.helloWorldBlocks
  = [Samples.lineOf [Samples.helloBox]; Samples.lineOf [Samples.worldBox];
     Samples.lineOf [Samples.fooBox]].
Proof. reflexivity. Qed.

Example helloWorld_pages :
  DocumentView.viewPageViews Samples.helloWorldView
  = [Samples.pageOf [Samples.lineOf [Samples.helloBox];
                     Samples.lineOf [Samples.worldBox]];
     Samples.pageOf [Samples.lineOf [Samples.fooBox]]].
Proof. reflexivity. Qed.



(** C2 as the specification words it fails on the code: a first line that
    is too tall for the content area is put on a second page and the first
    page stays empty; a document with no line has one empty page; and
    three lines 16.99, 101.84 and 91.89 high stay together on a page
    210.72 high although their heights, added exactly, are above it. *)
Lemma pagination_leaves_first_page_empty :
  let lines :=
    [Samples.measuredLineOf [Samples.measuredBox 16.99%float];
     Samples.measuredLineOf [Samples.measuredBox 101.84%float];
     Samples.measuredLineOf [Samples.measuredBox 91.89%float]] in
  DocumentView.buildPageViews Samples.fiveHigh Samples.viewConfig
    [Samples.lineOf [Samples.helloBox]]
  = [Samples.pageOf []; Samples.pageOf [Samples.lineOf [Samples.helloBox]]] /\
  ~ paginationAsSpecified Samples.fiveHigh Samples.viewConfig
      [Samples.lineOf [Samples.helloBox]] /\
  DocumentView.buildPageViews Samples.twoHigh Samples.viewConfig []
  = [Samples.pageOf []] /\
  ~ paginationAsSpecified Samples.twoHigh Samples.viewConfig [] /\
  DocumentView.buildPageViews Samples.highAsFirstBoxIsWide Samples.measuredConfig lines
  = [Samples.measuredPageOf lines] /\
  Number.exactSumExceeds (map Samples.highAsFirstBoxIsWide lines)
    (DocumentView.pageContentHeight Samples.measuredConfig) = true /\
  ~ paginationAsSpecified Samples.highAsFirstBoxIsWide Samples.measuredConfig lines.
Proof.
  intros lines.
  assert (Number.exactSumExceeds (map Samples.highAsFirstBoxIsWide lines)
            (DocumentView.pageContentHeight Samples.measuredConfig) = true)
    as Hexceeds by (vm_compute; reflexivity).
  split; [reflexivity|]. split; [|split; [reflexivity|]].
  - intros Hall. destruct (Hall (Samples.pageOf [])) as [Hne _].
    + left. reflexivity.
    + apply Hne. reflexivity.
  - split; [|split; [reflexivity|split; [exact Hexceeds|]]].
    + intros Hall. destruct (Hall (Samples.pageOf [])) as [Hne _].
      * left. reflexivity.
      * apply Hne. reflexivity.
    + intros Hall. destruct (Hall (Samples.measuredPageOf lines)) as [_ Hfit].
      * left. reflexivity.
      * destruct Hfit as [Hwithin | (l & Hone & _)].
        -- cbn [Samples.measuredPageOf DocumentView.getLineViews] in Hwithin.
           rewrite Hexceeds in Hwithin. discriminate Hwithin.
        -- discriminate Hone.
Qed.

Lemma pages_fit_content_height_witness :
  let lineViews :=
    [Samples.lineOf [Samples.abBox]; Samples.lineOf [Samples.worldBox];
     Samples.lineOf [Samples.fooBox]; Samples.lineOf [Samples.abBox; Samples.fooBox]] in
  let pages :=
    DocumentView.buildPageViews Samples.highAsFirstBoxIsWide Samples.viewConfig
      lineViews in
  let tall := Samples.pageOf [Samples.lineOf [Samples.worldBox]] in
  Forall (fun l => (0 <=? Samples.highAsFirstBoxIsWide l)%float = true) lineViews /\
  map Samples.highAsFirstBoxIsWide lineViews = [2; 5; 3; 2]%float /\
  DocumentView.pageContentHeight Samples.viewConfig = 4%float /\
  pages = [Samples.pageOf [Samples.lineOf [Samples.abBox]]; tall;
           Samples.pageOf [Samples.lineOf [Samples.fooBox]];
           Samples.pageOf [Samples.lineOf [Samples.abBox; Samples.fooBox]]] /\
  concat (map DocumentView.getLineViews pages) = lineViews /\
  (forall i page, pages !! i = Some page -> i <> 0%nat ->
                  DocumentView.getLineViews page <> []) /\
  (forall page, In page pages -> DocumentView.getLineViews page <> [] ->
                Number.gt (heightOnPage Samples.highAsFirstBoxIsWide page)
                          (6 - 1 - 1)%float = false \/
                exists l, DocumentView.getLineViews page = [l] /\
                          Number.gt (Samples.highAsFirstBoxIsWide l) (6 - 1 - 1)%float
                          = true) /\
  Number.gt (heightOnPage Samples.highAsFirstBoxIsWide tall) (6 - 1 - 1)%float = true /\
  (forall page l, In page pages -> In l (DocumentView.getLineViews page) ->
                  Number.gt (Samples.highAsFirstBoxIsWide l) (6 - 1 - 1)%float = true ->
                  DocumentView.getLineViews page = [l]).
Proof.
  intros lineViews pages tall.
  assert (Forall (fun l => (0 <=? Samples.highAsFirstBoxIsWide l)%float = true)
                 lineViews) as Hnonneg
      by (repeat constructor).
  destruct (pages_fit_content_height Samples.highAsFirstBoxIsWide Samples.viewConfig
              lineViews)
    as (Hconcat & _ & Hnonempty & Hfit & _ & Halone).
  split; [exact Hnonneg|]. split; [reflexivity|]. split; [reflexivity|].
  split; [reflexivity|]. split; [exact Hconcat|]. split; [exact Hnonempty|].
  split; [exact Hfit|]. split; [reflexivity|].
  exact (Halone Hnonneg).
Defined.

(** ** Screen positions on the sample document *)

Example helloWorld_screen_positions :
  DocumentView.getScreenPositions (Z * Z) (fun _ from to => Ok (from, to))
    Samples.helloWorldView 3 13
  = Ok [(Samples.pageOf [Samples.lineOf [Samples.fooBox]], (0, 1));
        (Samples.pageOf [Samples.lineOf [Samples.helloBox];
                         Samples.lineOf [Samples.worldBox]], (3, 11))] /\
  DocumentView.getScreenPositions (Z * Z) (fun _ from to => Ok (from, to))
    Samples.helloWorldView (-1) 3
  = Throw (ScreenPositionsUndetermined (-1) 3) /\
  DocumentView.getScreenPositions (Z * Z) (fun _ from to => Ok (from, to))
    Samples.helloWorldView 3 (-1)
  = Ok [].
Proof. repeat split. Qed.

(** ** Move commands *)

(** C7. On a selection whose anchor and head differ, moving backward
    submits a caret at the smaller of the two and moving forward a caret at
    the larger: the end of the range in the direction of travel, with no
    anchor of its own, whatever lies one step beyond the head. *)
Theorem move_collapses_selection_to_its_boundary (cursor : CursorCommands.Cursor) :
  CursorCommands.anchor cursor <> CursorCommands.head cursor ->
  CursorCommands.MoveBackwardCommandHandler (Some cursor)
  = Some (CursorCommands.newTransformation2 []
            (Z.min (CursorCommands.anchor cursor) (CursorCommands.head cursor))) /\
  CursorCommands.MoveForwardCommandHandler (Some cursor)
  = Some (CursorCommands.newTransformation2 []
            (Z.max (CursorCommands.anchor cursor) (CursorCommands.head cursor))).
Proof.
  intros Hrange.
  unfold CursorCommands.MoveBackwardCommandHandler,
    CursorCommands.MoveForwardCommandHandler.
  assert ((CursorCommands.anchor cursor =? CursorCommands.head cursor) = false) as ->
      by (apply Z.eqb_neq; exact Hrange).
  split; reflexivity.
Qed.

Lemma move_collapses_selection_witness :
  let cursor := {| CursorCommands.anchor := 7; CursorCommands.head := 2;
                   CursorCommands.leftLock := 0 |} in
  CursorCommands.anchor cursor <> CursorCommands.head cursor /\
  CursorCommands.MoveBackwardCommandHandler (Some cursor)
  = Some (CursorCommands.newTransformation2 [] 2) /\
  CursorCommands.MoveForwardCommandHandler (Some cursor)
  = Some (CursorCommands.newTransformation2 [] 7).
Proof.
  intros cursor.
  assert (CursorCommands.anchor cursor <> CursorCommands.head cursor) as Hrange
      by discriminate.
  split; [exact Hrange|].
  exact (move_collapses_selection_to_its_boundary cursor Hrange).
Defined.

(** C3, where the code departs from it. [MoveBackwardCommandHandler] on a
    caret at offset 0 submits position -1, and [MoveForwardCommandHandler]
    on a caret at the last position submits the content size: both are
    outside the range, while the handlers that move only the head clamp the
    same step into it. *)
Theorem move_on_caret_at_document_edge_leaves_the_range
        (leftLock contentSize : Z) :
  let atStart := {| CursorCommands.anchor := 0; CursorCommands.head := 0;
                    CursorCommands.leftLock := leftLock |} in
  let atEnd := {| CursorCommands.anchor := contentSize - 1;
                  CursorCommands.head := contentSize - 1;
                  CursorCommands.leftLock := leftLock |} in
  CursorCommands.MoveBackwardCommandHandler (Some atStart)
  = Some (CursorCommands.newTransformation2 [] (-1)) /\
  ~ CursorCommands.inRange contentSize (-1) /\
  CursorCommands.MoveForwardCommandHandler (Some atEnd)
  = Some (CursorCommands.newTransformation2 [] contentSize) /\
  ~ CursorCommands.inRange contentSize contentSize /\
  CursorCommands.MoveHeadBackwardCommandHandler (Some atStart)
  = Some (CursorCommands.newTransformation3 [] 0 0) /\
  CursorCommands.MoveHeadForward (Some atEnd) contentSize
  = Some (CursorCommands.newTransformation3 [] (contentSize - 1) (contentSize - 1)).
Proof.
  intros atStart atEnd.
  unfold CursorCommands.MoveBackwardCommandHandler,
    CursorCommands.MoveForwardCommandHandler,
    CursorCommands.MoveHeadBackwardCommandHandler, CursorCommands.MoveHeadForward,
    CursorCommands.inRange.
  cbn [CursorCommands.anchor CursorCommands.head atStart atEnd].
  rewrite !Z.eqb_refl.
  replace (contentSize - 1 + 1) with contentSize by lia.
  rewrite Z.min_l by lia.
  repeat split; lia.
Qed.

(** ** Children of the document view *)

(** C10. [insertChild] puts the child at the end of the children, whatever
    the offset and whether or not the call throws; it throws exactly when
    the offset is greater than the number of DOM children; and when the
    offset is a position inside the children and the child is new, the
    children are not in the order the offset asks for: the slot at the
    offset still holds the former child. *)
Theorem insertChild_appends_whatever_the_offset
        (v : DocView.t) (child : DocView.PageView) (offset : Z) :
  DocView.getChildren (fst (DocView.insertChild child offset v))
  = DocView.getChildren v ++ [child] /\
  (snd (DocView.insertChild child offset v) = Throw (DocViewOffsetOutOfRange offset)
   <-> offset > Z.of_nat (length (DocView.childNodes v))) /\
  (snd (DocView.insertChild child offset v) = Ok tt
   <-> offset <= Z.of_nat (length (DocView.childNodes v))) /\
  (0 <= offset < Z.of_nat (length (DocView.getChildren v)) ->
   ~ In child (DocView.getChildren v) ->
   DocView.getChildren (fst (DocView.insertChild child offset v))
   <> spliceInsert (DocView.getChildren v) offset child /\
   DocView.getChildren (fst (DocView.insertChild child offset v)) !! Z.to_nat offset
   = DocView.getChildren v !! Z.to_nat offset).
Proof.
  assert (DocView.getChildren (fst (DocView.insertChild child offset v))
          = DocView.getChildren v ++ [child]) as Hchildren.
  { unfold DocView.insertChild. destruct (offset >? _); reflexivity. }
  split; [exact Hchildren|].
  split; [|split].
  - unfold DocView.insertChild.
    destruct (Z.gtb_spec offset (Z.of_nat (length (DocView.childNodes v)))); cbn [snd];
      split; intros Hx; try lia; try reflexivity; discriminate Hx.
  - unfold DocView.insertChild.
    destruct (Z.gtb_spec offset (Z.of_nat (length (DocView.childNodes v)))); cbn [snd];
      split; intros Hx; try lia; try reflexivity; discriminate Hx.
  - intros Hoffset Hnew.
    assert (DocView.getChildren (fst (DocView.insertChild child offset v))
              !! Z.to_nat offset
            = DocView.getChildren v !! Z.to_nat offset) as Hslot.
    { rewrite Hchildren. apply lookup_app_l. lia. }
    split; [|exact Hslot].
    intros Heq. rewrite Heq in Hslot. unfold spliceInsert, spliceIndex in Hslot.
    assert ((offset <? 0) = false) as Hnonneg by (apply Z.ltb_ge; lia).
    rewrite Hnonneg in Hslot. rewrite Z.min_l in Hslot by lia.
    unfold DocView.getChildren in *.
    rewrite list_lookup_middle in Hslot by (rewrite length_take; lia).
    apply Hnew. symmetry in Hslot. apply list_elem_of_In.
    eapply list_elem_of_lookup_2. exact Hslot.
Qed.

Lemma insertChild_appends_witness :
  let child := {| DocView.getDOMContainer := 30%nat |} in
  0 <= 0 < Z.of_nat (length (DocView.getChildren Samples.twoPageDocView)) /\
  ~ In child (DocView.getChildren Samples.twoPageDocView) /\
  DocView.getChildren (fst (DocView.insertChild child 0 Samples.twoPageDocView))
  = [{| DocView.getDOMContainer := 10%nat |};
     {| DocView.getDOMContainer := 20%nat |}; child] /\
  spliceInsert (DocView.getChildren Samples.twoPageDocView) 0 child
  = [child; {| DocView.getDOMContainer := 10%nat |};
     {| DocView.getDOMContainer := 20%nat |}] /\
  DocView.getChildren (fst (DocView.insertChild child 0 Samples.twoPageDocView))
  <> spliceInsert (DocView.getChildren Samples.twoPageDocView) 0 child.
Proof.
  intros child.
  assert (0 <= 0 < Z.of_nat (length (DocView.getChildren Samples.twoPageDocView)))
    as Hoffset by (vm_compute; split; [discriminate | reflexivity]).
  assert (~ In child (DocView.getChildren Samples.twoPageDocView)) as Hnew
      by (intros [Habs | [Habs | []]]; discriminate Habs).
  split; [exact Hoffset|]. split; [exact Hnew|].
  split; [reflexivity|]. split; [reflexivity|].
  destruct (insertChild_appends_whatever_the_offset Samples.twoPageDocView child 0)
    as (_ & _ & _ & Horder).
  exact (proj1 (Horder Hoffset Hnew)).
Defined.

Example insertChild_on_two_pages :
  let child := {| DocView.getDOMContainer := 30%nat |} in
  DocView.childNodes (fst (DocView.insertChild child 0 Samples.twoPageDocView))
  = [10%nat; 20%nat; 30%nat] /\
  DocView.insertChild child 3 Samples.twoPageDocView
  = ({| DocView.children := DocView.children Samples.twoPageDocView ++ [child];
        DocView.childNodes := [10%nat; 20%nat] |},
     Throw (DocViewOffsetOutOfRange 3)) /\
  DocView.childNodes (fst (DocView.insertChild child (-1) Samples.twoPageDocView))
  = [10%nat; 20%nat; 30%nat].
Proof. repeat split. Qed.

(** ** Word boundaries at the ends of the document view *)

Lemma lineZero_size l : lineZero l -> DocumentView.lineGetSize l = 0.
Proof.
  unfold lineZero, DocumentView.lineGetSize.
  induction 1 as [|b bs Hb _ IH]; [reflexivity|].
  rewrite sumOf_cons, IH, Hb. reflexivity.
Qed.

Lemma pageZero_size p : pageZero p -> DocumentView.pageGetSize p = 0.
Proof.
  unfold pageZero, DocumentView.pageGetSize.
  induction 1 as [|l ls Hl _ IH]; [reflexivity|].
  rewrite sumOf_cons, IH, (lineZero_size l Hl). reflexivity.
Qed.

Lemma lineNonneg_size l : lineNonneg l -> 0 <= DocumentView.lineGetSize l.
Proof. apply sumOf_nonneg. Qed.

Lemma pageNonneg_size p : pageNonneg p -> 0 <= DocumentView.pageGetSize p.
Proof.
  intros Hp. apply sumOf_nonneg. eapply Forall_impl; [exact Hp|].
  intros l. apply lineNonneg_size.
Qed.

Lemma lineNonneg_zero l :
  lineNonneg l -> DocumentView.lineGetSize l <= 0 -> lineZero l.
Proof. apply sumOf_zero_each. Qed.

Lemma pageNonneg_zero p :
  pageNonneg p -> DocumentView.pageGetSize p <= 0 -> pageZero p.
Proof.
  intros Hp Hsize. unfold pageZero.
  assert (Forall (fun l => DocumentView.lineGetSize l = 0) (DocumentView.getLineViews p))
    as Hz.
  { apply sumOf_zero_each; [|exact Hsize]. eapply Forall_impl; [exact Hp|].
    intros l. apply lineNonneg_size. }
  unfold pageNonneg in Hp. revert Hz. induction Hp as [|l ls Hl _ IH]; intros Hz.
  - constructor.
  - apply Forall_cons in Hz as [Hz0 Hz]. constructor; [|apply IH, Hz].
    apply lineNonneg_zero; [exact Hl | lia].
Qed.

Lemma lastWordBack_zero l cur : lineZero l -> DocumentView.lastWordBack l cur = cur.
Proof.
  intros Hl. unfold DocumentView.lastWordBack.
  destruct (last (DocumentView.getBoxViews l)) as [w|] eqn:E; [|reflexivity].
  apply last_Some_elem_of in E. unfold lineZero in Hl. rewrite Forall_forall in Hl.
  rewrite (Hl w E). lia.
Qed.

Lemma firstWordForth_zero l cur : lineZero l -> DocumentView.firstWordForth l cur = cur.
Proof.
  intros Hl. unfold DocumentView.firstWordForth.
  destruct (DocumentView.getBoxViews l) as [|w ws] eqn:E; [reflexivity|].
  unfold lineZero in Hl. rewrite E in Hl. apply Forall_cons in Hl as [Hw _].
  cbn [head]. rewrite Hw. lia.
Qed.

Lemma toPreviousWord_zero pageViews n lineViews m wordViews o cur :
  (n <= length pageViews)%nat -> Forall pageZero (take n pageViews) ->
  (m <= length lineViews)%nat -> Forall lineZero (take m lineViews) ->
  (o <= length wordViews)%nat -> Forall boxZero (take o wordViews) ->
  DocumentView.toPreviousWord pageViews n lineViews m wordViews o cur = Ok cur.
Proof.
  intros Hn Hpages Hm Hlines Ho Hwords. unfold DocumentView.toPreviousWord.
  destruct (Nat.ltb_spec 0 o) as [Ho0|Ho0].
  - destruct (lookup_lt_is_Some_2 wordViews (o - 1)) as [w Hw]; [lia|].
    rewrite Hw. rewrite Forall_forall in Hwords.
    assert (boxZero w) as Hz.
    { apply Hwords. apply list_elem_of_lookup. exists (o - 1)%nat.
      rewrite lookup_take_lt by lia. exact Hw. }
    rewrite Hz. f_equal. lia.
  - destruct (Nat.ltb_spec 0 m) as [Hm0|Hm0].
    + destruct (lookup_lt_is_Some_2 lineViews (m - 1)) as [l Hl]; [lia|].
      rewrite Hl. rewrite Forall_forall in Hlines.
      rewrite lastWordBack_zero; [reflexivity|].
      apply Hlines. apply list_elem_of_lookup. exists (m - 1)%nat.
      rewrite lookup_take_lt by lia. exact Hl.
    + destruct (Nat.ltb_spec 0 n) as [Hn0|Hn0]; [|reflexivity].
      destruct (lookup_lt_is_Some_2 pageViews (n - 1)) as [p Hp]; [lia|].
      rewrite Hp. rewrite Forall_forall in Hpages.
      assert (pageZero p) as Hz.
      { apply Hpages. apply list_elem_of_lookup. exists (n - 1)%nat.
        rewrite lookup_take_lt by lia. exact Hp. }
      destruct (last (DocumentView.getLineViews p)) as [l|] eqn:E; [|reflexivity].
      rewrite lastWordBack_zero; [reflexivity|].
      apply last_Some_elem_of in E. unfold pageZero in Hz.
      rewrite Forall_forall in Hz. apply Hz, E.
Qed.

Lemma take_length_app {A : Type} (pre rest : list A) :
  take (length pre) (pre ++ rest) = pre.
Proof. rewrite take_app_length. reflexivity. Qed.

(** A forward loop entered with [currentPosition = position] either returns
    the position or runs to its end over spans that are all empty. *)
Lemma wordStartInWords_at_position pageViews n lineViews m position :
  (n <= length pageViews)%nat -> Forall pageZero (take n pageViews) ->
  (m <= length lineViews)%nat -> Forall lineZero (take m lineViews) ->
  forall rest pre,
    Forall boxZero pre ->
    Forall (fun b => 0 <= DocumentView.boxGetSize b) rest ->
    DocumentView.wordStartInWords pageViews n lineViews m (pre ++ rest) rest
      (length pre) position position = DocumentView.Return (Ok position) \/
    (DocumentView.wordStartInWords pageViews n lineViews m (pre ++ rest) rest
       (length pre) position position = DocumentView.Fallthrough position /\
     Forall boxZero rest).
Proof.
  intros Hn Hpages Hm Hlines.
  induction rest as [|w rest IH]; intros pre Hpre Hrest.
  - right. split; [reflexivity | constructor].
  - apply Forall_cons in Hrest as [Hw Hrest].
    cbn [DocumentView.wordStartInWords].
    destruct (Z.leb_spec (position + DocumentView.boxGetSize w) position) as [Hskip|Hhere].
    + assert (boxZero w) as Hz by (unfold boxZero; lia).
      rewrite Hz, Z.add_0_r.
      specialize (IH (pre ++ [w])). rewrite <- app_assoc, length_app in IH.
      cbn [app length] in IH. rewrite Nat.add_1_r in IH.
      destruct IH as [IH | [IH Hz']].
      * apply Forall_app. split; [exact Hpre | constructor; [exact Hz | constructor]].
      * exact Hrest.
      * left. exact IH.
      * right. split; [exact IH | constructor; assumption].
    + left. rewrite Z.eqb_refl. f_equal.
      apply toPreviousWord_zero; try assumption.
      * rewrite length_app. lia.
      * rewrite take_length_app. exact Hpre.
Qed.

Lemma wordStartInLines_at_position pageViews n position :
  (n <= length pageViews)%nat -> Forall pageZero (take n pageViews) ->
  forall rest pre,
    Forall lineZero pre ->
    Forall lineNonneg rest ->
    DocumentView.wordStartInLines pageViews n (pre ++ rest) rest
      (length pre) position position = DocumentView.Return (Ok position) \/
    (DocumentView.wordStartInLines pageViews n (pre ++ rest) rest
       (length pre) position position = DocumentView.Fallthrough position /\
     Forall lineZero rest).
Proof.
  intros Hn Hpages.
  induction rest as [|l rest IH]; intros pre Hpre Hrest.
  - right. split; [reflexivity | constructor].
  - apply Forall_cons in Hrest as [Hl Hrest].
    cbn [DocumentView.wordStartInLines].
    specialize (IH (pre ++ [l])). rewrite <- app_assoc, length_app in IH.
    cbn [app length] in IH. rewrite Nat.add_1_r in IH.
    assert (lineZero l ->
            DocumentView.wordStartInLines pageViews n (pre ++ l :: rest) rest
              (S (length pre)) position position = DocumentView.Return (Ok position) \/
            (DocumentView.wordStartInLines pageViews n (pre ++ l :: rest) rest
               (S (length pre)) position position = DocumentView.Fallthrough position /\
             Forall lineZero (l :: rest))) as Hnext.
    { intros Hz. destruct IH as [IH | [IH Hz']].
      - apply Forall_app. split; [exact Hpre | constructor; [exact Hz | constructor]].
      - exact Hrest.
      - left. exact IH.
      - right. split; [exact IH | constructor; assumption]. }
    destruct (Z.leb_spec (position + DocumentView.lineGetSize l) position) as [Hskip|Hhere].
    + assert (lineZero l) as Hz by (apply lineNonneg_zero; [exact Hl | lia]).
      rewrite (lineZero_size l Hz), Z.add_0_r. apply Hnext, Hz.
    + destruct (wordStartInWords_at_position pageViews n (pre ++ l :: rest)
                  (length pre) position Hn Hpages) with
          (rest := DocumentView.getBoxViews l) (pre := @nil DocumentView.BoxView)
        as [Hret | [Hfall Hz]].
      * rewrite length_app. lia.
      * rewrite take_length_app. exact Hpre.
      * constructor.
      * exact Hl.
      * cbn [app length] in Hret. rewrite Hret. left. reflexivity.
      * cbn [app length] in Hfall. rewrite Hfall. apply Hnext, Hz.
Qed.

Lemma wordStartInPages_at_position position :
  forall rest pre,
    Forall pageZero pre ->
    Forall pageNonneg rest ->
    DocumentView.wordStartInPages (pre ++ rest) rest (length pre) position position
    = DocumentView.Return (Ok position) \/
    (DocumentView.wordStartInPages (pre ++ rest) rest (length pre) position position
     = DocumentView.Fallthrough position /\
     Forall pageZero rest).
Proof.
  induction rest as [|p rest IH]; intros pre Hpre Hrest.
  - right. split; [reflexivity | constructor].
  - apply Forall_cons in Hrest as [Hp Hrest].
    cbn [DocumentView.wordStartInPages].
    specialize (IH (pre ++ [p])). rewrite <- app_assoc, length_app in IH.
    cbn [app length] in IH. rewrite Nat.add_1_r in IH.
    assert (pageZero p ->
            DocumentView.wordStartInPages (pre ++ p :: rest) rest
              (S (length pre)) position position = DocumentView.Return (Ok position) \/
            (DocumentView.wordStartInPages (pre ++ p :: rest) rest
               (S (length pre)) position position = DocumentView.Fallthrough position /\
             Forall pageZero (p :: rest))) as Hnext.
    { intros Hz. destruct IH as [IH | [IH Hz']].
      - apply Forall_app. split; [exact Hpre | constructor; [exact Hz | constructor]].
      - exact Hrest.
      - left. exact IH.
      - right. split; [exact IH | constructor; assumption]. }
    destruct (Z.leb_spec (position + DocumentView.pageGetSize p) position) as [Hskip|Hhere].
    + assert (pageZero p) as Hz by (apply pageNonneg_zero; [exact Hp | lia]).
      rewrite (pageZero_size p Hz), Z.add_0_r. apply Hnext, Hz.
    + destruct (wordStartInLines_at_position (pre ++ p :: rest) (length pre) position)
        with (rest := DocumentView.getLineViews p) (pre := @nil DocumentView.LineView)
        as [Hret | [Hfall Hz]].
      * rewrite length_app. lia.
      * rewrite take_length_app. exact Hpre.
      * constructor.
      * exact Hp.
      * cbn [app length] in Hret. rewrite Hret. left. reflexivity.
      * cbn [app length] in Hfall. rewrite Hfall. apply Hnext, Hz.
Qed.

Lemma pagesZero_size (pages : list DocumentView.PageView) :
  Forall pageZero pages -> sumOf DocumentView.pageGetSize pages = 0.
Proof.
  induction 1 as [|p ps Hp _ IH]; [reflexivity|].
  rewrite sumOf_cons, IH, (pageZero_size p Hp). reflexivity.
Qed.

Lemma getWordStartPosition_at_start (dv : DocumentView.t) :
  DocumentView.built dv -> 0 < DocumentView.getSize dv ->
  DocumentView.getWordStartPosition dv 0 = Ok 0.
Proof.
  intros [Hsize Hnonneg] Hpos. unfold DocumentView.getWordStartPosition.
  destruct (wordStartInPages_at_position 0 (DocumentView.viewPageViews dv) [])
    as [Hret | [_ Hz]].
  - constructor.
  - exact Hnonneg.
  - cbn [app length] in Hret. rewrite Hret. reflexivity.
  - apply pagesZero_size in Hz. unfold DocumentView.getSize in Hpos. lia.
Qed.

Lemma toNextWord_zero pageViews n lineViews m wordViews o cur :
  Forall pageZero (drop (S n) pageViews) ->
  Forall lineZero (drop (S m) lineViews) ->
  Forall boxZero (drop (S o) wordViews) ->
  DocumentView.toNextWord pageViews n lineViews m wordViews o cur = Ok cur.
Proof.
  intros Hpages Hlines Hwords. unfold DocumentView.toNextWord.
  rewrite Forall_forall in Hpages. rewrite Forall_forall in Hlines.
  rewrite Forall_forall in Hwords.
  destruct (Z.ltb_spec (Z.of_nat o) (Z.of_nat (length wordViews) - 1)) as [Ho|Ho].
  - destruct (lookup_lt_is_Some_2 wordViews (o + 1)) as [w Hw]; [lia|].
    rewrite Hw.
    assert (boxZero w) as Hz.
    { apply Hwords. apply list_elem_of_lookup. exists 0%nat.
      rewrite lookup_drop. rewrite <- Hw. f_equal. lia. }
    rewrite Hz. f_equal. lia.
  - destruct (Z.ltb_spec (Z.of_nat m) (Z.of_nat (length lineViews) - 1)) as [Hm|Hm].
    + destruct (lookup_lt_is_Some_2 lineViews (m + 1)) as [l Hl]; [lia|].
      rewrite Hl. rewrite firstWordForth_zero; [reflexivity|].
      apply Hlines. apply list_elem_of_lookup. exists 0%nat.
      rewrite lookup_drop. rewrite <- Hl. f_equal. lia.
    + destruct (Z.ltb_spec (Z.of_nat n) (Z.of_nat (length pageViews) - 1)) as [Hn|Hn];
        [|reflexivity].
      destruct (lookup_lt_is_Some_2 pageViews (n + 1)) as [p Hp]; [lia|].
      rewrite Hp.
      assert (pageZero p) as Hz.
      { apply Hpages. apply list_elem_of_lookup. exists 0%nat.
        rewrite lookup_drop. rewrite <- Hp. f_equal. lia. }
      destruct (DocumentView.getLineViews p) as [|l ls] eqn:E; [reflexivity|].
      cbn [head]. rewrite firstWordForth_zero; [reflexivity|].
      unfold pageZero in Hz. rewrite E in Hz. apply Forall_cons in Hz as [Hl _].
      exact Hl.
Qed.

(** A backward loop entered with [currentPosition = position] either
    returns the position or runs to its start over spans that are all
    empty. *)
Lemma wordEndInWords_at_position pageViews n lineViews m wordViews position :
  Forall pageZero (drop (S n) pageViews) ->
  Forall lineZero (drop (S m) lineViews) ->
  Forall (fun b => 0 <= DocumentView.boxGetSize b) wordViews ->
  forall k,
    (k <= length wordViews)%nat ->
    Forall boxZero (drop k wordViews) ->
    DocumentView.wordEndInWords pageViews n lineViews m wordViews k position position
    = DocumentView.Return (Ok position) \/
    (DocumentView.wordEndInWords pageViews n lineViews m wordViews k position position
     = DocumentView.Fallthrough position /\
     Forall boxZero wordViews).
Proof.
  intros Hpages Hlines Hnonneg.
  induction k as [|o IH]; intros Hk Hpassed.
  - right. split; [reflexivity | exact Hpassed].
  - cbn [DocumentView.wordEndInWords].
    destruct (lookup_lt_is_Some_2 wordViews o) as [w Hw]; [lia|]. rewrite Hw.
    pose proof (Forall_lookup_1 _ _ _ _ Hnonneg Hw) as Hw0. cbn beta in Hw0.
    destruct (Z.geb_spec (position - DocumentView.boxGetSize w) position) as [Hskip|Hhere].
    + assert (boxZero w) as Hz by (unfold boxZero; lia).
      rewrite Hz, Z.sub_0_r. apply IH; [lia|].
      rewrite (drop_S _ _ _ Hw). constructor; assumption.
    + left. rewrite Z.eqb_refl. f_equal. apply toNextWord_zero; assumption.
Qed.

Lemma wordEndInLines_at_position pageViews n lineViews position :
  Forall pageZero (drop (S n) pageViews) ->
  Forall lineNonneg lineViews ->
  forall k,
    (k <= length lineViews)%nat ->
    Forall lineZero (drop k lineViews) ->
    DocumentView.wordEndInLines pageViews n lineViews k position position
    = DocumentView.Return (Ok position) \/
    (DocumentView.wordEndInLines pageViews n lineViews k position position
     = DocumentView.Fallthrough position /\
     Forall lineZero lineViews).
Proof.
  intros Hpages Hnonneg.
  induction k as [|m IH]; intros Hk Hpassed.
  - right. split; [reflexivity | exact Hpassed].
  - cbn [DocumentView.wordEndInLines].
    destruct (lookup_lt_is_Some_2 lineViews m) as [l Hl]; [lia|]. rewrite Hl.
    pose proof (Forall_lookup_1 _ _ _ _ Hnonneg Hl) as Hl0.
    assert (lineZero l ->
            DocumentView.wordEndInLines pageViews n lineViews m position position
            = DocumentView.Return (Ok position) \/
            (DocumentView.wordEndInLines pageViews n lineViews m position position
             = DocumentView.Fallthrough position /\
             Forall lineZero lineViews)) as Hnext.
    { intros Hz. apply IH; [lia|]. rewrite (drop_S _ _ _ Hl). constructor; assumption. }
    destruct (Z.geb_spec (position - DocumentView.lineGetSize l) position) as [Hskip|Hhere].
    + assert (lineZero l) as Hz
          by (apply lineNonneg_zero; [exact Hl0 | lia]).
      rewrite (lineZero_size l Hz), Z.sub_0_r. apply Hnext, Hz.
    + destruct (wordEndInWords_at_position pageViews n lineViews m
                  (DocumentView.getBoxViews l) position Hpages Hpassed Hl0
                  (length (DocumentView.getBoxViews l))) as [Hret | [Hfall Hz]].
      * lia.
      * rewrite drop_all. constructor.
      * rewrite Hret. left. reflexivity.
      * rewrite Hfall. apply Hnext, Hz.
Qed.

Lemma wordEndInPages_at_position pageViews position :
  Forall pageNonneg pageViews ->
  forall k,
    (k <= length pageViews)%nat ->
    Forall pageZero (drop k pageViews) ->
    DocumentView.wordEndInPages pageViews k position position
    = DocumentView.Return (Ok position) \/
    (DocumentView.wordEndInPages pageViews k position position
     = DocumentView.Fallthrough position /\
     Forall pageZero pageViews).
Proof.
  intros Hnonneg.
  induction k as [|n IH]; intros Hk Hpassed.
  - right. split; [reflexivity | exact Hpassed].
  - cbn [DocumentView.wordEndInPages].
    destruct (lookup_lt_is_Some_2 pageViews n) as [p Hp]; [lia|]. rewrite Hp.
    pose proof (Forall_lookup_1 _ _ _ _ Hnonneg Hp) as Hp0.
    assert (pageZero p ->
            DocumentView.wordEndInPages pageViews n position position
            = DocumentView.Return (Ok position) \/
            (DocumentView.wordEndInPages pageViews n position position
             = DocumentView.Fallthrough position /\
             Forall pageZero pageViews)) as Hnext.
    { intros Hz. apply IH; [lia|]. rewrite (drop_S _ _ _ Hp). constructor; assumption. }
    destruct (Z.geb_spec (position - DocumentView.pageGetSize p) position) as [Hskip|Hhere].
    + assert (pageZero p) as Hz
          by (apply pageNonneg_zero; [exact Hp0 | lia]).
      rewrite (pageZero_size p Hz), Z.sub_0_r. apply Hnext, Hz.
    + destruct (wordEndInLines_at_position pageViews n
                  (DocumentView.getLineViews p) position Hpassed Hp0
                  (length (DocumentView.getLineViews p))) as [Hret | [Hfall Hz]].
      * lia.
      * rewrite drop_all. constructor.
      * rewrite Hret. left. reflexivity.
      * rewrite Hfall. apply Hnext, Hz.
Qed.

Lemma getWordEndPosition_at_end (dv : DocumentView.t) :
  DocumentView.built dv -> 0 < DocumentView.getSize dv ->
  DocumentView.getWordEndPosition dv (DocumentView.getSize dv - 1)
  = Ok (DocumentView.getSize dv - 1).
Proof.
  intros [Hsize Hnonneg] Hpos.
  unfold DocumentView.getWordEndPosition, DocumentView.getSize in *.
  destruct (wordEndInPages_at_position (DocumentView.viewPageViews dv)
              (DocumentView.documentElementGetSize dv - 1) Hnonneg
              (length (DocumentView.viewPageViews dv))) as [Hret | [_ Hz]].
  - lia.
  - rewrite drop_all. constructor.
  - rewrite Hret. reflexivity.
  - apply pagesZero_size in Hz. lia.
Qed.

(** ** Boundary search at the ends of the document *)

Section BoundarySearchAtEnds.

Context {Service Node : Type} `{LayoutService.Interface Service Node}.

(** C6. At the first boundary of the document, where the word that holds
    the position starts at it and has no previous cross-parent sibling,
    [atPreviousWord] returns the position; at the last boundary, where the
    position is the last of a word with no next cross-parent sibling,
    [atNextWord] returns the position; and on a built document view with
    at least one position, [getWordStartPosition] at position 0 and
    [getWordEndPosition] at the last position return the position.  None of
    them throws. *)
Theorem boundary_search_stays_at_document_ends
        (layoutService : Service) (first last : Z)
        (firstWord lastWord : Node) (lastWordPosition : Z) (dv : DocumentView.t) :
  LayoutService.describePositionAtWord layoutService first = Ok (firstWord, 0) ->
  LayoutService.previousCrossParentSibling firstWord = None ->
  LayoutService.describePositionAtWord layoutService last
  = Ok (lastWord, lastWordPosition) ->
  LayoutService.size lastWord - 1 <= lastWordPosition ->
  LayoutService.nextCrossParentSibling lastWord = None ->
  DocumentView.built dv ->
  0 < DocumentView.getSize dv ->
  CursorCommands.atPreviousWord first layoutService = Ok first /\
  CursorCommands.atNextWord last layoutService = Ok last /\
  DocumentView.getWordStartPosition dv 0 = Ok 0 /\
  DocumentView.getWordEndPosition dv (DocumentView.getSize dv - 1)
  = Ok (DocumentView.getSize dv - 1).
Proof.
  intros Hfirst Hprev Hlast Hend Hnext Hbuilt Hsize.
  split; [|split; [|split]].
  - unfold CursorCommands.atPreviousWord. rewrite Hfirst. cbn [bind].
    rewrite Hprev. reflexivity.
  - unfold CursorCommands.atNextWord. rewrite Hlast. cbn [bind].
    assert ((lastWordPosition <? LayoutService.size lastWord - 1) = false) as ->
        by (apply Z.ltb_ge; lia).
    rewrite Hnext. reflexivity.
  - apply getWordStartPosition_at_start; assumption.
  - apply getWordEndPosition_at_end; assumption.
Qed.

End BoundarySearchAtEnds.

Lemma helloWorldView_built : DocumentView.built Samples.helloWorldView.
Proof. split; [reflexivity|]. repeat constructor; discriminate. Qed.

Lemma boundary_search_witness :
  LayoutService.describePositionAtWord Samples.helloWorldLayout 0
  = Ok (Layout.WordNode Samples.helloWorldLayout 0, 0) /\
  LayoutService.describePositionAtWord Samples.helloWorldLayout 15
  = Ok (Layout.WordNode Samples.helloWorldLayout 2, 3) /\
  DocumentView.built Samples.helloWorldView /\
  0 < DocumentView.getSize Samples.helloWorldView /\
  CursorCommands.atPreviousWord 0 Samples.helloWorldLayout = Ok 0 /\
  CursorCommands.atNextWord 15 Samples.helloWorldLayout = Ok 15 /\
  DocumentView.getWordStartPosition Samples.helloWorldView 0 = Ok 0 /\
  DocumentView.getWordEndPosition Samples.helloWorldView 15 = Ok 15.
Proof.
  assert (0 < DocumentView.getSize Samples.helloWorldView) as Hsize by reflexivity.
  split; [reflexivity|]. split; [reflexivity|].
  split; [exact helloWorldView_built|]. split; [exact Hsize|].
  exact (boundary_search_stays_at_document_ends
           Samples.helloWorldLayout 0 15
           (Layout.WordNode Samples.helloWorldLayout 0)
           (Layout.WordNode Samples.helloWorldLayout 2) 3 Samples.helloWorldView
           eq_refl eq_refl eq_refl ltac:(vm_compute; discriminate) eq_refl
           helloWorldView_built Hsize).
Defined.

Example helloWorld_word_boundaries :
  map (DocumentView.getWordStartPosition Samples.helloWorldView) [0; 3; 6; 11; 12; 16]
  = [Ok 0; Ok 0; Ok 0; Ok 6; Ok 6; Throw (PositionNotInDocument 16)] /\
  map (DocumentView.getWordEndPosition Samples.helloWorldView) [0; 5; 6; 11; 15; 16]
  = [Ok 5; Ok 11; Ok 11; Ok 15; Ok 15; Ok 15] /\
  map (fun p => CursorCommands.atPreviousWord p Samples.helloWorldLayout) [0; 3; 6; 15]
  = [Ok 0; Ok 0; Ok 0; Ok 12] /\
  map (fun p => CursorCommands.atNextWord p Samples.helloWorldLayout) [0; 3; 5; 12; 15]
  = [Ok 5; Ok 5; Ok 11; Ok 15; Ok 15].
Proof. repeat split. Qed.

(** ** Describing positions in a layout *)

Lemma locate_sound (sizes : list Z) :
  forall rank position i q,
    Layout.locate sizes rank position = Some (i, q) ->
    exists pre s post,
      sizes = pre ++ s :: post /\
      i = (rank + length pre)%nat /\
      q = position - sumOf id pre /\
      q < s.
Proof.
  induction sizes as [|s sizes IH]; intros rank position i q Hloc; [discriminate Hloc|].
  cbn [Layout.locate] in Hloc.
  destruct (Z.ltb_spec position s) as [Hin|Hout].
  - injection Hloc as <- <-. exists [], s, sizes.
    rewrite sumOf_nil. cbn [length]. repeat split; [lia | lia | exact Hin].
  - destruct (IH _ _ _ _ Hloc) as (pre & s' & post & -> & -> & -> & Hq).
    exists (s :: pre), s', post. rewrite sumOf_cons. cbn [length id].
    repeat split; [lia | unfold id; lia | exact Hq].
Qed.

Lemma locate_complete (pre : list Z) (s : Z) (post : list Z) :
  Forall (fun x => 0 <= x) pre ->
  forall rank q,
    0 <= q < s ->
    Layout.locate (pre ++ s :: post) rank (sumOf id pre + q)
    = Some ((rank + length pre)%nat, q).
Proof.
  induction 1 as [|a pre Ha Hpre IH]; intros rank q Hq.
  - rewrite sumOf_nil. cbn [app Layout.locate length].
    assert ((0 + q <? s) = true) as -> by (apply Z.ltb_lt; lia).
    f_equal. f_equal; lia.
  - rewrite sumOf_cons. cbn [app Layout.locate length id].
    pose proof (sumOf_nonneg id pre Hpre) as Hsum.
    assert ((a + sumOf id pre + q <? a) = false) as -> by (apply Z.ltb_ge; lia).
    replace (a + sumOf id pre + q - a) with (sumOf id pre + q) by lia.
    rewrite IH by exact Hq. f_equal. f_equal. lia.
Qed.

Lemma sumOf_map {A : Type} (f : A -> Z) (l : list A) :
  sumOf id (map f l) = sumOf f l.
Proof.
  induction l as [|a l IH]; [reflexivity|].
  cbn [map]. rewrite !sumOf_cons, IH. reflexivity.
Qed.

Lemma map_split_middle {A B : Type} (f : A -> B) (l : list A) pre s post :
  map f l = pre ++ s :: post ->
  exists pre' x post',
    l = pre' ++ x :: post' /\ map f pre' = pre /\ f x = s /\ map f post' = post.
Proof.
  revert pre. induction l as [|a l IH]; intros pre Hmap.
  - destruct pre; discriminate Hmap.
  - destruct pre as [|b pre]; cbn [map app] in Hmap.
    + injection Hmap as Ha Hl. exists [], a, l. repeat split; assumption.
    + injection Hmap as Ha Hl.
      destruct (IH pre Hl) as (pre' & x & post' & -> & Hpre & Hx & Hpost).
      exists (a :: pre'), x, post'. cbn [map app]. rewrite Ha, Hpre.
      repeat split; assumption.
Qed.

(** What [describePosition(p).atWord()] says: the word of that rank holds
    the position, at that offset from its start. *)
Lemma describePositionAtWord_sound (l : Layout.t) position node q :
  Layout.describePositionAtWord l position = Ok (node, q) ->
  exists pre w post,
    Layout.allWords l = pre ++ w :: post /\
    node = Layout.WordNode l (length pre) /\
    position = sumOf Layout.wordSize pre + q /\
    0 <= position /\ q < Layout.wordSize w.
Proof.
  unfold Layout.describePositionAtWord. intros Hd.
  destruct (Z.ltb_spec position 0) as [Hneg|Hnonneg]; [discriminate Hd|].
  destruct (Layout.locate _ 0 position) as [[i p]|] eqn:Hloc; [|discriminate Hd].
  injection Hd as <- <-.
  destruct (locate_sound _ _ _ _ _ Hloc) as (pre & s & post & Hsizes & -> & -> & Hq).
  destruct (map_split_middle _ _ _ _ _ Hsizes) as (pre' & w & post' & Hw & <- & <- & _).
  exists pre', w, post'. rewrite sumOf_map in Hq |- *. rewrite length_map.
  repeat split; [exact Hw | lia | exact Hnonneg | exact Hq].
Qed.

Lemma describePositionAtWord_complete (l : Layout.t) pre w post q :
  Layout.allWords l = pre ++ w :: post ->
  Forall (fun x => 0 <= Layout.wordSize x) pre ->
  0 <= q < Layout.wordSize w ->
  Layout.describePositionAtWord l (sumOf Layout.wordSize pre + q)
  = Ok (Layout.WordNode l (length pre), q).
Proof.
  intros Hw Hpre Hq. unfold Layout.describePositionAtWord.
  pose proof (sumOf_nonneg _ _ Hpre) as Hsum.
  assert ((sumOf Layout.wordSize pre + q <? 0) = false) as -> by (apply Z.ltb_ge; lia).
  rewrite Hw, map_app. cbn [map]. rewrite <- sumOf_map.
  rewrite locate_complete.
  - rewrite length_map. reflexivity.
  - apply Forall_map. exact Hpre.
  - exact Hq.
Qed.

Lemma describePositionAtLine_sound (l : Layout.t) position node q :
  Layout.describePositionAtLine l position = Ok (node, q) ->
  exists pre ln post,
    Layout.allLines l = pre ++ ln :: post /\
    node = Layout.LineNode l (length pre) /\
    position = sumOf Layout.lineSize pre + q /\
    0 <= position /\ q < Layout.lineSize ln.
Proof.
  unfold Layout.describePositionAtLine. intros Hd.
  destruct (Z.ltb_spec position 0) as [Hneg|Hnonneg]; [discriminate Hd|].
  destruct (Layout.locate _ 0 position) as [[i p]|] eqn:Hloc; [|discriminate Hd].
  injection Hd as <- <-.
  destruct (locate_sound _ _ _ _ _ Hloc) as (pre & s & post & Hsizes & -> & -> & Hq).
  destruct (map_split_middle _ _ _ _ _ Hsizes) as (pre' & w & post' & Hw & <- & <- & _).
  exists pre', w, post'. rewrite sumOf_map in Hq |- *. rewrite length_map.
  repeat split; [exact Hw | lia | exact Hnonneg | exact Hq].
Qed.

Lemma describePositionAtLine_complete (l : Layout.t) pre ln post q :
  Layout.allLines l = pre ++ ln :: post ->
  Forall (fun x => 0 <= Layout.lineSize x) pre ->
  0 <= q < Layout.lineSize ln ->
  Layout.describePositionAtLine l (sumOf Layout.lineSize pre + q)
  = Ok (Layout.LineNode l (length pre), q).
Proof.
  intros Hw Hpre Hq. unfold Layout.describePositionAtLine.
  pose proof (sumOf_nonneg _ _ Hpre) as Hsum.
  assert ((sumOf Layout.lineSize pre + q <? 0) = false) as -> by (apply Z.ltb_ge; lia).
  rewrite Hw, map_app. cbn [map]. rewrite <- sumOf_map.
  rewrite locate_complete.
  - rewrite length_map. reflexivity.
  - apply Forall_map. exact Hpre.
  - exact Hq.
Qed.

Lemma locate_nonneg (sizes : list Z) :
  forall rank position i q,
    0 <= position ->
    Layout.locate sizes rank position = Some (i, q) -> 0 <= q.
Proof.
  induction sizes as [|s sizes IH]; intros rank position i q Hpos Hloc;
    [discriminate Hloc|].
  cbn [Layout.locate] in Hloc.
  destruct (Z.ltb_spec position s) as [Hin|Hout].
  - injection Hloc as <- <-. exact Hpos.
  - eapply IH; [|exact Hloc]. lia.
Qed.

Lemma describePositionAtWord_nonneg (l : Layout.t) position node q :
  Layout.describePositionAtWord l position = Ok (node, q) -> 0 <= q.
Proof.
  unfold Layout.describePositionAtWord. intros Hd.
  destruct (Z.ltb_spec position 0) as [Hneg|Hnonneg]; [discriminate Hd|].
  destruct (Layout.locate _ 0 position) as [[i p]|] eqn:Hloc; [|discriminate Hd].
  injection Hd as <- <-. eapply locate_nonneg; eassumption.
Qed.

Lemma describePositionAtLine_nonneg (l : Layout.t) position node q :
  Layout.describePositionAtLine l position = Ok (node, q) -> 0 <= q.
Proof.
  unfold Layout.describePositionAtLine. intros Hd.
  destruct (Z.ltb_spec position 0) as [Hneg|Hnonneg]; [discriminate Hd|].
  destruct (Layout.locate _ 0 position) as [[i p]|] eqn:Hloc; [|discriminate Hd].
  injection Hd as <- <-. eapply locate_nonneg; eassumption.
Qed.

Lemma built_words_nonneg (l : Layout.t) :
  Layout.built l -> Forall (fun w => 0 <= Layout.wordSize w) (Layout.allWords l).
Proof.
  intros Hb. eapply Forall_impl; [exact Hb|]. cbn beta. intros w Hw. lia.
Qed.

Lemma built_lines_nonneg (l : Layout.t) :
  Layout.built l -> Forall (fun ln => 0 <= Layout.lineSize ln) (Layout.allLines l).
Proof.
  intros Hb. apply built_words_nonneg in Hb. unfold Layout.allWords in Hb.
  induction (Layout.allLines l) as [|ln lns IH]; [constructor|].
  cbn [map concat] in Hb. apply Forall_app in Hb as [Hln Hlns].
  constructor; [apply sumOf_nonneg, Hln | apply IH, Hlns].
Qed.

Lemma snoc_cases {A : Type} (l : list A) :
  l = [] \/ exists l' x, l = l' ++ [x].
Proof.
  induction l as [|x l' _] using rev_ind; [left; reflexivity|].
  right. exists l', x. reflexivity.
Qed.

(** [atNextWord] from the start of a word of two positions or more goes to
    the end of its trimmed content. *)
Lemma atNextWord_from_word_start (l : Layout.t) pre v post :
  Layout.built l ->
  Layout.allWords l = pre ++ v :: post ->
  2 <= Layout.wordSize v ->
  CursorCommands.atNextWord (sumOf Layout.wordSize pre) l
  = Ok (sumOf Layout.wordSize pre + Layout.wordTrimmedSize v).
Proof.
  intros Hb Hw Hv. unfold CursorCommands.atNextWord.
  cbn [LayoutService.describePositionAtWord LayoutService.size
       LayoutService.trimmedSize LayoutService.nextCrossParentSibling
       Layout.asLayoutService].
  pose proof (describePositionAtWord_complete l pre v post 0 Hw) as Hd.
  rewrite Z.add_0_r in Hd. rewrite Hd.
  - cbn [bind Layout.size Layout.trimmedSize].
    rewrite Hw, list_lookup_middle by reflexivity. cbn [from_option].
    assert ((0 <? Layout.wordSize v - 1) = true) as -> by (apply Z.ltb_lt; lia).
    f_equal. lia.
  - apply built_words_nonneg in Hb. rewrite Hw in Hb.
    apply Forall_app in Hb as [Hpre _]. exact Hpre.
  - lia.
Qed.

Lemma previousThenNextWord_lands (l : Layout.t) (position : Z) (i : nat) (wp : Z)
      (v : Layout.Word) :
  Layout.built l ->
  Layout.describePositionAtWord l position = Ok (Layout.WordNode l i, wp) ->
  Layout.allWords l !! (if wp >? 0 then i else pred i) = Some v ->
  2 <= Layout.wordSize v ->
  previousThenNextWord l position
  = Ok (wordStart l (if wp >? 0 then i else pred i) + Layout.wordTrimmedSize v).
Proof.
  intros Hb Hd Hv Hsize.
  pose proof (describePositionAtWord_nonneg _ _ _ _ Hd) as Hwp.
  destruct (describePositionAtWord_sound _ _ _ _ Hd)
    as (pre & w & post & Hw & Hnode & Hpos & _ & Hin).
  injection Hnode as ->.
  unfold previousThenNextWord, CursorCommands.atPreviousWord, wordStart.
  cbn [LayoutService.describePositionAtWord LayoutService.size
       LayoutService.previousCrossParentSibling Layout.asLayoutService].
  rewrite Hd. cbn [bind].
  destruct (Z.gtb_spec wp 0) as [Hinside|Hstart].
  - cbn [bind]. rewrite Hw in Hv. rewrite list_lookup_middle in Hv by reflexivity.
    injection Hv as <-.
    replace (position - wp) with (sumOf Layout.wordSize pre) by lia.
    rewrite Hw, take_length_app.
    apply (atNextWord_from_word_start l pre w post Hb Hw Hsize).
  - assert (wp = 0) as -> by lia. rewrite Z.add_0_r in Hpos.
    destruct (snoc_cases pre) as [-> | (pre' & u & ->)].
    + cbn [length pred Layout.previousCrossParentSibling bind] in *.
      rewrite Hw in Hv. cbn [app] in Hv. injection Hv as <-.
      rewrite sumOf_nil in Hpos. subst position. rewrite take_0, sumOf_nil.
      pose proof (atNextWord_from_word_start l [] w post Hb Hw Hsize) as Hnext.
      rewrite sumOf_nil in Hnext. exact Hnext.
    + rewrite length_app in *. cbn [length] in *. rewrite Nat.add_1_r in *.
      cbn [pred Layout.previousCrossParentSibling bind Layout.size] in *.
      rewrite <- app_assoc in Hw. cbn [app] in Hw.
      rewrite Hw in Hv |- *. rewrite list_lookup_middle in Hv |- * by reflexivity.
      injection Hv as <-. cbn [from_option].
      rewrite sumOf_app, sumOf_cons, sumOf_nil in Hpos.
      replace (position - Layout.wordSize u) with (sumOf Layout.wordSize pre') by lia.
      rewrite take_length_app.
      apply (atNextWord_from_word_start l pre' u (w :: post) Hb Hw Hsize).
Qed.

Lemma lookup_after_middle {A : Type} (pre : list A) (u x : A) (post : list A) :
  (pre ++ u :: x :: post) !! S (length pre) = Some x.
Proof. induction pre as [|a pre IH]; [reflexivity | exact IH]. Qed.

Lemma take_after_middle {A : Type} (pre : list A) (u : A) (rest : list A) :
  take (S (length pre)) (pre ++ u :: rest) = pre ++ [u].
Proof.
  induction pre as [|a pre IH]; cbn [length app take firstn].
  - rewrite take_0. reflexivity.
  - f_equal. exact IH.
Qed.

Lemma previousThenNextLine_lands (l : Layout.t) (position leftLock : Z) (k : nat)
      (lp : Z) (u ln : Layout.Line) :
  Layout.built l ->
  Layout.describePositionAtLine l position = Ok (Layout.LineNode l (S k), lp) ->
  Layout.allLines l !! k = Some u ->
  Layout.allLines l !! S k = Some ln ->
  0 <= Layout.lineConvertCoordinatesToPosition u leftLock 0 < Layout.lineSize u ->
  previousThenNextLine l position leftLock
  = Ok (lineStart l (S k) + Layout.lineConvertCoordinatesToPosition ln leftLock 0).
Proof.
  intros Hb Hd Hu Hln Hcol.
  destruct (describePositionAtLine_sound _ _ _ _ Hd)
    as (pre & ln' & post & Hlines & Hnode & Hpos & _ & Hin).
  injection Hnode as Hk.
  destruct (snoc_cases pre) as [-> | (pre' & u' & ->)]; [discriminate Hk|].
  rewrite length_app in Hk. cbn [length] in Hk.
  assert (k = length pre') as -> by lia.
  rewrite <- app_assoc in Hlines. cbn [app] in Hlines.
  rewrite Hlines in Hu, Hln.
  rewrite list_lookup_middle in Hu by reflexivity. injection Hu as ->.
  rewrite lookup_after_middle in Hln. injection Hln as ->.
  rewrite sumOf_app, sumOf_cons, sumOf_nil in Hpos.
  unfold previousThenNextLine, CursorCommands.atPreviousLine, CursorCommands.atNextLine,
    lineStart.
  cbn [LayoutService.describePositionAtLine LayoutService.size
       LayoutService.previousCrossParentSibling LayoutService.nextCrossParentSibling
       LayoutService.convertCoordinatesToPosition Layout.asLayoutService].
  rewrite Hd.
  cbn [bind Layout.previousCrossParentSibling Layout.size
       Layout.convertCoordinatesToPosition].
  rewrite Hlines, list_lookup_middle by reflexivity. cbn [from_option].
  replace (position - lp - Layout.lineSize u
           + Layout.lineConvertCoordinatesToPosition u leftLock 0)
    with (sumOf Layout.lineSize pre'
          + Layout.lineConvertCoordinatesToPosition u leftLock 0) by lia.
  rewrite <- Hlines.
  rewrite (describePositionAtLine_complete l pre' u (ln :: post) _ Hlines).
  - cbn [bind Layout.nextCrossParentSibling Layout.size
         Layout.convertCoordinatesToPosition].
    rewrite Hlines.
    assert ((S (length pre') <? length (pre' ++ u :: ln :: post))%nat = true) as ->
        by (apply Nat.ltb_lt; rewrite length_app; cbn [length]; lia).
    rewrite list_lookup_middle by reflexivity.
    cbn [Layout.convertCoordinatesToPosition]. rewrite Hlines.
    rewrite lookup_after_middle.
    cbn [from_option].
    rewrite take_after_middle, sumOf_app, sumOf_cons, sumOf_nil.
    f_equal. lia.
  - apply built_lines_nonneg in Hb. rewrite Hlines in Hb.
    apply Forall_app in Hb as [Hpre _]. exact Hpre.
  - exact Hcol.
Qed.

(** C5, as the code has it. In a built layout, going to the previous word
    from a position and then to the next word ends at the trimmed end of the
    word at whose start the first step lands (the word that holds the
    position when it is inside the word, else the word before), when that
    word covers two positions or more; so the round trip comes back to the
    position exactly when the position is that trimmed end.  Going to the
    previous line and then to the next line, from a position on a line after
    the first whose previous line resolves the left lock inside itself, ends
    where the position's own line resolves the left lock; so it comes back
    exactly when the left lock resolves to the position's own offset. *)
Theorem previous_then_next_returns_to_trimmed_end_or_locked_column
        (l : Layout.t) (position leftLock : Z) :
  Layout.built l ->
  (forall i wp v,
     Layout.describePositionAtWord l position = Ok (Layout.WordNode l i, wp) ->
     Layout.allWords l !! (if wp >? 0 then i else pred i) = Some v ->
     2 <= Layout.wordSize v ->
     previousThenNextWord l position
     = Ok (wordStart l (if wp >? 0 then i else pred i) + Layout.wordTrimmedSize v) /\
     (previousThenNextWord l position = Ok position <->
      position
      = wordStart l (if wp >? 0 then i else pred i) + Layout.wordTrimmedSize v)) /\
  (forall k lp u ln,
     Layout.describePositionAtLine l position = Ok (Layout.LineNode l (S k), lp) ->
     Layout.allLines l !! k = Some u ->
     Layout.allLines l !! S k = Some ln ->
     0 <= Layout.lineConvertCoordinatesToPosition u leftLock 0 < Layout.lineSize u ->
     previousThenNextLine l position leftLock
     = Ok (lineStart l (S k) + Layout.lineConvertCoordinatesToPosition ln leftLock 0) /\
     (previousThenNextLine l position leftLock = Ok position <->
      Layout.lineConvertCoordinatesToPosition ln leftLock 0 = lp)).
Proof.
  intros Hb. split.
  - intros i wp v Hd Hv Hsize.
    pose proof (previousThenNextWord_lands l position i wp v Hb Hd Hv Hsize) as Hland.
    split; [exact Hland|]. rewrite Hland. split.
    + intros Heq. injection Heq as Heq. lia.
    + intros Heq. f_equal. lia.
  - intros k lp u ln Hd Hu Hln Hcol.
    pose proof (previousThenNextLine_lands l position leftLock k lp u ln
                  Hb Hd Hu Hln Hcol) as Hland.
    split; [exact Hland|]. rewrite Hland.
    destruct (describePositionAtLine_sound _ _ _ _ Hd)
      as (pre & ln' & post & Hlines & Hnode & Hpos & _ & _).
    injection Hnode as Hk.
    assert (lineStart l (S k) = sumOf Layout.lineSize pre) as Hstart
        by (unfold lineStart; rewrite Hk, Hlines, take_length_app; reflexivity).
    rewrite Hstart. split.
    + intros Heq. injection Heq as Heq. lia.
    + intros Heq. f_equal. lia.
Qed.

(** Every built layout with at least one position has the two ends that
    the boundary search is asked about: position 0 starts a word with no
    previous sibling, and the last position ends a word with no next one. *)
Lemma built_layout_has_both_ends (l : Layout.t) :
  Layout.built l -> 0 < Layout.contentSize l ->
  exists firstWord lastWord lastWordPosition,
    Layout.describePositionAtWord l 0 = Ok (firstWord, 0) /\
    Layout.previousCrossParentSibling firstWord = None /\
    Layout.describePositionAtWord l (Layout.contentSize l - 1)
    = Ok (lastWord, lastWordPosition) /\
    Layout.size lastWord - 1 <= lastWordPosition /\
    Layout.nextCrossParentSibling lastWord = None.
Proof.
  intros Hb Hsize. unfold Layout.contentSize in *.
  pose proof Hb as Hwords. unfold Layout.built in Hwords.
  destruct (Layout.allWords l) as [|w ws] eqn:Hall;
    [rewrite sumOf_nil in Hsize; lia|].
  destruct (snoc_cases (w :: ws)) as [Hnil | (pre & z & Hsnoc)]; [discriminate Hnil|].
  assert (1 <= Layout.wordSize w) as Hw
      by (apply Forall_cons in Hwords as [[Hw _] _]; exact Hw).
  assert (1 <= Layout.wordSize z) as Hz.
  { rewrite Hsnoc in Hwords. apply Forall_app in Hwords as [_ Hlast].
    apply Forall_cons in Hlast as [[Hz _] _]. exact Hz. }
  exists (Layout.WordNode l 0), (Layout.WordNode l (length pre)), (Layout.wordSize z - 1).
  split; [|split; [|split; [|split]]].
  - pose proof (describePositionAtWord_complete l [] w ws 0 Hall) as Hd.
    rewrite sumOf_nil in Hd. apply Hd; [constructor | lia].
  - reflexivity.
  - rewrite Hsnoc, sumOf_app, sumOf_cons, sumOf_nil.
    replace (sumOf Layout.wordSize pre + (Layout.wordSize z + 0) - 1)
      with (sumOf Layout.wordSize pre + (Layout.wordSize z - 1)) by lia.
    apply (describePositionAtWord_complete l pre z []).
    + rewrite Hall. exact Hsnoc.
    + apply built_words_nonneg in Hb. rewrite Hall, Hsnoc in Hb.
      apply Forall_app in Hb as [Hpre _]. exact Hpre.
    + lia.
  - cbn [Layout.size]. rewrite Hall, Hsnoc, list_lookup_middle by reflexivity.
    cbn [from_option]. lia.
  - cbn [Layout.nextCrossParentSibling]. rewrite Hall, Hsnoc.
    assert ((S (length pre) <? length (pre ++ [z]))%nat = false) as ->
        by (apply Nat.ltb_ge; rewrite length_app; cbn [length]; lia).
    reflexivity.
Qed.

(** ** Round trips on the sample layout *)

Lemma helloWorldLayout_built : Layout.built Samples.helloWorldLayout.
Proof. repeat constructor; discriminate. Qed.

(** C5 as the specification words it fails on the code: from position 3,
    inside the first word, the previous word start is 0 and the next word
    end from there is 5; from position 3 or 8 with a left lock of 0 the
    previous line and then the next line end at 6. *)
Lemma previous_then_next_does_not_return :
  0 < 3 < Layout.contentSize Samples.helloWorldLayout /\
  previousThenNextWord Samples.helloWorldLayout 3 = Ok 5 /\
  previousThenNextLine Samples.helloWorldLayout 3 0 = Ok 6 /\
  previousThenNextLine Samples.helloWorldLayout 8 0 = Ok 6 /\
  ~ roundTripAsSpecified Samples.helloWorldLayout.
Proof.
  split; [split; reflexivity|]. split; [reflexivity|].
  split; [reflexivity|]. split; [reflexivity|].
  intros Hall. destruct (Hall 3 0) as [Hword _]; [split; reflexivity|].
  discriminate Hword.
Qed.

Lemma previous_then_next_witness :
  Layout.built Samples.helloWorldLayout /\
  Layout.describePositionAtWord Samples.helloWorldLayout 11
  = Ok (Layout.WordNode Samples.helloWorldLayout 1, 5) /\
  Layout.describePositionAtLine Samples.helloWorldLayout 11
  = Ok (Layout.LineNode Samples.helloWorldLayout 1, 5) /\
  previousThenNextWord Samples.helloWorldLayout 11 = Ok 11 /\
  previousThenNextLine Samples.helloWorldLayout 11 5 = Ok 11.
Proof.
  destruct (previous_then_next_returns_to_trimmed_end_or_locked_column
              Samples.helloWorldLayout 11 5 helloWorldLayout_built)
    as [Hword Hline].
  split; [exact helloWorldLayout_built|]. split; [reflexivity|]. split; [reflexivity|].
  split.
  - destruct (Hword 1%nat 5 {| Layout.wordSize := 6; Layout.wordTrimmedSize := 5 |})
      as [_ Hback]; [reflexivity | reflexivity | vm_compute; discriminate |].
    apply Hback. reflexivity.
  - destruct (Hline 0%nat 5 Samples.helloLine Samples.worldLine)
      as [_ Hback]; [reflexivity | reflexivity | reflexivity | |].
    + vm_compute. split; [discriminate | reflexivity].
    + apply Hback. reflexivity.
Defined.

(** * Further properties *)

(** ** What line breaking makes of the blocks *)

Section LineGroups.

Variable config : DocumentView.DocumentViewConfig.

Local Abbreviation limit := (DocumentView.pageContentWidth config).

Lemma pushLineView_blockLinesInv (lvs : list DocumentView.LineView) :
  blockLinesInv config lvs (DocumentView.pushLineView config lvs) []
                (DocumentView.newLineView limit) [].
Proof.
  unfold blockLinesInv, linesOfBlock. rewrite app_nil_r. cbn [app].
  repeat split.
  - discriminate.
  - constructor; [left; reflexivity | constructor].
  - constructor; [reflexivity | constructor].
  - intros [|i] l Hl Hi; [congruence | discriminate Hl].
Qed.

Lemma placeBoxView_blockLinesInv lvs st group cur seen b :
  blockLinesInv config lvs st group cur seen ->
  exists group' cur',
    blockLinesInv config lvs (DocumentView.placeBoxView config st b)
                  group' cur' (seen ++ [b]).
Proof.
  intros (Hl & Hi & Hc & _ & Hseen & Hfit & Hwide & Hne).
  unfold DocumentView.placeBoxView.
  destruct (Number.gt (DocumentView.cumulatedWidth st + DocumentView.boxGetWidth b)%float
                      limit) eqn:Hover.
  - exists (group ++ [cur]),
           (DocumentView.appendBoxView b (DocumentView.newLineView limit)).
    unfold blockLinesInv, linesOfBlock.
    cbn [DocumentView.pushLineView DocumentView.lineViews DocumentView.lineView
         DocumentView.cumulatedWidth].
    rewrite Hl, (app_assoc lvs group [cur]).
    split; [apply alter_last|]. split; [reflexivity|].
    split; [reflexivity|].
    split; [intros Habs; apply app_eq_nil in Habs as [_ Habs]; discriminate Habs|].
    split; [rewrite map_app, concat_app, Hseen; reflexivity|].
    split; [|split].
    + apply Forall_app. split; [exact Hfit|]. constructor; [|constructor].
      destruct (Number.gt (DocumentView.boxGetWidth b) limit) eqn:Hwider.
      * right. right. exists b. split; [reflexivity | exact Hwider].
      * right. left. rewrite <- Hwider. apply gt_zero_add.
    + apply Forall_app. split; [exact Hwide|]. constructor; [reflexivity | constructor].
    + intros i l Hlook Hi0.
      destruct (decide (i < length (group ++ [cur]))%nat) as [Hlt|Hge].
      * rewrite lookup_app_l in Hlook by exact Hlt. eapply Hne; eassumption.
      * rewrite lookup_app_r in Hlook by lia.
        destruct (i - length (group ++ [cur]))%nat; [|discriminate Hlook].
        injection Hlook as <-. discriminate.
  - exists group, (DocumentView.appendBoxView b cur).
    unfold blockLinesInv, linesOfBlock.
    cbn [DocumentView.lineViews DocumentView.lineView DocumentView.cumulatedWidth].
    rewrite Hl, Hi.
    split; [apply alter_last|]. split; [reflexivity|].
    split; [rewrite Hc; symmetry; apply widthOnLine_appendBoxView|].
    split; [intros Habs; apply app_eq_nil in Habs as [_ Habs]; discriminate Habs|].
    apply Forall_app in Hfit as [Hfit _]. apply Forall_app in Hwide as [Hwide Hcur].
    apply Forall_cons in Hcur as [Hcur _].
    split; [|split; [|split]].
    + rewrite map_app, concat_app in Hseen |- *. cbn in Hseen |- *.
      rewrite !app_nil_r in *. rewrite app_assoc, Hseen. reflexivity.
    + apply Forall_app. split; [exact Hfit|]. constructor; [|constructor].
      right. left. rewrite widthOnLine_appendBoxView, <- Hc. exact Hover.
    + apply Forall_app. split; [exact Hwide|]. constructor; [exact Hcur | constructor].
    + intros i l Hlook Hi0.
      destruct (decide (i < length group)%nat) as [Hlt|Hge].
      * rewrite lookup_app_l in Hlook by exact Hlt.
        apply (Hne i l); [|exact Hi0]. rewrite lookup_app_l by exact Hlt. exact Hlook.
      * rewrite lookup_app_r in Hlook by lia.
        destruct (i - length group)%nat; [|discriminate Hlook].
        injection Hlook as <-. cbn. intros Habs. apply app_eq_nil in Habs as [_ Habs].
        discriminate Habs.
Qed.

Lemma fold_placeBoxView_blockLinesInv lvs (boxes : list DocumentView.BoxView) :
  forall st group cur seen,
    blockLinesInv config lvs st group cur seen ->
    exists group' cur',
      blockLinesInv config lvs (fold_left (DocumentView.placeBoxView config) boxes st)
                    group' cur' (seen ++ boxes).
Proof.
  induction boxes as [|b boxes IH]; intros st group cur seen Hinv.
  - exists group, cur. rewrite app_nil_r. exact Hinv.
  - cbn [fold_left].
    destruct (placeBoxView_blockLinesInv lvs st group cur seen b Hinv)
      as (group' & cur' & Hinv').
    destruct (IH _ _ _ _ Hinv') as (group'' & cur'' & Hinv'').
    exists group'', cur''. rewrite <- app_assoc in Hinv''. exact Hinv''.
Qed.

Lemma buildBlockLineViews_group lvs (block : DocumentView.BoxViewBlock) :
  exists group,
    DocumentView.buildBlockLineViews config lvs block = lvs ++ group /\
    linesOfBlock config (DocumentView.boxViews block) group.
Proof.
  destruct (fold_placeBoxView_blockLinesInv lvs (DocumentView.boxViews block) _ _ _ _
              (pushLineView_blockLinesInv lvs))
    as (group & cur & Hl & _ & _ & Hgroup).
  exists (group ++ [cur]). split; [|exact Hgroup].
  unfold DocumentView.buildBlockLineViews. rewrite Hl, <- app_assoc. reflexivity.
Qed.

Lemma fold_buildBlockLineViews_groups (blocks : list DocumentView.BoxViewBlock) :
  forall lvs,
    exists groups,
      fold_left (DocumentView.buildBlockLineViews config) blocks lvs
      = lvs ++ concat groups /\
      Forall2 (fun block group =>
                 linesOfBlock config (DocumentView.boxViews block) group)
              blocks groups.
Proof.
  induction blocks as [|block blocks IH]; intros lvs.
  - exists []. cbn. rewrite app_nil_r. split; [reflexivity | constructor].
  - cbn [fold_left].
    destruct (buildBlockLineViews_group lvs block) as (group & -> & Hgroup).
    destruct (IH (lvs ++ group)) as (groups & -> & Hgroups).
    exists (group :: groups). cbn [concat]. rewrite <- app_assoc.
    split; [reflexivity | constructor; assumption].
Qed.

(** X1. The lines come in one run per block, in block order: every block gets
    at least one line, the lines of a block hold exactly its boxes in their
    order, and within a block only the first line can be empty. *)
Theorem buildLineViews_gives_each_block_its_own_lines
        (boxViewBlocks : list DocumentView.BoxViewBlock) :
  exists groups,
    DocumentView.buildLineViews config boxViewBlocks = concat groups /\
    Forall2 (fun block group =>
               group <> [] /\
               concat (map DocumentView.getBoxViews group)
               = DocumentView.boxViews block /\
               forall i l, group !! i = Some l -> i <> 0%nat ->
                           DocumentView.getBoxViews l <> [])
            boxViewBlocks groups.
Proof.
  destruct (fold_buildBlockLineViews_groups boxViewBlocks []) as (groups & Hl & Hg).
  exists groups. split; [exact Hl|].
  eapply Forall2_impl; [exact Hg|]. cbn beta.
  intros block group (Hne & Hboxes & _ & _ & Hfirst). repeat split; assumption.
Qed.

(** X2. Every line is as wide as the page content area, and the width on a
    line, as the code adds the widths of its boxes in double arithmetic
    (from 0, one rounded addition per box, in order), is not greater than
    that width, unless the line is a single box that is wider on its own
    or is empty. *)
Theorem buildLineViews_lines_fit_content_width
        (boxViewBlocks : list DocumentView.BoxViewBlock) :
  let contentWidth :=
    (DocumentView.pageWidth config - DocumentView.pagePaddingLeft config
     - DocumentView.pagePaddingRight config)%float in
  Forall (fun line =>
            DocumentView.lineWidth line = contentWidth /\
            (Number.gt (widthOnLine line) contentWidth = false \/
             (exists b, DocumentView.getBoxViews line = [b] /\
                        Number.gt (DocumentView.boxGetWidth b) contentWidth = true) \/
             DocumentView.getBoxViews line = []))
         (DocumentView.buildLineViews config boxViewBlocks).
Proof.
  intros contentWidth.
  destruct (fold_buildBlockLineViews_groups boxViewBlocks []) as (groups & Hl & Hg).
  unfold DocumentView.buildLineViews. rewrite Hl. cbn [app].
  clear Hl. induction Hg as [|block group blocks groups Hgroup _ IH]; [constructor|].
  cbn [concat]. apply Forall_app. split; [|exact IH].
  destruct Hgroup as (_ & _ & Hfit & Hwide & _).
  clear -Hfit Hwide. induction Hfit as [|l ls Hl _ IHl]; [constructor|].
  apply Forall_cons in Hwide as [Hw Hwide]. constructor; [|apply IHl, Hwide].
  split; [exact Hw|].
  destruct Hl as [Hempty | [Hle | Hone]];
    [right; right; exact Hempty | left; exact Hle | right; left; exact Hone].
Qed.

End LineGroups.

(** ** Word boundaries stay inside the document *)

Lemma elem_le_sumOf {A : Type} (f : A -> Z) (l : list A) (x : A) :
  Forall (fun a => 0 <= f a) l -> x ∈ l -> 0 <= f x <= sumOf f l.
Proof.
  induction 1 as [|a l Ha Hl IH]; intros Hx; [inversion Hx|].
  rewrite sumOf_cons. pose proof (sumOf_nonneg f l Hl) as Hsum.
  apply elem_of_cons in Hx as [-> | Hx]; [lia|].
  specialize (IH Hx). lia.
Qed.

Lemma Forall_taken {A : Type} (P : A -> Prop) (l : list A) (k : nat) :
  Forall P l -> Forall P (take k l).
Proof. apply Forall_take. Qed.

Lemma Forall_dropped {A : Type} (P : A -> Prop) (l : list A) (k : nat) :
  Forall P l -> Forall P (drop k l).
Proof. apply Forall_drop. Qed.

Lemma sumOf_take_nonneg {A : Type} (f : A -> Z) (l : list A) (k : nat) :
  Forall (fun a => 0 <= f a) l -> 0 <= sumOf f (take k l).
Proof. intros Hl. apply sumOf_nonneg, Forall_take, Hl. Qed.

Lemma sumOf_drop_nonneg {A : Type} (f : A -> Z) (l : list A) (k : nat) :
  Forall (fun a => 0 <= f a) l -> 0 <= sumOf f (drop k l).
Proof. intros Hl. apply sumOf_nonneg, Forall_drop, Hl. Qed.

Lemma pagesNonneg_sizes (pvs : list DocumentView.PageView) :
  Forall pageNonneg pvs -> Forall (fun p => 0 <= DocumentView.pageGetSize p) pvs.
Proof. intros H. eapply Forall_impl; [exact H|]. intros p. apply pageNonneg_size. Qed.

Lemma linesNonneg_sizes (lvs : list DocumentView.LineView) :
  Forall lineNonneg lvs -> Forall (fun l => 0 <= DocumentView.lineGetSize l) lvs.
Proof. intros H. eapply Forall_impl; [exact H|]. intros l. apply lineNonneg_size. Qed.

Lemma lastWordBack_within l cur :
  lineNonneg l ->
  cur - DocumentView.lineGetSize l <= DocumentView.lastWordBack l cur <= cur.
Proof.
  intros Hl. unfold DocumentView.lastWordBack.
  pose proof (lineNonneg_size l Hl) as Hsize.
  destruct (last (DocumentView.getBoxViews l)) as [w|] eqn:E; [|lia].
  apply last_Some_elem_of in E.
  pose proof (elem_le_sumOf _ _ _ Hl E) as Hw. unfold DocumentView.lineGetSize. lia.
Qed.

Lemma firstWordForth_within l cur :
  lineNonneg l ->
  cur <= DocumentView.firstWordForth l cur <= cur + DocumentView.lineGetSize l.
Proof.
  intros Hl. unfold DocumentView.firstWordForth.
  pose proof (lineNonneg_size l Hl) as Hsize.
  destruct (DocumentView.getBoxViews l) as [|w ws] eqn:E; [cbn [head]; lia|].
  cbn [head]. unfold DocumentView.lineGetSize. rewrite E.
  unfold lineNonneg in Hl. rewrite E in Hl.
  pose proof (elem_le_sumOf _ _ w Hl ltac:(left)) as Hw. lia.
Qed.

Section WordBounds.

Variable pageViews : list DocumentView.PageView.
Hypothesis pagesNonneg : Forall pageNonneg pageViews.

Local Abbreviation sizeP := (sumOf DocumentView.pageGetSize).
Local Abbreviation sizeL := (sumOf DocumentView.lineGetSize).
Local Abbreviation sizeW := (sumOf DocumentView.boxGetSize).

(** Stepping back from a boundary goes back by no more than what lies
    before it. *)
Lemma toPreviousWord_within n lineViews m wordViews o cur :
  (n <= length pageViews)%nat ->
  Forall lineNonneg lineViews -> (m <= length lineViews)%nat ->
  Forall (fun b => 0 <= DocumentView.boxGetSize b) wordViews ->
  (o <= length wordViews)%nat ->
  exists r,
    DocumentView.toPreviousWord pageViews n lineViews m wordViews o cur = Ok r /\
    cur - (sizeP (take n pageViews) + sizeL (take m lineViews)
           + sizeW (take o wordViews)) <= r <= cur.
Proof.
  intros Hn Hlines Hm Hwords Ho. unfold DocumentView.toPreviousWord.
  pose proof (sumOf_take_nonneg _ _ n (pagesNonneg_sizes _ pagesNonneg)) as HP.
  pose proof (sumOf_take_nonneg _ _ m (linesNonneg_sizes _ Hlines)) as HL.
  pose proof (sumOf_take_nonneg _ _ o Hwords) as HW.
  destruct (Nat.ltb_spec 0 o) as [Ho0|Ho0].
  - destruct (lookup_lt_is_Some_2 wordViews (o - 1)) as [w Hw]; [lia|].
    rewrite Hw. eexists. split; [reflexivity|].
    assert (w ∈ take o wordViews) as Hin.
    { apply list_elem_of_lookup. exists (o - 1)%nat.
      rewrite lookup_take_lt by lia. exact Hw. }
    pose proof (elem_le_sumOf _ _ _ (Forall_taken _ _ o Hwords) Hin). lia.
  - destruct (Nat.ltb_spec 0 m) as [Hm0|Hm0].
    + destruct (lookup_lt_is_Some_2 lineViews (m - 1)) as [l Hl]; [lia|].
      rewrite Hl. eexists. split; [reflexivity|].
      assert (l ∈ take m lineViews) as Hin.
      { apply list_elem_of_lookup. exists (m - 1)%nat.
        rewrite lookup_take_lt by lia. exact Hl. }
      pose proof (elem_le_sumOf _ _ _
                    (Forall_taken _ _ m (linesNonneg_sizes _ Hlines)) Hin) as Hsz.
      assert (lineNonneg l) as Hl0
          by (rewrite Forall_forall in Hlines; apply Hlines;
              eapply list_elem_of_lookup_2; exact Hl).
      pose proof (lastWordBack_within l cur Hl0). cbn beta in Hsz. lia.
    + destruct (Nat.ltb_spec 0 n) as [Hn0|Hn0]; [|eexists; split; [reflexivity | lia]].
      destruct (lookup_lt_is_Some_2 pageViews (n - 1)) as [p Hp]; [lia|].
      rewrite Hp.
      assert (p ∈ take n pageViews) as Hin.
      { apply list_elem_of_lookup. exists (n - 1)%nat.
        rewrite lookup_take_lt by lia. exact Hp. }
      pose proof (elem_le_sumOf _ _ _
                    (Forall_taken _ _ n (pagesNonneg_sizes _ pagesNonneg)) Hin) as Hsz.
      cbn beta in Hsz.
      assert (pageNonneg p) as Hp0
          by (pose proof pagesNonneg as Hall; rewrite Forall_forall in Hall;
              apply Hall; eapply list_elem_of_lookup_2; exact Hp).
      destruct (last (DocumentView.getLineViews p)) as [l|] eqn:E;
        [|eexists; split; [reflexivity | lia]].
      eexists. split; [reflexivity|].
      apply last_Some_elem_of in E.
      pose proof (elem_le_sumOf _ _ _ (linesNonneg_sizes _ Hp0) E) as Hlsz.
      cbn beta in Hlsz.
      assert (lineNonneg l) as Hl0
          by (unfold pageNonneg in Hp0; rewrite Forall_forall in Hp0; apply Hp0, E).
      pose proof (lastWordBack_within l cur Hl0).
      change (sumOf DocumentView.lineGetSize (DocumentView.getLineViews p))
        with (DocumentView.pageGetSize p) in Hlsz.
      lia.
Qed.

Lemma wordStartInWords_bounds n lineViews m position :
  (n <= length pageViews)%nat ->
  Forall lineNonneg lineViews -> (m <= length lineViews)%nat ->
  forall rest pre,
    Forall (fun b => 0 <= DocumentView.boxGetSize b) (pre ++ rest) ->
    sizeP (take n pageViews) + sizeL (take m lineViews) + sizeW pre <= position ->
    (exists r,
        DocumentView.wordStartInWords pageViews n lineViews m (pre ++ rest) rest
          (length pre)
          (sizeP (take n pageViews) + sizeL (take m lineViews) + sizeW pre) position
        = DocumentView.Return (Ok r) /\ 0 <= r <= position) \/
    (DocumentView.wordStartInWords pageViews n lineViews m (pre ++ rest) rest
       (length pre)
       (sizeP (take n pageViews) + sizeL (take m lineViews) + sizeW pre) position
     = DocumentView.Fallthrough
         (sizeP (take n pageViews) + sizeL (take m lineViews) + sizeW pre + sizeW rest) /\
     sizeP (take n pageViews) + sizeL (take m lineViews) + sizeW pre + sizeW rest
     <= position).
Proof.
  intros Hn Hlines Hm.
  pose proof (sumOf_take_nonneg _ _ n (pagesNonneg_sizes _ pagesNonneg)) as HP.
  pose proof (sumOf_take_nonneg _ _ m (linesNonneg_sizes _ Hlines)) as HL.
  induction rest as [|w rest IH]; intros pre Hwords Hcur.
  - right. rewrite sumOf_nil, Z.add_0_r. split; [reflexivity | exact Hcur].
  - cbn [DocumentView.wordStartInWords].
    set (cur := sizeP (take n pageViews) + sizeL (take m lineViews) + sizeW pre) in *.
    assert (0 <= sizeW pre) as HW
        by (apply sumOf_nonneg; apply Forall_app in Hwords as [Hpre _]; exact Hpre).
    destruct (Z.leb_spec (cur + DocumentView.boxGetSize w) position) as [Hskip|Hhere].
    + specialize (IH (pre ++ [w])). rewrite <- app_assoc, length_app in IH.
      cbn [app length] in IH. rewrite Nat.add_1_r in IH.
      rewrite sumOf_app, sumOf_cons, sumOf_nil in IH.
      replace (sizeP (take n pageViews) + sizeL (take m lineViews)
               + (sizeW pre + (DocumentView.boxGetSize w + 0)))
        with (cur + DocumentView.boxGetSize w) in IH by (unfold cur; lia).
      rewrite sumOf_cons.
      replace (cur + (DocumentView.boxGetSize w + sizeW rest))
        with (cur + DocumentView.boxGetSize w + sizeW rest) by lia.
      apply IH; [exact Hwords | exact Hskip].
    + left. destruct (Z.eqb_spec position cur) as [Heq|Hneq].
      * destruct (toPreviousWord_within n lineViews m (pre ++ w :: rest) (length pre) cur)
          as (r & Hr & Hrange); try assumption.
        { rewrite length_app. lia. }
        rewrite take_length_app in Hrange.
        exists r. rewrite Hr. split; [reflexivity|]. unfold cur in *. lia.
      * exists cur. split; [reflexivity|]. unfold cur in *. lia.
Qed.

Lemma wordStartInLines_bounds n position :
  (n <= length pageViews)%nat ->
  forall rest pre,
    Forall lineNonneg (pre ++ rest) ->
    sizeP (take n pageViews) + sizeL pre <= position ->
    (exists r,
        DocumentView.wordStartInLines pageViews n (pre ++ rest) rest (length pre)
          (sizeP (take n pageViews) + sizeL pre) position
        = DocumentView.Return (Ok r) /\ 0 <= r <= position) \/
    (DocumentView.wordStartInLines pageViews n (pre ++ rest) rest (length pre)
       (sizeP (take n pageViews) + sizeL pre) position
     = DocumentView.Fallthrough (sizeP (take n pageViews) + sizeL pre + sizeL rest) /\
     sizeP (take n pageViews) + sizeL pre + sizeL rest <= position).
Proof.
  intros Hn.
  induction rest as [|l rest IH]; intros pre Hlines Hcur.
  - right. rewrite sumOf_nil, Z.add_0_r. split; [reflexivity | exact Hcur].
  - cbn [DocumentView.wordStartInLines].
    set (cur := sizeP (take n pageViews) + sizeL pre) in *.
    pose proof (IH (pre ++ [l])) as IHnext.
    rewrite <- app_assoc, length_app in IHnext.
    cbn [app length] in IHnext. rewrite Nat.add_1_r in IHnext.
    rewrite sumOf_app, sumOf_cons, sumOf_nil in IHnext.
    replace (sizeP (take n pageViews) + (sizeL pre + (DocumentView.lineGetSize l + 0)))
      with (cur + DocumentView.lineGetSize l) in IHnext by (unfold cur; lia).
    rewrite sumOf_cons.
    replace (cur + (DocumentView.lineGetSize l + sizeL rest))
      with (cur + DocumentView.lineGetSize l + sizeL rest) by lia.
    destruct (Z.leb_spec (cur + DocumentView.lineGetSize l) position) as [Hskip|Hhere].
    + apply IHnext; [exact Hlines | exact Hskip].
    + assert (lineNonneg l) as Hl
          by (apply Forall_app in Hlines as [_ Hl]; apply Forall_cons in Hl as [Hl _];
              exact Hl).
      destruct (wordStartInWords_bounds n (pre ++ l :: rest) (length pre) position Hn Hlines)
        with (rest := DocumentView.getBoxViews l) (pre := @nil DocumentView.BoxView)
        as [(r & Hr & Hrange) | [Hfall Hle]].
      * rewrite length_app. lia.
      * exact Hl.
      * rewrite take_length_app, sumOf_nil. fold cur. lia.
      * left. exists r. rewrite take_length_app, sumOf_nil, Z.add_0_r in Hr.
        cbn [app length] in Hr. fold cur in Hr. rewrite Hr. split; [reflexivity | exact Hrange].
      * exfalso. rewrite take_length_app, sumOf_nil in Hle.
        change (sumOf DocumentView.boxGetSize (DocumentView.getBoxViews l))
          with (DocumentView.lineGetSize l) in Hle.
        fold cur in Hle. lia.
Qed.

Lemma wordStartInPages_bounds position :
  forall rest pre,
    pageViews = pre ++ rest ->
    sizeP pre <= position ->
    (exists r,
        DocumentView.wordStartInPages pageViews rest (length pre) (sizeP pre) position
        = DocumentView.Return (Ok r) /\ 0 <= r <= position) \/
    (DocumentView.wordStartInPages pageViews rest (length pre) (sizeP pre) position
     = DocumentView.Fallthrough (sizeP pre + sizeP rest) /\
     sizeP pre + sizeP rest <= position).
Proof.
  induction rest as [|p rest IH]; intros pre Hpages Hcur.
  - right. rewrite sumOf_nil, Z.add_0_r. split; [reflexivity | exact Hcur].
  - cbn [DocumentView.wordStartInPages].
    pose proof (IH (pre ++ [p])) as IHnext.
    rewrite <- app_assoc, length_app in IHnext.
    cbn [app length] in IHnext. rewrite Nat.add_1_r in IHnext.
    rewrite sumOf_app, sumOf_cons, sumOf_nil in IHnext.
    replace (sizeP pre + (DocumentView.pageGetSize p + 0))
      with (sizeP pre + DocumentView.pageGetSize p) in IHnext by lia.
    rewrite sumOf_cons.
    replace (sizeP pre + (DocumentView.pageGetSize p + sizeP rest))
      with (sizeP pre + DocumentView.pageGetSize p + sizeP rest) by lia.
    destruct (Z.leb_spec (sizeP pre + DocumentView.pageGetSize p) position)
      as [Hskip|Hhere].
    + apply IHnext; [exact Hpages | exact Hskip].
    + assert (pageNonneg p) as Hp.
      { pose proof pagesNonneg as Hall. rewrite Hpages in Hall.
        apply Forall_app in Hall as [_ Hp]. apply Forall_cons in Hp as [Hp _]. exact Hp. }
      destruct (wordStartInLines_bounds (length pre) position)
        with (rest := DocumentView.getLineViews p) (pre := @nil DocumentView.LineView)
        as [(r & Hr & Hrange) | [Hfall Hle]].
      * rewrite Hpages, length_app. lia.
      * exact Hp.
      * rewrite Hpages, take_length_app, sumOf_nil. lia.
      * left. exists r. rewrite Hpages, take_length_app, sumOf_nil, Z.add_0_r in Hr.
        cbn [app length] in Hr. rewrite <- Hpages in Hr. rewrite Hr.
        split; [reflexivity | exact Hrange].
      * exfalso. rewrite Hpages, take_length_app, sumOf_nil in Hle.
        change (sumOf DocumentView.lineGetSize (DocumentView.getLineViews p))
          with (DocumentView.pageGetSize p) in Hle.
        lia.
Qed.

End WordBounds.

(** X3. On a built document view, the start of the word found for a position
    of the document is a position of the document at or before it; the
    search does not throw. *)
Theorem getWordStartPosition_in_document_not_after (dv : DocumentView.t) (position : Z) :
  DocumentView.built dv ->
  0 <= position < DocumentView.getSize dv ->
  exists r,
    DocumentView.getWordStartPosition dv position = Ok r /\ 0 <= r <= position.
Proof.
  intros [Hsize Hnonneg] Hpos. unfold DocumentView.getWordStartPosition.
  destruct (wordStartInPages_bounds (DocumentView.viewPageViews dv) Hnonneg position
              (DocumentView.viewPageViews dv) [])
    as [(r & Hr & Hrange) | [_ Hle]].
  - reflexivity.
  - rewrite sumOf_nil. lia.
  - cbn [length] in Hr. rewrite sumOf_nil in Hr. rewrite Hr. exists r.
    split; [reflexivity | exact Hrange].
  - rewrite sumOf_nil in Hle. unfold DocumentView.getSize in Hpos. lia.
Qed.

Section WordEndBounds.

Variable pageViews : list DocumentView.PageView.
Hypothesis pagesNonneg : Forall pageNonneg pageViews.

Local Abbreviation sizeP := (sumOf DocumentView.pageGetSize).
Local Abbreviation sizeL := (sumOf DocumentView.lineGetSize).
Local Abbreviation sizeW := (sumOf DocumentView.boxGetSize).

(** Stepping forth from a boundary goes forth by no more than what lies
    after it. *)
Lemma toNextWord_within n lineViews m wordViews o cur :
  Forall lineNonneg lineViews ->
  Forall (fun b => 0 <= DocumentView.boxGetSize b) wordViews ->
  exists r,
    DocumentView.toNextWord pageViews n lineViews m wordViews o cur = Ok r /\
    cur <= r <= cur + (sizeP (drop (S n) pageViews) + sizeL (drop (S m) lineViews)
                       + sizeW (drop (S o) wordViews)).
Proof.
  intros Hlines Hwords. unfold DocumentView.toNextWord.
  pose proof (sumOf_drop_nonneg _ _ (S n) (pagesNonneg_sizes _ pagesNonneg)) as HP.
  pose proof (sumOf_drop_nonneg _ _ (S m) (linesNonneg_sizes _ Hlines)) as HL.
  pose proof (sumOf_drop_nonneg _ _ (S o) Hwords) as HW.
  destruct (Z.ltb_spec (Z.of_nat o) (Z.of_nat (length wordViews) - 1)) as [Ho|Ho].
  - destruct (lookup_lt_is_Some_2 wordViews (o + 1)) as [w Hw]; [lia|].
    rewrite Hw. eexists. split; [reflexivity|].
    assert (w ∈ drop (S o) wordViews) as Hin.
    { apply list_elem_of_lookup. exists 0%nat.
      rewrite lookup_drop. rewrite <- Hw. f_equal. lia. }
    pose proof (elem_le_sumOf _ _ _ (Forall_dropped _ _ (S o) Hwords) Hin). lia.
  - destruct (Z.ltb_spec (Z.of_nat m) (Z.of_nat (length lineViews) - 1)) as [Hm|Hm].
    + destruct (lookup_lt_is_Some_2 lineViews (m + 1)) as [l Hl]; [lia|].
      rewrite Hl. eexists. split; [reflexivity|].
      assert (l ∈ drop (S m) lineViews) as Hin.
      { apply list_elem_of_lookup. exists 0%nat.
        rewrite lookup_drop. rewrite <- Hl. f_equal. lia. }
      pose proof (elem_le_sumOf _ _ _
                    (Forall_dropped _ _ (S m) (linesNonneg_sizes _ Hlines)) Hin) as Hsz.
      assert (lineNonneg l) as Hl0
          by (rewrite Forall_forall in Hlines; apply Hlines;
              eapply list_elem_of_lookup_2; exact Hl).
      pose proof (firstWordForth_within l cur Hl0). cbn beta in Hsz. lia.
    + destruct (Z.ltb_spec (Z.of_nat n) (Z.of_nat (length pageViews) - 1)) as [Hn|Hn];
        [|eexists; split; [reflexivity | lia]].
      destruct (lookup_lt_is_Some_2 pageViews (n + 1)) as [p Hp]; [lia|].
      rewrite Hp.
      assert (p ∈ drop (S n) pageViews) as Hin.
      { apply list_elem_of_lookup. exists 0%nat.
        rewrite lookup_drop. rewrite <- Hp. f_equal. lia. }
      pose proof (elem_le_sumOf _ _ _
                    (Forall_dropped _ _ (S n) (pagesNonneg_sizes _ pagesNonneg)) Hin)
        as Hsz.
      cbn beta in Hsz.
      assert (pageNonneg p) as Hp0
          by (pose proof pagesNonneg as Hall; rewrite Forall_forall in Hall;
              apply Hall; eapply list_elem_of_lookup_2; exact Hp).
      destruct (DocumentView.getLineViews p) as [|l ls] eqn:E;
        [eexists; split; [reflexivity | lia]|].
      cbn [head]. eexists. split; [reflexivity|].
      assert (l ∈ DocumentView.getLineViews p) as Hlin by (rewrite E; left).
      pose proof (elem_le_sumOf _ _ _ (linesNonneg_sizes _ Hp0) Hlin) as Hlsz.
      cbn beta in Hlsz.
      assert (lineNonneg l) as Hl0
          by (unfold pageNonneg in Hp0; rewrite Forall_forall in Hp0; apply Hp0, Hlin).
      pose proof (firstWordForth_within l cur Hl0).
      change (sumOf DocumentView.lineGetSize (DocumentView.getLineViews p))
        with (DocumentView.pageGetSize p) in Hlsz.
      lia.
Qed.

(** [last] is the last position of the document: what lies after the
    current position adds up to it. *)
Lemma wordEndInWords_bounds n lineViews m wordViews position last :
  Forall lineNonneg lineViews ->
  Forall (fun b => 0 <= DocumentView.boxGetSize b) wordViews ->
  forall k,
    (k <= length wordViews)%nat ->
    position
    <= last - sizeP (drop (S n) pageViews) - sizeL (drop (S m) lineViews)
       - sizeW (drop k wordViews) ->
    (exists r,
        DocumentView.wordEndInWords pageViews n lineViews m wordViews k
          (last - sizeP (drop (S n) pageViews) - sizeL (drop (S m) lineViews)
           - sizeW (drop k wordViews)) position
        = DocumentView.Return (Ok r) /\ position <= r <= last) \/
    (DocumentView.wordEndInWords pageViews n lineViews m wordViews k
       (last - sizeP (drop (S n) pageViews) - sizeL (drop (S m) lineViews)
        - sizeW (drop k wordViews)) position
     = DocumentView.Fallthrough
         (last - sizeP (drop (S n) pageViews) - sizeL (drop (S m) lineViews)
          - sizeW wordViews) /\
     position
     <= last - sizeP (drop (S n) pageViews) - sizeL (drop (S m) lineViews)
        - sizeW wordViews).
Proof.
  intros Hlines Hwords.
  pose proof (sumOf_drop_nonneg _ _ (S n) (pagesNonneg_sizes _ pagesNonneg)) as HP.
  pose proof (sumOf_drop_nonneg _ _ (S m) (linesNonneg_sizes _ Hlines)) as HL.
  induction k as [|o IH]; intros Hk Hcur.
  - right. rewrite drop_0 in *. split; [reflexivity | exact Hcur].
  - cbn [DocumentView.wordEndInWords].
    destruct (lookup_lt_is_Some_2 wordViews o) as [w Hw]; [lia|]. rewrite Hw.
    pose proof (sumOf_drop_nonneg _ _ (S o) Hwords) as HW.
    set (cur := last - sizeP (drop (S n) pageViews) - sizeL (drop (S m) lineViews)
                - sizeW (drop (S o) wordViews)) in *.
    assert (last - sizeP (drop (S n) pageViews) - sizeL (drop (S m) lineViews)
            - sizeW (drop o wordViews) = cur - DocumentView.boxGetSize w) as Hnext
        by (rewrite (drop_S _ _ _ Hw), sumOf_cons; unfold cur; lia).
    rewrite Hnext in IH.
    destruct (Z.geb_spec (cur - DocumentView.boxGetSize w) position) as [Hskip|Hhere].
    + apply IH; [lia | exact Hskip].
    + left. destruct (Z.eqb_spec position cur) as [Heq|Hneq].
      * destruct (toNextWord_within n lineViews m wordViews o cur Hlines Hwords)
          as (r & Hr & Hrange).
        exists r. rewrite Hr. split; [reflexivity|]. unfold cur in *. lia.
      * exists cur. split; [reflexivity|]. unfold cur in *. lia.
Qed.

Lemma wordEndInLines_bounds n lineViews position last :
  Forall lineNonneg lineViews ->
  forall k,
    (k <= length lineViews)%nat ->
    position <= last - sizeP (drop (S n) pageViews) - sizeL (drop k lineViews) ->
    (exists r,
        DocumentView.wordEndInLines pageViews n lineViews k
          (last - sizeP (drop (S n) pageViews) - sizeL (drop k lineViews)) position
        = DocumentView.Return (Ok r) /\ position <= r <= last) \/
    (DocumentView.wordEndInLines pageViews n lineViews k
       (last - sizeP (drop (S n) pageViews) - sizeL (drop k lineViews)) position
     = DocumentView.Fallthrough
         (last - sizeP (drop (S n) pageViews) - sizeL lineViews) /\
     position <= last - sizeP (drop (S n) pageViews) - sizeL lineViews).
Proof.
  intros Hlines.
  induction k as [|m IH]; intros Hk Hcur.
  - right. rewrite drop_0 in *. split; [reflexivity | exact Hcur].
  - cbn [DocumentView.wordEndInLines].
    destruct (lookup_lt_is_Some_2 lineViews m) as [l Hl]; [lia|]. rewrite Hl.
    set (cur := last - sizeP (drop (S n) pageViews) - sizeL (drop (S m) lineViews)) in *.
    assert (last - sizeP (drop (S n) pageViews) - sizeL (drop m lineViews)
            = cur - DocumentView.lineGetSize l) as Hnext
        by (rewrite (drop_S _ _ _ Hl), sumOf_cons; unfold cur; lia).
    rewrite Hnext in IH.
    destruct (Z.geb_spec (cur - DocumentView.lineGetSize l) position) as [Hskip|Hhere].
    + apply IH; [lia | exact Hskip].
    + assert (lineNonneg l) as Hl0
          by (pose proof Hlines as Hall; rewrite Forall_forall in Hall; apply Hall;
              eapply list_elem_of_lookup_2; exact Hl).
      destruct (wordEndInWords_bounds n lineViews m (DocumentView.getBoxViews l)
                  position last Hlines Hl0 (length (DocumentView.getBoxViews l)))
        as [(r & Hr & Hrange) | [Hfall Hle]].
      * lia.
      * rewrite drop_all, sumOf_nil. fold cur. lia.
      * left. exists r. rewrite drop_all, sumOf_nil, Z.sub_0_r in Hr. fold cur in Hr.
        rewrite Hr. split; [reflexivity | exact Hrange].
      * exfalso.
        change (sumOf DocumentView.boxGetSize (DocumentView.getBoxViews l))
          with (DocumentView.lineGetSize l) in Hle.
        fold cur in Hle. lia.
Qed.

Lemma wordEndInPages_bounds position last :
  forall k,
    (k <= length pageViews)%nat ->
    position <= last - sizeP (drop k pageViews) ->
    (exists r,
        DocumentView.wordEndInPages pageViews k (last - sizeP (drop k pageViews)) position
        = DocumentView.Return (Ok r) /\ position <= r <= last) \/
    (DocumentView.wordEndInPages pageViews k (last - sizeP (drop k pageViews)) position
     = DocumentView.Fallthrough (last - sizeP pageViews) /\
     position <= last - sizeP pageViews).
Proof.
  induction k as [|n IH]; intros Hk Hcur.
  - right. rewrite drop_0 in *. split; [reflexivity | exact Hcur].
  - cbn [DocumentView.wordEndInPages].
    destruct (lookup_lt_is_Some_2 pageViews n) as [p Hp]; [lia|]. rewrite Hp.
    set (cur := last - sizeP (drop (S n) pageViews)) in *.
    assert (last - sizeP (drop n pageViews) = cur - DocumentView.pageGetSize p) as Hnext
        by (rewrite (drop_S _ _ _ Hp), sumOf_cons; unfold cur; lia).
    rewrite Hnext in IH.
    destruct (Z.geb_spec (cur - DocumentView.pageGetSize p) position) as [Hskip|Hhere].
    + apply IH; [lia | exact Hskip].
    + assert (pageNonneg p) as Hp0
          by (pose proof pagesNonneg as Hall; rewrite Forall_forall in Hall; apply Hall;
              eapply list_elem_of_lookup_2; exact Hp).
      destruct (wordEndInLines_bounds n (DocumentView.getLineViews p)
                  position last Hp0 (length (DocumentView.getLineViews p)))
        as [(r & Hr & Hrange) | [Hfall Hle]].
      * lia.
      * rewrite drop_all, sumOf_nil. fold cur. lia.
      * left. exists r. rewrite drop_all, sumOf_nil, Z.sub_0_r in Hr. fold cur in Hr.
        rewrite Hr. split; [reflexivity | exact Hrange].
      * exfalso.
        change (sumOf DocumentView.lineGetSize (DocumentView.getLineViews p))
          with (DocumentView.pageGetSize p) in Hle.
        fold cur in Hle. lia.
Qed.

End WordEndBounds.

(** X4. On a built document view, the end of the word found for a position of
    the document is a position of the document at or after it; the search
    does not throw. *)
Theorem getWordEndPosition_in_document_not_before (dv : DocumentView.t) (position : Z) :
  DocumentView.built dv ->
  0 <= position < DocumentView.getSize dv ->
  exists r,
    DocumentView.getWordEndPosition dv position = Ok r /\
    position <= r <= DocumentView.getSize dv - 1.
Proof.
  intros [Hsize Hnonneg] Hpos.
  unfold DocumentView.getWordEndPosition, DocumentView.getSize in *.
  destruct (wordEndInPages_bounds (DocumentView.viewPageViews dv) Hnonneg position
              (DocumentView.documentElementGetSize dv - 1)
              (length (DocumentView.viewPageViews dv)))
    as [(r & Hr & Hrange) | [_ Hle]].
  - lia.
  - rewrite drop_all, sumOf_nil. lia.
  - rewrite drop_all, sumOf_nil, Z.sub_0_r in Hr. rewrite Hr. exists r.
    split; [reflexivity | exact Hrange].
  - lia.
Qed.

(** ** Line boundaries *)

Lemma lineStartInLines_spec (rest : list DocumentView.LineView) :
  Forall (fun l => 0 <= DocumentView.lineGetSize l) rest ->
  forall cur position,
    cur <= position ->
    (exists r,
        DocumentView.lineStartInLines rest cur position = DocumentView.Return (Ok r) /\
        cur <= r <= position /\
        forall p', r <= p' <= position ->
                   DocumentView.lineStartInLines rest cur p' = DocumentView.Return (Ok r)) \/
    (DocumentView.lineStartInLines rest cur position
     = DocumentView.Fallthrough (cur + sumOf DocumentView.lineGetSize rest) /\
     cur + sumOf DocumentView.lineGetSize rest <= position).
Proof.
  induction 1 as [|l rest Hl Hrest IH]; intros cur position Hcur.
  - right. rewrite sumOf_nil, Z.add_0_r. split; [reflexivity | exact Hcur].
  - cbn [DocumentView.lineStartInLines]. rewrite sumOf_cons.
    destruct (Z.leb_spec (cur + DocumentView.lineGetSize l) position) as [Hskip|Hhere].
    + destruct (IH (cur + DocumentView.lineGetSize l) position Hskip)
        as [(r & Hr & Hrange & Hsame) | [Hfall Hle]].
      * left. exists r. split; [exact Hr|]. split; [lia|].
        intros p' Hp'.
        assert ((cur + DocumentView.lineGetSize l <=? p') = true) as ->
            by (apply Z.leb_le; lia).
        apply Hsame, Hp'.
      * right. rewrite Hfall. split; [f_equal; lia | lia].
    + left. exists cur. split; [reflexivity|]. split; [lia|].
      intros p' Hp'.
      assert ((cur + DocumentView.lineGetSize l <=? p') = false) as ->
          by (apply Z.leb_gt; lia).
      reflexivity.
Qed.

Lemma lineStartInPages_spec (rest : list DocumentView.PageView) :
  Forall pageNonneg rest ->
  forall cur position,
    cur <= position ->
    (exists r,
        DocumentView.lineStartInPages rest cur position = DocumentView.Return (Ok r) /\
        cur <= r <= position /\
        forall p', r <= p' <= position ->
                   DocumentView.lineStartInPages rest cur p' = DocumentView.Return (Ok r)) \/
    (DocumentView.lineStartInPages rest cur position
     = DocumentView.Fallthrough (cur + sumOf DocumentView.pageGetSize rest) /\
     cur + sumOf DocumentView.pageGetSize rest <= position).
Proof.
  induction 1 as [|p rest Hp Hrest IH]; intros cur position Hcur.
  - right. rewrite sumOf_nil, Z.add_0_r. split; [reflexivity | exact Hcur].
  - cbn [DocumentView.lineStartInPages]. rewrite sumOf_cons.
    pose proof (pageNonneg_size p Hp) as Hsize.
    destruct (Z.leb_spec (cur + DocumentView.pageGetSize p) position) as [Hskip|Hhere].
    + destruct (IH (cur + DocumentView.pageGetSize p) position Hskip)
        as [(r & Hr & Hrange & Hsame) | [Hfall Hle]].
      * left. exists r. split; [exact Hr|]. split; [lia|].
        intros p' Hp'.
        assert ((cur + DocumentView.pageGetSize p <=? p') = true) as ->
            by (apply Z.leb_le; lia).
        apply Hsame, Hp'.
      * right. rewrite Hfall. split; [f_equal; lia | lia].
    + destruct (lineStartInLines_spec (DocumentView.getLineViews p)
                  (linesNonneg_sizes _ Hp) cur position Hcur)
        as [(r & Hr & Hrange & Hsame) | [Hfall Hle]].
      * left. exists r. rewrite Hr. split; [reflexivity|]. split; [exact Hrange|].
        intros p' Hp'.
        assert ((cur + DocumentView.pageGetSize p <=? p') = false) as ->
            by (apply Z.leb_gt; lia).
        rewrite (Hsame p' Hp'). reflexivity.
      * exfalso.
        change (sumOf DocumentView.lineGetSize (DocumentView.getLineViews p))
          with (DocumentView.pageGetSize p) in Hle.
        lia.
Qed.

(** X5. On a built document view, the start of the line found for a position
    of the document is a position of the document at or before it, and it
    is the line start of every position from there up to that position: in
    particular asking again from the line start gives the same answer. *)
Theorem getLineStartPosition_is_stable_start (dv : DocumentView.t) (position : Z) :
  DocumentView.built dv ->
  0 <= position < DocumentView.getSize dv ->
  exists r,
    DocumentView.getLineStartPosition dv position = Ok r /\
    0 <= r <= position /\
    forall p', r <= p' <= position -> DocumentView.getLineStartPosition dv p' = Ok r.
Proof.
  intros [Hsize Hnonneg] Hpos. unfold DocumentView.getLineStartPosition.
  destruct (lineStartInPages_spec (DocumentView.viewPageViews dv) Hnonneg 0 position)
    as [(r & Hr & Hrange & Hsame) | [_ Hle]]; [lia | |].
  - exists r. rewrite Hr. split; [reflexivity|]. split; [exact Hrange|].
    intros p' Hp'. rewrite (Hsame p' Hp'). reflexivity.
  - unfold DocumentView.getSize in Hpos. lia.
Qed.

Lemma lineEndInLines_spec (lineViews : list DocumentView.LineView) :
  Forall (fun l => 0 <= DocumentView.lineGetSize l) lineViews ->
  forall k cur position,
    (k <= length lineViews)%nat ->
    position <= cur ->
    (exists r,
        DocumentView.lineEndInLines lineViews k cur position
        = DocumentView.Return (Ok r) /\
        position <= r <= cur /\
        forall p', position <= p' <= r ->
                   DocumentView.lineEndInLines lineViews k cur p'
                   = DocumentView.Return (Ok r)) \/
    (DocumentView.lineEndInLines lineViews k cur position
     = DocumentView.Fallthrough (cur - sumOf DocumentView.lineGetSize (take k lineViews)) /\
     position <= cur - sumOf DocumentView.lineGetSize (take k lineViews)).
Proof.
  intros Hnonneg. induction k as [|m IH]; intros cur position Hk Hcur.
  - right. rewrite take_0, sumOf_nil, Z.sub_0_r. split; [reflexivity | exact Hcur].
  - cbn [DocumentView.lineEndInLines].
    destruct (lookup_lt_is_Some_2 lineViews m) as [l Hl]; [lia|]. rewrite Hl.
    pose proof (Forall_lookup_1 _ _ _ _ Hnonneg Hl) as Hl0. cbn beta in Hl0.
    rewrite (take_S_r _ _ _ Hl), sumOf_app, sumOf_cons, sumOf_nil.
    destruct (Z.geb_spec (cur - DocumentView.lineGetSize l) position) as [Hskip|Hhere].
    + destruct (IH (cur - DocumentView.lineGetSize l) position ltac:(lia) Hskip)
        as [(r & Hr & Hrange & Hsame) | [Hfall Hle]].
      * left. exists r. split; [exact Hr|]. split; [lia|].
        intros p' Hp'.
        assert ((cur - DocumentView.lineGetSize l >=? p') = true) as ->
            by (apply Z.geb_le; lia).
        apply Hsame, Hp'.
      * right. rewrite Hfall. split; [f_equal; lia | lia].
    + left. exists cur. split; [reflexivity|]. split; [lia|].
      intros p' Hp'.
      assert ((cur - DocumentView.lineGetSize l >=? p') = false) as ->
          by (destruct (Z.geb_spec (cur - DocumentView.lineGetSize l) p');
              [lia | reflexivity]).
      reflexivity.
Qed.

Lemma lineEndInPages_spec (pageViews : list DocumentView.PageView) :
  Forall pageNonneg pageViews ->
  forall k cur position,
    (k <= length pageViews)%nat ->
    position <= cur ->
    (exists r,
        DocumentView.lineEndInPages pageViews k cur position
        = DocumentView.Return (Ok r) /\
        position <= r <= cur /\
        forall p', position <= p' <= r ->
                   DocumentView.lineEndInPages pageViews k cur p'
                   = DocumentView.Return (Ok r)) \/
    (DocumentView.lineEndInPages pageViews k cur position
     = DocumentView.Fallthrough (cur - sumOf DocumentView.pageGetSize (take k pageViews)) /\
     position <= cur - sumOf DocumentView.pageGetSize (take k pageViews)).
Proof.
  intros Hnonneg. induction k as [|n IH]; intros cur position Hk Hcur.
  - right. rewrite take_0, sumOf_nil, Z.sub_0_r. split; [reflexivity | exact Hcur].
  - cbn [DocumentView.lineEndInPages].
    destruct (lookup_lt_is_Some_2 pageViews n) as [p Hp]; [lia|]. rewrite Hp.
    pose proof (Forall_lookup_1 _ _ _ _ Hnonneg Hp) as Hp0. cbn beta in Hp0.
    pose proof (pageNonneg_size p Hp0) as Hsize.
    rewrite (take_S_r _ _ _ Hp), sumOf_app, sumOf_cons, sumOf_nil.
    destruct (Z.geb_spec (cur - DocumentView.pageGetSize p) position) as [Hskip|Hhere].
    + destruct (IH (cur - DocumentView.pageGetSize p) position ltac:(lia) Hskip)
        as [(r & Hr & Hrange & Hsame) | [Hfall Hle]].
      * left. exists r. split; [exact Hr|]. split; [lia|].
        intros p' Hp'.
        assert ((cur - DocumentView.pageGetSize p >=? p') = true) as ->
            by (apply Z.geb_le; lia).
        apply Hsame, Hp'.
      * right. rewrite Hfall. split; [f_equal; lia | lia].
    + destruct (lineEndInLines_spec (DocumentView.getLineViews p)
                  (linesNonneg_sizes _ Hp0)
                  (length (DocumentView.getLineViews p)) cur position
                  ltac:(lia) Hcur)
        as [(r & Hr & Hrange & Hsame) | [Hfall Hle]].
      * left. exists r. rewrite Hr. split; [reflexivity|]. split; [exact Hrange|].
        intros p' Hp'.
        assert ((cur - DocumentView.pageGetSize p >=? p') = false) as ->
            by (destruct (Z.geb_spec (cur - DocumentView.pageGetSize p) p');
                [lia | reflexivity]).
        rewrite (Hsame p' Hp'). reflexivity.
      * exfalso. rewrite take_ge in Hle by lia.
        change (sumOf DocumentView.lineGetSize (DocumentView.getLineViews p))
          with (DocumentView.pageGetSize p) in Hle.
        lia.
Qed.

(** X6. On a built document view, the end of the line found for a position of
    the document is a position of the document at or after it, and it is
    the line end of every position from that position up to there: in
    particular asking again from the line end gives the same answer. *)
Theorem getLineEndPosition_is_stable_end (dv : DocumentView.t) (position : Z) :
  DocumentView.built dv ->
  0 <= position < DocumentView.getSize dv ->
  exists r,
    DocumentView.getLineEndPosition dv position = Ok r /\
    position <= r <= DocumentView.getSize dv - 1 /\
    forall p', position <= p' <= r -> DocumentView.getLineEndPosition dv p' = Ok r.
Proof.
  intros [Hsize Hnonneg] Hpos.
  unfold DocumentView.getLineEndPosition, DocumentView.getSize in *.
  destruct (lineEndInPages_spec (DocumentView.viewPageViews dv) Hnonneg
              (length (DocumentView.viewPageViews dv))
              (DocumentView.documentElementGetSize dv - 1) position)
    as [(r & Hr & Hrange & Hsame) | [_ Hle]]; [lia | lia | |].
  - exists r. rewrite Hr. split; [reflexivity|]. split; [exact Hrange|].
    intros p' Hp'. rewrite (Hsame p' Hp'). reflexivity.
  - rewrite take_ge in Hle by lia. lia.
Qed.

(** ** Screen positions inside and below the document *)

Section ScreenPositionsFacts.

Variable PageViewScreenPositions : Type.
Variable pageGetScreenPositions :
  DocumentView.PageView -> Z -> Z -> result PageViewScreenPositions.

Local Abbreviation loopOf :=
  (DocumentView.getScreenPositionsLoop PageViewScreenPositions pageGetScreenPositions).

Lemma getScreenPositionsLoop_returns (pvs : list DocumentView.PageView) (from to : Z) :
  Forall pageNonneg pvs ->
  (forall pv a b, exists psp, pageGetScreenPositions pv a b = Ok psp) ->
  0 <= from ->
  forall k acc,
    (0 < k <= length pvs)%nat ->
    exists r,
      loopOf pvs k (sumOf DocumentView.pageGetSize (take k pvs)) from to acc = Ok r /\
      (from <= to -> r <> []).
Proof.
  intros Hnonneg Htotal Hfrom.
  induction k as [|n IH]; intros acc Hk; [lia|].
  cbn [DocumentView.getScreenPositionsLoop].
  destruct (lookup_lt_is_Some_2 pvs n) as [pv Hpv]; [lia|]. rewrite Hpv.
  rewrite (take_S_r _ _ _ Hpv), sumOf_app, sumOf_cons, sumOf_nil.
  replace (sumOf DocumentView.pageGetSize (take n pvs)
           + (DocumentView.pageGetSize pv + 0) - DocumentView.pageGetSize pv)
    with (sumOf DocumentView.pageGetSize (take n pvs)) by lia.
  set (cur := sumOf DocumentView.pageGetSize (take n pvs)).
  assert (n = 0%nat -> cur = 0) as Hzero by (intros ->; reflexivity).
  destruct (Z.leb_spec cur to) as [Hto|Hto].
  - destruct (Htotal pv (Z.max (from - cur) 0)
                (Z.min (to - cur) (DocumentView.pageGetSize pv - 1))) as [psp ->].
    cbn [bind].
    destruct (Z.leb_spec cur from) as [Hret|Hgo].
    + eexists. split; [reflexivity|]. intros _ Habs.
      apply app_eq_nil in Habs as [_ Habs]. discriminate Habs.
    + apply IH. split; [|lia]. destruct n; [specialize (Hzero eq_refl); lia | lia].
  - cbn [bind].
    destruct (Z.leb_spec cur from) as [Hret|Hgo].
    + eexists. split; [reflexivity|]. intros Hle. lia.
    + apply IH. split; [|lia]. destruct n; [specialize (Hzero eq_refl); lia | lia].
Qed.

Lemma getScreenPositionsLoop_throws_below (pvs : list DocumentView.PageView)
      (from to : Z) :
  Forall pageNonneg pvs ->
  from < 0 ->
  forall k acc,
    (k <= length pvs)%nat ->
    isThrow (loopOf pvs k (sumOf DocumentView.pageGetSize (take k pvs)) from to acc)
    = true.
Proof.
  intros Hnonneg Hfrom.
  induction k as [|n IH]; intros acc Hk; [reflexivity|].
  cbn [DocumentView.getScreenPositionsLoop].
  destruct (lookup_lt_is_Some_2 pvs n) as [pv Hpv]; [lia|]. rewrite Hpv.
  rewrite (take_S_r _ _ _ Hpv), sumOf_app, sumOf_cons, sumOf_nil.
  replace (sumOf DocumentView.pageGetSize (take n pvs)
           + (DocumentView.pageGetSize pv + 0) - DocumentView.pageGetSize pv)
    with (sumOf DocumentView.pageGetSize (take n pvs)) by lia.
  pose proof (sumOf_take_nonneg _ _ n (pagesNonneg_sizes _ Hnonneg)) as Hcur.
  set (cur := sumOf DocumentView.pageGetSize (take n pvs)) in *.
  assert ((cur <=? from) = false) as Hgo by (apply Z.leb_gt; lia).
  destruct (cur <=? to).
  - destruct (pageGetScreenPositions pv _ _) as [psp|e]; [|reflexivity].
    cbn [bind]. rewrite Hgo. apply IH. lia.
  - cbn [bind]. rewrite Hgo. apply IH. lia.
Qed.

(** X7. On a built document view, when the page views answer, asking for the
    screen positions of a range whose ends are positions of the document
    does not throw, and when the range is not reversed at least one page
    answers. *)
Theorem getScreenPositions_answers_inside_the_document
        (dv : DocumentView.t) (from to : Z) :
  DocumentView.built dv ->
  (forall pv a b, exists psp, pageGetScreenPositions pv a b = Ok psp) ->
  0 <= from < DocumentView.getSize dv ->
  to < DocumentView.getSize dv ->
  exists r,
    DocumentView.getScreenPositions PageViewScreenPositions pageGetScreenPositions
      dv from to = Ok r /\
    (from <= to -> r <> []).
Proof.
  intros [Hsize Hnonneg] Htotal Hfrom Hto.
  unfold DocumentView.getScreenPositions, DocumentView.getSize in *.
  assert (((from >=? DocumentView.documentElementGetSize dv)
           || (to >=? DocumentView.documentElementGetSize dv))%bool = false) as ->.
  { apply orb_false_iff. split.
    - destruct (Z.geb_spec from (DocumentView.documentElementGetSize dv));
        [lia | reflexivity].
    - destruct (Z.geb_spec to (DocumentView.documentElementGetSize dv));
        [lia | reflexivity]. }
  assert (DocumentView.documentElementGetSize dv
          = sumOf DocumentView.pageGetSize
              (take (length (DocumentView.viewPageViews dv)) (DocumentView.viewPageViews dv)))
    as Hcur by (rewrite take_ge by lia; exact Hsize).
  rewrite Hcur.
  apply getScreenPositionsLoop_returns; try assumption; [lia|].
  split; [|lia].
  destruct (DocumentView.viewPageViews dv); [rewrite sumOf_nil in Hsize; lia|].
  cbn [length]. lia.
Qed.

(** X8. On a built document view, a [from] below zero always ends in a throw,
    whatever [to] is. *)
Theorem getScreenPositions_throws_when_from_is_negative
        (dv : DocumentView.t) (from to : Z) :
  DocumentView.built dv ->
  from < 0 ->
  isThrow (DocumentView.getScreenPositions PageViewScreenPositions
             pageGetScreenPositions dv from to) = true.
Proof.
  intros [Hsize Hnonneg] Hfrom.
  unfold DocumentView.getScreenPositions.
  destruct ((from >=? DocumentView.documentElementGetSize dv)
            || (to >=? DocumentView.documentElementGetSize dv))%bool; [reflexivity|].
  assert (DocumentView.documentElementGetSize dv
          = sumOf DocumentView.pageGetSize
              (take (length (DocumentView.viewPageViews dv)) (DocumentView.viewPageViews dv)))
    as Hcur by (rewrite take_ge by lia; exact Hsize).
  rewrite Hcur.
  apply getScreenPositionsLoop_throws_below; [exact Hnonneg | exact Hfrom | lia].
Qed.

End ScreenPositionsFacts.

(** ** Offsets outside the valid span *)

Section OutOfRange.

Context {Child : Type} `{BlockRenderNode.Interface Child}.
Variable PageViewScreenPositions : Type.
Variable pageGetScreenPositions :
  DocumentView.PageView -> Z -> Z -> result PageViewScreenPositions.

Local Abbreviation screenLoop :=
  (DocumentView.getScreenPositionsLoop PageViewScreenPositions pageGetScreenPositions).

(** With [to] below zero no page is asked: the loop returns what it was
    given as soon as it reaches [from]. *)
Lemma getScreenPositionsLoop_to_negative (pvs : list DocumentView.PageView)
      (from to : Z) :
  Forall pageNonneg pvs ->
  0 <= from -> to < 0 ->
  forall k acc,
    (0 < k <= length pvs)%nat ->
    screenLoop pvs k (sumOf DocumentView.pageGetSize (take k pvs)) from to acc = Ok acc.
Proof.
  intros Hnonneg Hfrom Hto.
  induction k as [|n IH]; intros acc Hk; [lia|].
  cbn [DocumentView.getScreenPositionsLoop].
  destruct (lookup_lt_is_Some_2 pvs n) as [pv Hpv]; [lia|]. rewrite Hpv.
  rewrite (take_S_r _ _ _ Hpv), sumOf_app, sumOf_cons, sumOf_nil.
  replace (sumOf DocumentView.pageGetSize (take n pvs)
           + (DocumentView.pageGetSize pv + 0) - DocumentView.pageGetSize pv)
    with (sumOf DocumentView.pageGetSize (take n pvs)) by lia.
  pose proof (sumOf_take_nonneg _ _ n (pagesNonneg_sizes _ Hnonneg)) as Hcur.
  assert (n = 0%nat -> sumOf DocumentView.pageGetSize (take n pvs) = 0) as Hzero
      by (intros ->; reflexivity).
  set (cur := sumOf DocumentView.pageGetSize (take n pvs)) in *.
  assert ((cur <=? to) = false) as -> by (apply Z.leb_gt; lia).
  cbn [bind].
  destruct (Z.leb_spec cur from) as [Hret|Hgo]; [reflexivity|].
  apply IH. split; [|lia]. destruct n; [specialize (Hzero eq_refl); lia | lia].
Qed.

(** C8, as the code has it. An offset at or beyond the size is refused: a
    selectable offset at or beyond the selectable size of a document
    render node makes [convertSelectableOffsetToModelOffset] throw its
    out-of-range error, and a [from] or [to] at or beyond the size of the
    document makes [getScreenPositions] throw.  Below zero the two
    differ.  [getScreenPositions] throws for every negative [from], but
    for a [from] inside the document and a negative [to] it returns the
    empty list.  [convertSelectableOffsetToModelOffset] makes no range
    check of its own on a negative offset: on a node without children it
    throws, and otherwise it hands the offset to the first child and
    returns 1 plus the child's answer. *)
Theorem offsets_outside_the_span_throw_only_above
        (n : DocRenderNode.t Child) (dv : DocumentView.t) :
  DocRenderNode.cacheCoherent n ->
  Forall (fun c => 0 <= BlockRenderNode.getSelectableSize c)
         (DocRenderNode.getChildren n) ->
  DocumentView.built dv ->
  (forall selectableOffset,
      fst (DocRenderNode.getSelectableSize n) <= selectableOffset ->
      DocRenderNode.convertSelectableOffsetToModelOffset n selectableOffset
      = Throw (SelectableOffsetOutOfRange selectableOffset)) /\
  (forall selectableOffset,
      selectableOffset < 0 ->
      DocRenderNode.convertSelectableOffsetToModelOffset n selectableOffset
      = match DocRenderNode.getChildren n with
        | [] => Throw (SelectableOffsetOutOfRange selectableOffset)
        | child :: _ =>
            let! m := BlockRenderNode.convertSelectableOffsetToModelOffset
                        child selectableOffset in
            Ok (1 + m)
        end) /\
  (forall from to,
      DocumentView.getSize dv <= from \/ DocumentView.getSize dv <= to ->
      DocumentView.getScreenPositions PageViewScreenPositions pageGetScreenPositions
        dv from to
      = Throw (ScreenPositionsUndetermined from to)) /\
  (forall from to,
      from < 0 ->
      isThrow (DocumentView.getScreenPositions PageViewScreenPositions
                 pageGetScreenPositions dv from to) = true) /\
  (forall from to,
      0 <= from < DocumentView.getSize dv -> to < 0 ->
      DocumentView.getScreenPositions PageViewScreenPositions pageGetScreenPositions
        dv from to
      = Ok []).
Proof.
  intros Hc Hnonneg [Hsize Hpages].
  assert (DocumentView.documentElementGetSize dv
          = sumOf DocumentView.pageGetSize
              (take (length (DocumentView.viewPageViews dv)) (DocumentView.viewPageViews dv)))
    as Hcur by (rewrite take_ge by lia; exact Hsize).
  split; [|split; [|split; [|split]]].
  - intros s Hs. rewrite getSelectableSize_value in Hs by exact Hc.
    unfold DocRenderNode.getChildren in *.
    apply convertLoop_out_of_range; [exact Hnonneg | lia].
  - intros s Hs.
    unfold DocRenderNode.convertSelectableOffsetToModelOffset, DocRenderNode.getChildren
      in *.
    destruct (DocRenderNode.children n) as [|child rest]; [reflexivity|].
    apply Forall_cons in Hnonneg as [Hchild _].
    cbn [DocRenderNode.convertLoop].
    assert ((0 + BlockRenderNode.getSelectableSize child >? s) = true) as ->
        by (apply Z.gtb_lt; lia).
    rewrite Z.sub_0_r. reflexivity.
  - intros from to Hft.
    unfold DocumentView.getScreenPositions, DocumentView.getSize in *.
    assert (((from >=? DocumentView.documentElementGetSize dv)
             || (to >=? DocumentView.documentElementGetSize dv))%bool = true) as ->.
    { apply orb_true_iff. destruct Hft as [Hf | Ht]; [left | right];
        apply Z.geb_le; lia. }
    reflexivity.
  - intros from to Hfrom. unfold DocumentView.getScreenPositions.
    destruct ((from >=? DocumentView.documentElementGetSize dv)
              || (to >=? DocumentView.documentElementGetSize dv))%bool; [reflexivity|].
    rewrite Hcur.
    apply getScreenPositionsLoop_throws_below; [exact Hpages | exact Hfrom | lia].
  - intros from to Hfrom Hto.
    unfold DocumentView.getScreenPositions, DocumentView.getSize in *.
    assert (((from >=? DocumentView.documentElementGetSize dv)
             || (to >=? DocumentView.documentElementGetSize dv))%bool = false) as ->.
    { apply orb_false_iff. split.
      - destruct (Z.geb_spec from (DocumentView.documentElementGetSize dv));
          [lia | reflexivity].
      - destruct (Z.geb_spec to (DocumentView.documentElementGetSize dv));
          [lia | reflexivity]. }
    rewrite Hcur.
    apply getScreenPositionsLoop_to_negative; [exact Hpages | lia | exact Hto |].
    split; [|lia].
    destruct (DocumentView.viewPageViews dv); [rewrite sumOf_nil in Hsize; lia|].
    cbn [length]. lia.
Qed.

End OutOfRange.

Lemma offsets_outside_the_span_witness :
  DocRenderNode.cacheCoherent Samples.docNode /\
  Forall (fun c => 0 <= BlockRenderNode.getSelectableSize c)
         (DocRenderNode.getChildren Samples.docNode) /\
  DocumentView.built Samples.helloWorldView /\
  fst (DocRenderNode.getSelectableSize Samples.docNode) = 8 /\
  DocumentView.getSize Samples.helloWorldView = 16 /\
  DocRenderNode.convertSelectableOffsetToModelOffset Samples.docNode 8
  = Throw (SelectableOffsetOutOfRange 8) /\
  DocRenderNode.convertSelectableOffsetToModelOffset Samples.docNode (-1)
  = (let! m := BlockRenderNode.convertSelectableOffsetToModelOffset
                 Samples.helloBlock (-1) in
     Ok (1 + m)) /\
  DocumentView.getScreenPositions (Z * Z) (fun _ from to => Ok (from, to))
    Samples.helloWorldView 16 3
  = Throw (ScreenPositionsUndetermined 16 3) /\
  DocumentView.getScreenPositions (Z * Z) (fun _ from to => Ok (from, to))
    Samples.helloWorldView 3 16
  = Throw (ScreenPositionsUndetermined 3 16) /\
  isThrow (DocumentView.getScreenPositions (Z * Z) (fun _ from to => Ok (from, to))
             Samples.helloWorldView (-1) 3) = true /\
  DocumentView.getScreenPositions (Z * Z) (fun _ from to => Ok (from, to))
    Samples.helloWorldView 3 (-1)
  = Ok [].
Proof.
  assert (DocRenderNode.cacheCoherent Samples.docNode) as Hc
      by (split; intros x Hx; discriminate Hx).
  assert (Forall (fun c => 0 <= BlockRenderNode.getSelectableSize c)
                 (DocRenderNode.getChildren Samples.docNode)) as Hnonneg
      by (repeat constructor; discriminate).
  destruct (offsets_outside_the_span_throw_only_above
              (Z * Z) (fun _ from to => Ok (from, to))
              Samples.docNode Samples.helloWorldView Hc Hnonneg helloWorldView_built)
    as (Habove & Hbelow & Hbeyond & Hfrom & Hto).
  split; [exact Hc|]. split; [exact Hnonneg|]. split; [exact helloWorldView_built|].
  split; [reflexivity|]. split; [reflexivity|].
  split; [apply Habove; vm_compute; discriminate|].
  split; [apply (Hbelow (-1)); lia|].
  split; [apply Hbeyond; left; vm_compute; discriminate|].
  split; [apply Hbeyond; right; vm_compute; discriminate|].
  split; [apply Hfrom; lia|].
  apply Hto; [|lia]. change (0 <= 3 < 16). lia.
Defined.

(** C8 as the specification words it fails on the code: [to] = -1 is
    outside the span of a document of 16 positions, and getScreenPositions
    returns an empty list for it instead of throwing. *)
Lemma negative_to_is_answered_with_no_positions :
  DocumentView.getSize Samples.helloWorldView = 16 /\
  -1 < 0 /\
  DocumentView.getScreenPositions (Z * Z) (fun _ from to => Ok (from, to))
    Samples.helloWorldView 3 (-1)
  = Ok [] /\
  isThrow (DocumentView.getScreenPositions (Z * Z) (fun _ from to => Ok (from, to))
             Samples.helloWorldView 3 (-1)) = false.
Proof. repeat split. Qed.

(** ** Line breaking followed by pagination *)

Lemma sumOf_concat {A : Type} (f : A -> Z) (ls : list (list A)) :
  sumOf f (concat ls) = sumOf (sumOf f) ls.
Proof.
  induction ls as [|l ls IH]; [reflexivity|].
  cbn [concat]. rewrite sumOf_app, sumOf_cons, IH. reflexivity.
Qed.

Lemma sumOf_mapped {A B : Type} (f : B -> Z) (g : A -> B) (l : list A) :
  sumOf f (map g l) = sumOf (fun a => f (g a)) l.
Proof.
  induction l as [|a l IH]; [reflexivity|].
  cbn [map]. rewrite !sumOf_cons, IH. reflexivity.
Qed.

Lemma buildLineViews_boxes (config : DocumentView.DocumentViewConfig)
      (boxViewBlocks : list DocumentView.BoxViewBlock) :
  concat (map DocumentView.getBoxViews
              (DocumentView.buildLineViews config boxViewBlocks))
  = concat (map DocumentView.boxViews boxViewBlocks).
Proof.
  destruct (fold_buildBlockLineViews_groups config boxViewBlocks [])
    as (groups & Hl & Hg).
  unfold DocumentView.buildLineViews. rewrite Hl. cbn [app]. clear Hl.
  induction Hg as [|block group blocks groups Hgroup _ IH]; [reflexivity|].
  cbn [concat map]. rewrite map_app, concat_app, IH.
  destruct Hgroup as (_ & -> & _). reflexivity.
Qed.

Lemma buildPageViews_lines (lineGetHeight : DocumentView.LineView -> Number.t)
      (config : DocumentView.DocumentViewConfig)
      (lineViews : list DocumentView.LineView) :
  concat (map DocumentView.getLineViews
              (DocumentView.buildPageViews lineGetHeight config lineViews))
  = lineViews.
Proof.
  destruct (fold_placeLineView_inv lineGetHeight config lineViews _ _ _ _
              (pushPageView_inv lineGetHeight config))
    as (prev & cur & (Hp & _ & _ & _ & _ & Hseen)).
  unfold DocumentView.buildPageViews. rewrite Hp. exact Hseen.
Qed.

(** X9. The view that the constructor lays out from the boxes of the blocks
    loses nothing: read page by page and line by line, the boxes are those
    of the blocks in their order, so the pages cover as many positions as
    the boxes do; with no negative box size, a view over these pages whose
    document has that size is a built view. *)
Theorem constructed_layout_keeps_every_box
        (lineGetHeight : DocumentView.LineView -> Number.t)
        (config : DocumentView.DocumentViewConfig)
        (boxViewBlocks : list DocumentView.BoxViewBlock) :
  let pages :=
    DocumentView.buildPageViews lineGetHeight config
      (DocumentView.buildLineViews config boxViewBlocks) in
  let boxes := concat (map DocumentView.boxViews boxViewBlocks) in
  concat (map DocumentView.getBoxViews (concat (map DocumentView.getLineViews pages)))
  = boxes /\
  sumOf DocumentView.pageGetSize pages = sumOf DocumentView.boxGetSize boxes /\
  (Forall (fun b => 0 <= DocumentView.boxGetSize b) boxes ->
   DocumentView.built
     {| DocumentView.documentElementGetSize := sumOf DocumentView.boxGetSize boxes;
        DocumentView.config := config;
        DocumentView.viewPageViews := pages |}).
Proof.
  intros pages boxes.
  assert (concat (map DocumentView.getBoxViews
                      (concat (map DocumentView.getLineViews pages))) = boxes) as Hboxes.
  { unfold pages. rewrite buildPageViews_lines. apply buildLineViews_boxes. }
  assert (sumOf DocumentView.pageGetSize pages = sumOf DocumentView.boxGetSize boxes)
    as Hsize.
  { rewrite <- Hboxes, sumOf_concat, sumOf_mapped.
    change (fun a => sumOf DocumentView.boxGetSize (DocumentView.getBoxViews a))
      with DocumentView.lineGetSize.
    rewrite sumOf_concat, sumOf_mapped. reflexivity. }
  split; [exact Hboxes|]. split; [exact Hsize|].
  intros Hnonneg. split; [symmetry; exact Hsize|].
  cbn [DocumentView.viewPageViews]. rewrite <- Hboxes in Hnonneg.
  clear -Hnonneg. induction pages as [|p ps IH]; [constructor|].
  cbn [map concat] in Hnonneg. rewrite map_app, concat_app in Hnonneg.
  apply Forall_app in Hnonneg as [Hp Hps]. constructor; [|apply IH, Hps].
  clear -Hp. induction (DocumentView.getLineViews p) as [|l ls IHl]; [constructor|].
  cbn [map concat] in Hp. apply Forall_app in Hp as [Hl Hls].
  constructor; [exact Hl | apply IHl, Hls].
Qed.

(** ** Inserting and deleting children *)

Section IndexOf.

Variable Child : Type.
Variable objectId : Child -> nat.

Local Abbreviation differs child := (fun c : Child => objectId c <> objectId child).

Lemma indexOfFrom_cases (cs : list Child) (child : Child) :
  forall k,
    (ModelDoc.indexOfFrom Child objectId cs child k = -1 /\ Forall (differs child) cs) \/
    (exists l1 c l2,
        cs = l1 ++ c :: l2 /\ Forall (differs child) l1 /\
        objectId c = objectId child /\
        ModelDoc.indexOfFrom Child objectId cs child k = k + Z.of_nat (length l1)).
Proof.
  induction cs as [|c cs IH]; intros k.
  - left. split; [reflexivity | constructor].
  - cbn [ModelDoc.indexOfFrom].
    destruct (Nat.eqb_spec (objectId c) (objectId child)) as [Heq|Hneq].
    + right. exists [], c, cs. cbn [app length]. repeat split; [constructor | exact Heq | lia].
    + destruct (IH (k + 1)) as [[Hidx Hall] | (l1 & c' & l2 & -> & Hl1 & Hc' & Hidx)].
      * left. split; [exact Hidx | constructor; assumption].
      * right. exists (c :: l1), c', l2. cbn [app length].
        repeat split; [constructor; assumption | exact Hc' | lia].
Qed.

Lemma indexOfFrom_first_match (l1 : list Child) (c : Child) (l2 : list Child)
      (child : Child) (k : Z) :
  Forall (differs child) l1 -> objectId c = objectId child ->
  ModelDoc.indexOfFrom Child objectId (l1 ++ c :: l2) child k = k + Z.of_nat (length l1).
Proof.
  intros Hl1 Hc. revert k. induction Hl1 as [|x l1 Hx _ IH]; intros k.
  - cbn [app ModelDoc.indexOfFrom length]. rewrite Hc, Nat.eqb_refl. lia.
  - cbn [app ModelDoc.indexOfFrom length].
    destruct (Nat.eqb_spec (objectId x) (objectId child)) as [Heq|_]; [contradiction|].
    rewrite IH. lia.
Qed.

(** X10. Deleting from a model document a child that was just inserted, at any
    offset, gives back the document, when no other child is that object. *)
Theorem ModelDoc_deleteChild_undoes_insertChild
        (d : ModelDoc.t Child) (child : Child) (offset : Z) :
  Forall (differs child) (ModelDoc.getChildren Child d) ->
  ModelDoc.deleteChild Child objectId child (ModelDoc.insertChild Child child offset d)
  = Ok d.
Proof.
  intros Hfresh. unfold ModelDoc.deleteChild, ModelDoc.insertChild, ModelDoc.indexOf,
    ModelDoc.getChildren in *.
  cbn [ModelDoc.children]. unfold spliceInsert.
  set (i := spliceIndex (ModelDoc.children Child d) offset).
  rewrite indexOfFrom_first_match;
    [|apply Forall_take; exact Hfresh | reflexivity].
  assert ((0 + Z.of_nat (length (take i (ModelDoc.children Child d))) <? 0) = false)
    as -> by (apply Z.ltb_ge; lia).
  rewrite Z.add_0_l, Nat2Z.id, delete_middle, take_drop.
  destruct d. reflexivity.
Qed.

(** X11. Deleting a child from a model document throws exactly when no child is
    that object; otherwise it removes the first child that is, and only
    that one. *)
Theorem ModelDoc_deleteChild_removes_first_match
        (d : ModelDoc.t Child) (child : Child) :
  (ModelDoc.deleteChild Child objectId child d = Throw CannotDeleteChildNotFound
   <-> Forall (differs child) (ModelDoc.getChildren Child d)) /\
  (forall d', ModelDoc.deleteChild Child objectId child d = Ok d' ->
              exists l1 c l2,
                ModelDoc.getChildren Child d = l1 ++ c :: l2 /\
                Forall (differs child) l1 /\
                objectId c = objectId child /\
                ModelDoc.getChildren Child d' = l1 ++ l2).
Proof.
  unfold ModelDoc.deleteChild, ModelDoc.indexOf, ModelDoc.getChildren.
  destruct (indexOfFrom_cases (ModelDoc.children Child d) child 0)
    as [[Hidx Hall] | (l1 & c & l2 & Hcs & Hl1 & Hc & Hidx)]; rewrite Hidx.
  - cbn. split; [split; [intros _; exact Hall | reflexivity]|].
    intros d' Hd'. discriminate Hd'.
  - assert ((0 + Z.of_nat (length l1) <? 0) = false) as -> by (apply Z.ltb_ge; lia).
    split.
    + split; [intros Habs; discriminate Habs|].
      intros Hall. rewrite Hcs in Hall. apply Forall_app in Hall as [_ Hall].
      apply Forall_cons in Hall as [Hneq _]. contradiction.
    + intros d' Hd'. injection Hd' as <-. exists l1, c, l2.
      cbn [ModelDoc.children].
      rewrite Z.add_0_l, Nat2Z.id, Hcs, delete_middle. repeat split; assumption.
Qed.

End IndexOf.

Section DocRenderNodeChildren.

Context {Child : Type} `{BlockRenderNode.Interface Child}.

Local Abbreviation differsFrom child :=
  (fun c : Child => BlockRenderNode.objectId c <> BlockRenderNode.objectId child).

Lemma DocRenderNode_indexOfFrom_as_model (cs : list Child) (child : Child) (k : Z) :
  DocRenderNode.indexOfFrom cs child k
  = ModelDoc.indexOfFrom Child BlockRenderNode.objectId cs child k.
Proof.
  revert k. induction cs as [|c cs IH]; intros k; [reflexivity|].
  cbn [DocRenderNode.indexOfFrom ModelDoc.indexOfFrom]. rewrite IH. reflexivity.
Qed.

(** X12. Deleting from the document render node a child that was just inserted,
    at any offset or with none, gives back the node with its children as
    they were and an empty cache, when no other child is that object. *)
Theorem DocRenderNode_deleteChild_undoes_insertChild
        (n : DocRenderNode.t Child) (child : Child) (offset : option Z) :
  Forall (differsFrom child) (DocRenderNode.getChildren n) ->
  DocRenderNode.deleteChild child (DocRenderNode.insertChild child offset n)
  = Ok (DocRenderNode.clearCache n).
Proof.
  intros Hfresh. unfold DocRenderNode.getChildren in Hfresh.
  set (child' := BlockRenderNode.setParent (Some (DocRenderNode.id n)) child).
  assert (exists l1 l2,
             DocRenderNode.children n = l1 ++ l2 /\
             DocRenderNode.insertChild child offset n
             = DocRenderNode.clearCache
                 (DocRenderNode.setChildren (l1 ++ child' :: l2) n))
    as (l1 & l2 & Hcs & Hins).
  { unfold DocRenderNode.insertChild. fold child'. destruct offset as [o|].
    - exists (take (spliceIndex (DocRenderNode.children n) o) (DocRenderNode.children n)),
        (drop (spliceIndex (DocRenderNode.children n) o) (DocRenderNode.children n)).
      split; [symmetry; apply take_drop | reflexivity].
    - exists (DocRenderNode.children n), []. split; [symmetry; apply app_nil_r | reflexivity]. }
  rewrite Hins. unfold DocRenderNode.deleteChild, DocRenderNode.indexOf.
  cbn [DocRenderNode.children DocRenderNode.clearCache DocRenderNode.setChildren].
  rewrite DocRenderNode_indexOfFrom_as_model.
  rewrite indexOfFrom_first_match.
  - assert ((0 + Z.of_nat (length l1) <? 0) = false) as -> by (apply Z.ltb_ge; lia).
    rewrite Z.add_0_l, Nat2Z.id, delete_middle, <- Hcs.
    unfold DocRenderNode.clearCache, DocRenderNode.setChildren.
    cbn. reflexivity.
  - rewrite Hcs in Hfresh. apply Forall_app in Hfresh as [Hl1 _]. exact Hl1.
  - apply BlockRenderNode.setParent_objectId.
Qed.


(** X14. Inserting a child into the document render node, at any offset or with
    none, makes both sizes grow by the child's sizes, whatever the cache
    held before. *)
Theorem DocRenderNode_insertChild_adds_the_child_sizes
        (n : DocRenderNode.t Child) (child : Child) (offset : option Z) :
  fst (DocRenderNode.getSelectableSize (DocRenderNode.insertChild child offset n))
  = sumOf BlockRenderNode.getSelectableSize (DocRenderNode.getChildren n)
    + BlockRenderNode.getSelectableSize child /\
  fst (DocRenderNode.getModelSize (DocRenderNode.insertChild child offset n))
  = 2 + sumOf BlockRenderNode.getModelSize (DocRenderNode.getChildren n)
    + BlockRenderNode.getModelSize child.
Proof.
  destruct (insertChild_sizes child offset n) as [Hs Hm].
  rewrite getSelectableSize_value, getModelSize_value, Hs, Hm;
    [split; lia | apply clearCache_cacheCoherent | apply clearCache_cacheCoherent].
Qed.

End DocRenderNodeChildren.

(** ** The element registry *)

Section ElementConfigFacts.

Import ElementConfig.

Lemma registry_eqb_eq (a b : registry) : registry_eqb a b = true <-> a = b.
Proof. destruct a, b; cbn; split; intros E; try reflexivity; discriminate E. Qed.

Lemma new_as_registrations : new = registerAll defaultRegistrations empty.
Proof. cbv [new registerAll defaultRegistrations fold_left register]. reflexivity. Qed.

Lemma getClass_empty (g : registry) (key : string) :
  getClass g key empty = Thrown (errorOf g key).
Proof.
  destruct g;
    cbv [getClass getBlockElementClass getInlineElementClass
         getBlockRenderNodeClass getInlineRenderNodeClass getBlockBoxClass
         getInlineBoxClass getAtomicBoxClass getBlockViewNodeClass
         getInlineViewNodeClass empty blockElementClasses inlineElementClasses
         blockRenderNodeClasses inlineRenderNodeClasses blockBoxClasses
         inlineBoxClasses atomicBoxClasses blockViewNodeClasses
         inlineViewNodeClasses errorOf];
    rewrite lookup_empty; reflexivity.
Qed.

Lemma registerAll_app (rs1 rs2 : list registration) (c : t) :
  registerAll (rs1 ++ rs2) c = registerAll rs2 (registerAll rs1 c).
Proof. unfold registerAll. apply fold_left_app. Qed.

Lemma getClass_register (g : registry) (key : string) (r : registration) (c : t) :
  getClass g key (register c r)
  = if writes g key r then Found (classOf r) else getClass g key c.
Proof.
  unfold writes.
  destruct r as [k x|k x|k x|k x|k x|k x|k x|k x|k x], g;
    cbn [registryOf registry_eqb andb keyOf classOf]; try reflexivity.
  all: destruct (String.eqb_spec k key) as [->|Hne].
  all: unfold getClass, getBlockElementClass, getInlineElementClass,
    getBlockRenderNodeClass, getInlineRenderNodeClass, getBlockBoxClass,
    getInlineBoxClass, getAtomicBoxClass, getBlockViewNodeClass,
    getInlineViewNodeClass, register, registerBlockElementClass,
    registerInlineElementClass, registerBlockRenderNodeClass,
    registerInlineRenderNodeClass, registerBlockBoxClass, registerInlineBoxClass,
    registerAtomicBoxClass, registerBlockViewNodeClass, registerInlineViewNodeClass.
  all: cbn [blockElementClasses inlineElementClasses blockRenderNodeClasses
            inlineRenderNodeClasses blockBoxClasses inlineBoxClasses
            atomicBoxClasses blockViewNodeClasses inlineViewNodeClasses].
  all: try (rewrite lookup_insert_eq; reflexivity).
  all: rewrite lookup_insert_ne by exact Hne; reflexivity.
Qed.

Lemma getClass_registerAll (g : registry) (key : string) (rs : list registration) :
  forall c,
    getClass g key (registerAll rs c)
    = match lastWritten g key rs with
      | Some k => Found k
      | None => getClass g key c
      end.
Proof.
  unfold lastWritten.
  induction rs as [|r rs IH]; intros c; [reflexivity|].
  change (registerAll (r :: rs) c) with (registerAll rs (register c r)).
  rewrite IH, getClass_register. cbn [List.filter].
  destruct (writes g key r) eqn:Hw.
  - rewrite last_cons.
    destruct (last (List.filter (writes g key) rs)) as [r'|]; reflexivity.
  - reflexivity.
Qed.

Lemma lastWritten_None (g : registry) (key : string) (rs : list registration) :
  lastWritten g key rs = None <-> Forall (fun r => writes g key r = false) rs.
Proof.
  unfold lastWritten. induction rs as [|r rs IH].
  - cbn. split; [constructor | reflexivity].
  - cbn [List.filter]. destruct (writes g key r) eqn:Hw.
    + rewrite last_cons. split.
      * destruct (last (List.filter (writes g key) rs)); cbn; intros E; discriminate E.
      * intros Hall. apply Forall_cons in Hall as [Habs _]. cbn in Habs. congruence.
    + rewrite IH. split.
      * intros Hall. constructor; assumption.
      * intros Hall. apply Forall_cons in Hall as [_ Hall]. exact Hall.
Qed.

Lemma lastWritten_Some (g : registry) (key : string) (rs : list registration)
      (k : ClassRef) :
  lastWritten g key rs = Some k ->
  exists rs1 r rs2,
    rs = rs1 ++ r :: rs2 /\ writes g key r = true /\ classOf r = k /\
    Forall (fun r' => writes g key r' = false) rs2.
Proof.
  unfold lastWritten. induction rs as [|r rs IH]; [intros E; discriminate E|].
  cbn [List.filter]. destruct (writes g key r) eqn:Hw.
  - rewrite last_cons.
    destruct (last (List.filter (writes g key) rs)) as [r'|] eqn:Hl.
    + intros E. destruct IH as (rs1 & r0 & rs2 & -> & H1 & H2 & H3); [exact E|].
      exists (r :: rs1), r0, rs2. repeat split; assumption.
    + cbn. intros E. injection E as <-. exists [], r, rs.
      repeat split; [exact Hw|]. apply lastWritten_None. unfold lastWritten.
      rewrite Hl. reflexivity.
  - intros E. destruct IH as (rs1 & r0 & rs2 & -> & H1 & H2 & H3); [exact E|].
    exists (r :: rs1), r0, rs2. repeat split; assumption.
Qed.

(** X15. The last registration wins: after any sequence of registration calls,
    each of the nine getters returns the class of the last call that wrote
    its map at that key, whatever was written to other keys or other maps
    in between, and answers as before the calls when there is no such
    call. *)
Theorem ElementConfig_last_registration_wins
        (g : registry) (key : string) (rs : list registration) (c : t) :
  (forall rs1 r rs2,
      rs = rs1 ++ r :: rs2 -> registryOf r = g -> keyOf r = key ->
      Forall (fun r' => registryOf r' <> g \/ keyOf r' <> key) rs2 ->
      getClass g key (registerAll rs c) = Found (classOf r)) /\
  (Forall (fun r' => registryOf r' <> g \/ keyOf r' <> key) rs ->
   getClass g key (registerAll rs c) = getClass g key c).
Proof.
  assert (forall l, Forall (fun r' => registryOf r' <> g \/ keyOf r' <> key) l ->
                    Forall (fun r' => writes g key r' = false) l) as Hconv.
  { intros l Hl. eapply Forall_impl; [exact Hl|]. intros r' Hr'. cbn in Hr'.
    unfold writes. apply andb_false_iff.
    destruct Hr' as [Hg|Hk]; [left|right].
    - destruct (registry_eqb (registryOf r') g) eqn:E; [|reflexivity].
      apply registry_eqb_eq in E. contradiction.
    - apply String.eqb_neq. exact Hk. }
  split.
  - intros rs1 r rs2 -> Hg Hk Hrest.
    rewrite registerAll_app. change (registerAll (r :: rs2) ?x)
      with (registerAll rs2 (register x r)).
    rewrite getClass_registerAll.
    apply Hconv, lastWritten_None in Hrest. rewrite Hrest.
    rewrite getClass_register. unfold writes.
    apply registry_eqb_eq in Hg. rewrite Hg, <- Hk, String.eqb_refl. reflexivity.
  - intros Hall. rewrite getClass_registerAll.
    apply Hconv, lastWritten_None in Hall. rewrite Hall. reflexivity.
Qed.

(** X16. A getter of a registry built by the constructor and any later calls
    throws exactly when neither the constructor nor a later call wrote that
    key of its map, and the error then names the getter's map and the
    key: nothing that was registered is ever lost. *)
Theorem ElementConfig_getter_throws_iff_never_registered
        (g : registry) (key : string) (rs : list registration) :
  ((exists e, getClass g key (registerAll rs new) = Thrown e)
   <-> Forall (fun r => registryOf r <> g \/ keyOf r <> key)
              (defaultRegistrations ++ rs)) /\
  (forall e, getClass g key (registerAll rs new) = Thrown e -> e = errorOf g key).
Proof.
  rewrite new_as_registrations, <- registerAll_app, getClass_registerAll.
  rewrite getClass_empty.
  destruct (lastWritten g key (defaultRegistrations ++ rs)) as [k|] eqn:Hl.
  - split.
    + split; [intros [e He]; discriminate He|].
      intros Hall. exfalso.
      apply lastWritten_Some in Hl as (rs1 & r & rs2 & Heq & Hw & _ & _).
      rewrite Heq in Hall. apply Forall_app in Hall as [_ Hall].
      apply Forall_cons in Hall as [Hr _]. unfold writes in Hw.
      apply andb_true_iff in Hw as [Hg Hk].
      apply registry_eqb_eq in Hg. apply String.eqb_eq in Hk.
      destruct Hr as [Hr|Hr]; contradiction.
    + intros e He. discriminate He.
  - split.
    + split; [intros _|intros _; eexists; reflexivity].
      apply lastWritten_None in Hl. eapply Forall_impl; [exact Hl|].
      intros r Hr. cbn in Hr. unfold writes in Hr. apply andb_false_iff in Hr.
      destruct Hr as [Hr|Hr]; [left|right].
      * intros Habs. apply registry_eqb_eq in Habs. congruence.
      * apply String.eqb_neq. exact Hr.
    + intros e He. injection He as <-. reflexivity.
Qed.

Lemma orderedBlockElementClasses_register (r : registration) (c : t) :
  getAllBlockElementClasses (register c r)
  = getAllBlockElementClasses c ++ classesWritten BlockElementClasses [r].
Proof.
  destruct r;
    cbv [register registerBlockElementClass registerInlineElementClass
         registerBlockRenderNodeClass registerInlineRenderNodeClass
         registerBlockBoxClass registerInlineBoxClass registerAtomicBoxClass
         registerBlockViewNodeClass registerInlineViewNodeClass
         getAllBlockElementClasses getAllInlineElementClasses
         orderedBlockElementClasses orderedInlineElementClasses
         classesWritten List.filter registryOf registry_eqb map classOf];
    try rewrite app_nil_r; reflexivity.
Qed.

Lemma orderedInlineElementClasses_register (r : registration) (c : t) :
  getAllInlineElementClasses (register c r)
  = getAllInlineElementClasses c ++ classesWritten InlineElementClasses [r].
Proof.
  destruct r;
    cbv [register registerBlockElementClass registerInlineElementClass
         registerBlockRenderNodeClass registerInlineRenderNodeClass
         registerBlockBoxClass registerInlineBoxClass registerAtomicBoxClass
         registerBlockViewNodeClass registerInlineViewNodeClass
         getAllBlockElementClasses getAllInlineElementClasses
         orderedBlockElementClasses orderedInlineElementClasses
         classesWritten List.filter registryOf registry_eqb map classOf];
    try rewrite app_nil_r; reflexivity.
Qed.

Lemma classesWritten_cons (g : registry) (r : registration) (rs : list registration) :
  classesWritten g (r :: rs) = classesWritten g [r] ++ classesWritten g rs.
Proof.
  unfold classesWritten. cbn [List.filter].
  destruct (registry_eqb (registryOf r) g); reflexivity.
Qed.

Lemma getAll_registerAll (rs : list registration) :
  forall c,
    getAllBlockElementClasses (registerAll rs c)
    = getAllBlockElementClasses c ++ classesWritten BlockElementClasses rs /\
    getAllInlineElementClasses (registerAll rs c)
    = getAllInlineElementClasses c ++ classesWritten InlineElementClasses rs.
Proof.
  induction rs as [|r rs IH]; intros c.
  - unfold classesWritten. cbn [registerAll fold_left List.filter map].
    rewrite !app_nil_r. split; reflexivity.
  - change (registerAll (r :: rs) c) with (registerAll rs (register c r)).
    destruct (IH (register c r)) as [-> ->].
    rewrite orderedBlockElementClasses_register, orderedInlineElementClasses_register.
    rewrite (classesWritten_cons BlockElementClasses r rs),
      (classesWritten_cons InlineElementClasses r rs), <- !app_assoc.
    split; reflexivity.
Qed.

Lemma lastWritten_listed (g : registry) (key : string) (rs : list registration)
      (k : ClassRef) :
  lastWritten g key rs = Some k -> In k (classesWritten g rs).
Proof.
  intros Hl. apply lastWritten_Some in Hl as (rs1 & r & rs2 & -> & Hw & <- & _).
  unfold classesWritten. apply in_map, filter_In. split.
  - apply in_app_iff. right. left. reflexivity.
  - unfold writes in Hw. apply andb_true_iff in Hw as [Hg _]. exact Hg.
Qed.

(** X17. The two ordered lists keep every registration: after the constructor
    and any later calls, getAllBlockElementClasses and
    getAllInlineElementClasses hold the class of every block (inline)
    element registration in call order, a class that was replaced at its
    key included; so every class that getBlockElementClass or
    getInlineElementClass returns is in the list, and the list is as long
    as the number of calls, not the number of registered types. *)
Theorem ElementConfig_ordered_classes_keep_every_registration
        (rs : list registration) :
  let c := registerAll rs new in
  getAllBlockElementClasses c
  = classesWritten BlockElementClasses (defaultRegistrations ++ rs) /\
  getAllInlineElementClasses c
  = classesWritten InlineElementClasses (defaultRegistrations ++ rs) /\
  (forall key k, getBlockElementClass key c = Found k ->
                 In k (getAllBlockElementClasses c)) /\
  (forall key k, getInlineElementClass key c = Found k ->
                 In k (getAllInlineElementClasses c)) /\
  (forall key k k',
      getBlockElementClass key c = Found k ->
      In k (getAllBlockElementClasses (registerBlockElementClass key k' c))).
Proof.
  intros c. subst c. rewrite new_as_registrations, <- registerAll_app.
  destruct (getAll_registerAll (defaultRegistrations ++ rs) empty) as [Hb Hi].
  change (getAllBlockElementClasses empty) with (@nil ClassRef) in Hb.
  change (getAllInlineElementClasses empty) with (@nil ClassRef) in Hi.
  cbn [app] in Hb, Hi.
  assert (forall g key k,
             getClass g key (registerAll (defaultRegistrations ++ rs) empty) = Found k ->
             In k (classesWritten g (defaultRegistrations ++ rs))) as Hlisted.
  { intros g key k. rewrite getClass_registerAll.
    destruct (lastWritten g key (defaultRegistrations ++ rs)) as [k0|] eqn:Hl.
    - intros E. injection E as <-. eapply lastWritten_listed. exact Hl.
    - rewrite getClass_empty. intros E. discriminate E. }
  repeat split.
  - exact Hb.
  - exact Hi.
  - intros key k Hk. rewrite Hb. apply (Hlisted BlockElementClasses key k Hk).
  - intros key k Hk. rewrite Hi. apply (Hlisted InlineElementClasses key k Hk).
  - intros key k k' Hk.
    change (registerBlockElementClass key k' ?x)
      with (register x (RegisterBlockElementClass key k')).
    rewrite orderedBlockElementClasses_register. apply in_app_iff. left.
    rewrite Hb. apply (Hlisted BlockElementClasses key k Hk).
Qed.

(** X18. getElementClass looks in the block elements first: after the
    constructor and any later calls it returns the class of the last block
    element registration of the type if there is one, however late an
    inline registration of the same type came; else the class of the last
    inline registration; and it throws when neither exists. *)
Theorem ElementConfig_getElementClass_prefers_block
        (key : string) (rs : list registration) :
  let calls := defaultRegistrations ++ rs in
  getElementClass key (registerAll rs new)
  = match lastWritten BlockElementClasses key calls with
    | Some k => Found k
    | None =>
        match lastWritten InlineElementClasses key calls with
        | Some k => Found k
        | None => Thrown (ElementTypeNotRegistered key)
        end
    end.
Proof.
  intros calls. subst calls. rewrite new_as_registrations, <- registerAll_app.
  pose proof (getClass_registerAll BlockElementClasses key
                (defaultRegistrations ++ rs) empty) as Hb.
  pose proof (getClass_registerAll InlineElementClasses key
                (defaultRegistrations ++ rs) empty) as Hi.
  unfold getClass, getBlockElementClass, getInlineElementClass in Hb, Hi.
  unfold getElementClass.
  destruct (blockElementClasses (registerAll (defaultRegistrations ++ rs) empty) !! key)
    as [kb|];
    destruct (lastWritten BlockElementClasses key (defaultRegistrations ++ rs)) as [kb'|];
    try discriminate Hb; [exact Hb|].
  destruct (inlineElementClasses (registerAll (defaultRegistrations ++ rs) empty) !! key)
    as [ki|];
    destruct (lastWritten InlineElementClasses key (defaultRegistrations ++ rs)) as [ki'|];
    try discriminate Hi; [exact Hi | reflexivity].
Qed.

End ElementConfigFacts.

(** ** The DOM children of the document view *)

Lemma filter_insertBeforeNode (node ref : DocView.DOMNode) (nodes : list DocView.DOMNode) :
  filter (fun x => x <> node) (DocView.insertBeforeNode node ref nodes)
  = filter (fun x => x <> node) nodes.
Proof.
  induction nodes as [|x rest IH]; cbn [DocView.insertBeforeNode].
  - rewrite filter_cons_False by (intros Habs; apply Habs; reflexivity). reflexivity.
  - destruct (Nat.eqb x ref).
    + rewrite filter_cons_False by (intros Habs; apply Habs; reflexivity). reflexivity.
    + rewrite !filter_cons, IH. reflexivity.
Qed.

Lemma filter_differs_twice (node : DocView.DOMNode) (nodes : list DocView.DOMNode) :
  filter (fun x => x <> node) (filter (fun x => x <> node) nodes)
  = filter (fun x => x <> node) nodes.
Proof.
  induction nodes as [|x rest IH]; [reflexivity|].
  rewrite filter_cons. destruct (decide (x <> node)) as [Hx|Hx].
  - rewrite filter_cons_True by exact Hx. rewrite IH. reflexivity.
  - exact IH.
Qed.

Lemma filter_appendChild (node : DocView.DOMNode) (nodes : list DocView.DOMNode) :
  filter (fun x => x <> node) (DocView.appendChild node nodes)
  = filter (fun x => x <> node) nodes.
Proof.
  unfold DocView.appendChild. rewrite filter_app, filter_differs_twice.
  rewrite filter_cons_False by (intros Habs; apply Habs; reflexivity).
  cbn. apply app_nil_r.
Qed.

Lemma filter_insertBefore (node : DocView.DOMNode) (ref : option DocView.DOMNode)
      (nodes : list DocView.DOMNode) :
  filter (fun x => x <> node) (DocView.insertBefore node ref nodes)
  = filter (fun x => x <> node) nodes.
Proof.
  unfold DocView.insertBefore. destruct ref as [r|].
  - destruct (Nat.eqb r node); [reflexivity|].
    rewrite filter_insertBeforeNode. apply filter_differs_twice.
  - apply filter_appendChild.
Qed.

Lemma filter_absent (node : DocView.DOMNode) (nodes : list DocView.DOMNode) :
  ~ In node nodes -> filter (fun x => x <> node) nodes = nodes.
Proof.
  induction nodes as [|x rest IH]; intros Hnew; [reflexivity|].
  rewrite filter_cons_True by (intros ->; apply Hnew; left; reflexivity).
  rewrite IH; [reflexivity|]. intros Hin. apply Hnew. right. exact Hin.
Qed.

Lemma insertChild_childNodes (v : DocView.t) (child : DocView.PageView) (offset : Z) :
  DocView.childNodes (fst (DocView.insertChild child offset v))
  = (if offset >? Z.of_nat (length (DocView.childNodes v))
     then DocView.childNodes v
     else filter (fun x => x <> DocView.getDOMContainer child) (DocView.childNodes v)
          ++ [DocView.getDOMContainer child]).
Proof.
  unfold DocView.insertChild.
  destruct (offset >? Z.of_nat (length (DocView.childNodes v)));
    cbn [fst DocView.childNodes]; [reflexivity|].
  unfold DocView.appendChild at 1. f_equal.
  destruct (offset =? Z.of_nat (length (DocView.childNodes v))).
  - apply filter_appendChild.
  - apply filter_insertBefore.
Qed.

(** X19. The offset of [insertChild] decides only whether the call throws: when
    it returns, the child's container is the last DOM child and the other
    DOM children keep their order, for every offset, because the final
    appendChild moves the container to the end; when it throws, the DOM
    children are untouched. *)
Theorem DocView_insertChild_offset_does_not_place_the_container
        (v : DocView.t) (child : DocView.PageView) (offset : Z) :
  DocView.childNodes (fst (DocView.insertChild child offset v))
  = (if offset >? Z.of_nat (length (DocView.childNodes v))
     then DocView.childNodes v
     else filter (fun x => x <> DocView.getDOMContainer child) (DocView.childNodes v)
          ++ [DocView.getDOMContainer child]) /\
  (snd (DocView.insertChild child offset v) = Ok tt <->
   offset <= Z.of_nat (length (DocView.childNodes v))).
Proof.
  split; [apply insertChild_childNodes|].
  unfold DocView.insertChild.
  destruct (Z.gtb_spec offset (Z.of_nat (length (DocView.childNodes v)))) as [Hgt|Hle];
    cbn [snd].
  - split; [intros Habs; discriminate Habs | lia].
  - split; [intros _; exact Hle | reflexivity].
Qed.

(** X20. When the children and the DOM children are in step, a call of
    [insertChild] that returns with a child whose container is not yet in
    the DOM leaves them in step; a call that throws leaves them out of
    step, with one child more than DOM children. *)
Theorem DocView_insertChild_keeps_children_and_dom_in_step
        (v : DocView.t) (child : DocView.PageView) (offset : Z) :
  childrenInStep v ->
  (offset <= Z.of_nat (length (DocView.childNodes v)) ->
   ~ In (DocView.getDOMContainer child) (DocView.childNodes v) ->
   childrenInStep (fst (DocView.insertChild child offset v))) /\
  (offset > Z.of_nat (length (DocView.childNodes v)) ->
   ~ childrenInStep (fst (DocView.insertChild child offset v)) /\
   length (DocView.getChildren (fst (DocView.insertChild child offset v)))
   = S (length (DocView.childNodes (fst (DocView.insertChild child offset v))))).
Proof.
  intros Hstep.
  pose proof (insertChild_childNodes v child offset) as Hdom.
  unfold childrenInStep in *. rewrite Hdom.
  assert (DocView.getChildren (fst (DocView.insertChild child offset v))
          = DocView.getChildren v ++ [child]) as Hchildren.
  { unfold DocView.insertChild, DocView.getChildren.
    destruct (offset >? Z.of_nat (length (DocView.childNodes v))); reflexivity. }
  assert (length (DocView.childNodes v) = length (DocView.getChildren v)) as Hlen
      by (rewrite <- Hstep; apply length_map).
  rewrite Hchildren, map_app, Hstep. cbn [map].
  destruct (Z.gtb_spec offset (Z.of_nat (length (DocView.childNodes v)))) as [Hgt|Hle].
  - split; [intros Hle; lia|]. intros _.
    rewrite length_app. cbn [length].
    split; [|lia].
    intros Habs. apply (f_equal (@length _)) in Habs.
    rewrite length_app in Habs. cbn [length] in Habs. lia.
  - split; [|intros Hgt; lia]. intros _ Hnew.
    rewrite filter_absent by exact Hnew. reflexivity.
Qed.

(** ** The transformation of the first cursor package *)

Section TransformationCalls.

Variable Operation : Type.

Local Abbreviation transformation := (CursorTransformation.t Operation).

Lemma applyAll_snoc (cs : list (CursorTransformation.call Operation))
      (c : CursorTransformation.call Operation) (tn : transformation) :
  CursorTransformation.applyAll Operation (cs ++ [c]) tn
  = CursorTransformation.apply Operation
      (CursorTransformation.applyAll Operation cs tn) c.
Proof. unfold CursorTransformation.applyAll. rewrite fold_left_app. reflexivity. Qed.

(** X21. After any interleaving of addOperation and setLeftAnchor calls, the
    transformation holds the operations it had followed by the added ones
    in call order, and the left anchor of the last setLeftAnchor call, or
    the one it had when there was no such call: the two kinds of call do
    not disturb each other. *)
Theorem Transformation_keeps_operations_in_order_and_last_anchor
        (cs : list (CursorTransformation.call Operation)) (tn : transformation) :
  CursorTransformation.getOperations Operation
    (CursorTransformation.applyAll Operation cs tn)
  = CursorTransformation.getOperations Operation tn
    ++ CursorTransformation.addedOperations Operation cs /\
  CursorTransformation.getLeftAnchor Operation
    (CursorTransformation.applyAll Operation cs tn)
  = match last (CursorTransformation.anchorsSet Operation cs) with
    | Some a => Some a
    | None => CursorTransformation.getLeftAnchor Operation tn
    end.
Proof.
  induction cs as [|c cs IH] using rev_ind.
  - cbn. rewrite app_nil_r. split; reflexivity.
  - rewrite applyAll_snoc. destruct IH as [IHo IHa].
    unfold CursorTransformation.addedOperations, CursorTransformation.anchorsSet in *.
    rewrite !omap_app.
    unfold CursorTransformation.getOperations, CursorTransformation.getLeftAnchor in *.
    destruct c as [operation | a]; cbn.
    + rewrite IHo, IHa, !app_nil_r, app_assoc. split; reflexivity.
    + rewrite IHo, last_snoc, app_nil_r. split; reflexivity.
Qed.

End TransformationCalls.

(** ** Moving the head of the selection *)

(** X22. MoveHeadBackward and MoveHeadForward submit a transformation with no
    operation that keeps the anchor and moves the head by at most one
    position without leaving the document: the head never goes below 0
    backward nor above the last position forward, and from a head inside
    the document it stays put exactly at the document's edge. *)
Theorem MoveHead_handlers_keep_the_anchor_and_clamp_the_head
        (cursor : CursorCommands.Cursor) (getDocContentSize : Z) :
  exists backward forward,
    CursorCommands.MoveHeadBackwardCommandHandler (Some cursor) = Some backward /\
    CursorCommands.MoveHeadForward (Some cursor) getDocContentSize = Some forward /\
    CursorCommands.operations backward = [] /\
    CursorCommands.operations forward = [] /\
    CursorCommands.targetAnchor backward = CursorCommands.anchor cursor /\
    CursorCommands.targetAnchor forward = CursorCommands.anchor cursor /\
    0 <= CursorCommands.cursorHead backward /\
    CursorCommands.cursorHead forward <= getDocContentSize - 1 /\
    (CursorCommands.inRange getDocContentSize (CursorCommands.head cursor) ->
     CursorCommands.inRange getDocContentSize (CursorCommands.cursorHead backward) /\
     CursorCommands.inRange getDocContentSize (CursorCommands.cursorHead forward) /\
     CursorCommands.head cursor - 1 <= CursorCommands.cursorHead backward
       <= CursorCommands.head cursor /\
     CursorCommands.head cursor <= CursorCommands.cursorHead forward
       <= CursorCommands.head cursor + 1 /\
     (CursorCommands.cursorHead backward = CursorCommands.head cursor
      <-> CursorCommands.head cursor = 0) /\
     (CursorCommands.cursorHead forward = CursorCommands.head cursor
      <-> CursorCommands.head cursor = getDocContentSize - 1)).
Proof.
  eexists. eexists. split; [reflexivity|]. split; [reflexivity|].
  unfold CursorCommands.inRange, CursorCommands.targetAnchor.
  cbn [CursorCommands.newTransformation3 CursorCommands.operations
       CursorCommands.cursorHead CursorCommands.cursorAnchor default].
  repeat split; try reflexivity; lia.
Qed.

(** ** From a position on a page to a position in the document *)

Section PagePositions.

Variable pageObjectId : DocumentView.PageView -> nat.

Local Abbreviation otherPage pageView :=
  (fun p : DocumentView.PageView => pageObjectId p <> pageObjectId pageView).

Lemma resolveLoop_first_match (before : list DocumentView.PageView)
      (p : DocumentView.PageView) (after : list DocumentView.PageView)
      (pageView : DocumentView.PageView) (c : Z) :
  Forall (otherPage pageView) before -> pageObjectId p = pageObjectId pageView ->
  DocumentView.resolveLoop pageObjectId (before ++ p :: after) pageView c
  = c + sumOf DocumentView.pageGetSize before.
Proof.
  intros Hbefore Hp. revert c.
  induction Hbefore as [|x before Hx _ IH]; intros c;
    cbn [app DocumentView.resolveLoop].
  - rewrite Hp, Nat.eqb_refl, sumOf_nil. lia.
  - destruct (Nat.eqb_spec (pageObjectId x) (pageObjectId pageView)) as [Heq|_];
      [contradiction|].
    rewrite IH, sumOf_cons. lia.
Qed.

Lemma resolveLoop_absent (pageViews : list DocumentView.PageView)
      (pageView : DocumentView.PageView) (c : Z) :
  Forall (otherPage pageView) pageViews ->
  DocumentView.resolveLoop pageObjectId pageViews pageView c
  = c + sumOf DocumentView.pageGetSize pageViews.
Proof.
  intros Hall. revert c.
  induction Hall as [|x rest Hx _ IH]; intros c; cbn [DocumentView.resolveLoop].
  - rewrite sumOf_nil. lia.
  - destruct (Nat.eqb_spec (pageObjectId x) (pageObjectId pageView)) as [Heq|_];
      [contradiction|].
    rewrite IH, sumOf_cons. lia.
Qed.

Lemma sumOf_nonneg_each {A : Type} (f : A -> Z) (l : list A) :
  Forall (fun a => 0 <= f a) l -> 0 <= sumOf f l.
Proof.
  induction 1 as [|a l Ha _ IH]; [rewrite sumOf_nil; lia|].
  rewrite sumOf_cons. lia.
Qed.

(** X23. resolvePageViewPosition adds the sizes of the pages before the first
    page that is the given object: a position on a page of the document
    resolves to a position of the document; for a page that is not in the
    document the loop runs to the end without an error and the result is
    the document size plus the page position, which is no position of the
    document. *)
Theorem resolvePageViewPosition_adds_the_pages_before
        (dv : DocumentView.t) (pageViewPosition : Z)
        (pageView : DocumentView.PageView) :
  DocumentView.built dv ->
  (forall before p after,
      DocumentView.viewPageViews dv = before ++ p :: after ->
      Forall (otherPage pageView) before ->
      pageObjectId p = pageObjectId pageView ->
      DocumentView.resolvePageViewPosition pageObjectId dv pageViewPosition pageView
      = sumOf DocumentView.pageGetSize before + pageViewPosition /\
      (0 <= pageViewPosition < DocumentView.pageGetSize p ->
       0 <= DocumentView.resolvePageViewPosition pageObjectId dv pageViewPosition
              pageView
         < DocumentView.getSize dv)) /\
  (Forall (otherPage pageView) (DocumentView.viewPageViews dv) ->
   DocumentView.resolvePageViewPosition pageObjectId dv pageViewPosition pageView
   = DocumentView.getSize dv + pageViewPosition).
Proof.
  intros [Hsize Hnonneg]. unfold DocumentView.resolvePageViewPosition, DocumentView.getSize.
  split.
  - intros before p after Hpages Hbefore Hp.
    rewrite Hpages, resolveLoop_first_match by assumption.
    split; [lia|]. intros Hpos.
    rewrite Hsize, Hpages, sumOf_app, sumOf_cons.
    rewrite Hpages in Hnonneg. apply Forall_app in Hnonneg as [Hb Ha].
    apply Forall_cons in Ha as [_ Ha].
    pose proof (sumOf_nonneg_each _ _ (pagesNonneg_sizes _ Hb)).
    pose proof (sumOf_nonneg_each _ _ (pagesNonneg_sizes _ Ha)).
    lia.
  - intros Hall. rewrite resolveLoop_absent by exact Hall. lia.
Qed.

Lemma page_of_position (pageViews : list DocumentView.PageView) (position : Z) :
  Forall (fun p => 0 <= DocumentView.pageGetSize p) pageViews ->
  0 <= position < sumOf DocumentView.pageGetSize pageViews ->
  exists n p,
    pageViews !! n = Some p /\
    sumOf DocumentView.pageGetSize (take n pageViews) <= position
    < sumOf DocumentView.pageGetSize (take n pageViews) + DocumentView.pageGetSize p.
Proof.
  intros Hall. revert position.
  induction Hall as [|x rest Hx _ IH]; intros position Hpos.
  - rewrite sumOf_nil in Hpos. lia.
  - rewrite sumOf_cons in Hpos.
    destruct (Z_lt_le_dec position (DocumentView.pageGetSize x)) as [Hlt|Hge].
    + exists 0%nat, x. cbn [lookup list_lookup]. rewrite take_0, sumOf_nil.
      split; [reflexivity | lia].
    + destruct (IH (position - DocumentView.pageGetSize x)) as (n & p & Hn & Hp); [lia|].
      exists (S n), p. cbn [take]. rewrite sumOf_cons.
      split; [exact Hn | lia].
Qed.

Lemma pages_before_are_others (pageViews : list DocumentView.PageView) (n : nat)
      (p : DocumentView.PageView) :
  NoDup (map pageObjectId pageViews) -> pageViews !! n = Some p ->
  Forall (otherPage p) (take n pageViews).
Proof.
  intros Hnodup Hn. apply Forall_forall. intros q Hq Heq.
  apply list_elem_of_lookup in Hq as [m Hm].
  apply lookup_take_Some in Hm as [Hm Hlt].
  assert (m = n) as ->.
  { eapply NoDup_lookup; [exact Hnodup| |].
    - rewrite list_lookup_fmap, Hm. reflexivity.
    - rewrite list_lookup_fmap, Hn. cbn. rewrite Heq. reflexivity. }
  lia.
Qed.

Lemma sumOf_take_step (pageViews : list DocumentView.PageView) (n m : nat)
      (p : DocumentView.PageView) :
  Forall (fun p => 0 <= DocumentView.pageGetSize p) pageViews ->
  pageViews !! n = Some p -> (n < m)%nat ->
  sumOf DocumentView.pageGetSize (take n pageViews) + DocumentView.pageGetSize p
  <= sumOf DocumentView.pageGetSize (take m pageViews).
Proof.
  intros Hall Hn Hlt.
  assert (take m pageViews
          = take n pageViews ++ p :: drop (S n) (take m pageViews)) as ->.
  { rewrite <- (take_drop (S n) (take m pageViews)) at 1.
    rewrite take_take, Nat.min_l by lia.
    rewrite (take_S_r _ _ _ Hn), <- app_assoc. reflexivity. }
  rewrite sumOf_app, sumOf_cons.
  assert (0 <= sumOf DocumentView.pageGetSize (drop (S n) (take m pageViews))).
  { apply sumOf_nonneg_each, Forall_dropped, Forall_taken. exact Hall. }
  lia.
Qed.

(** X24. When the pages of a built document are distinct objects,
    resolvePageViewPosition is a one-to-one correspondence between the
    positions on the pages and the positions of the document: every
    document position is resolved from exactly one page and position on
    it. *)
Theorem resolvePageViewPosition_is_one_to_one (dv : DocumentView.t) :
  DocumentView.built dv ->
  NoDup (map pageObjectId (DocumentView.viewPageViews dv)) ->
  (forall position,
      0 <= position < DocumentView.getSize dv ->
      exists n p pageViewPosition,
        DocumentView.viewPageViews dv !! n = Some p /\
        0 <= pageViewPosition < DocumentView.pageGetSize p /\
        DocumentView.resolvePageViewPosition pageObjectId dv pageViewPosition p
        = position) /\
  (forall n p a m q b,
      DocumentView.viewPageViews dv !! n = Some p ->
      DocumentView.viewPageViews dv !! m = Some q ->
      0 <= a < DocumentView.pageGetSize p ->
      0 <= b < DocumentView.pageGetSize q ->
      DocumentView.resolvePageViewPosition pageObjectId dv a p
      = DocumentView.resolvePageViewPosition pageObjectId dv b q ->
      n = m /\ a = b).
Proof.
  intros [Hsize Hnonneg] Hnodup.
  pose proof (pagesNonneg_sizes _ Hnonneg) as Hsizes.
  assert (forall n p a,
             DocumentView.viewPageViews dv !! n = Some p ->
             DocumentView.resolvePageViewPosition pageObjectId dv a p
             = sumOf DocumentView.pageGetSize (take n (DocumentView.viewPageViews dv)) + a)
    as Hresolve.
  { intros n p a Hn. unfold DocumentView.resolvePageViewPosition.
    rewrite <- (take_drop_middle _ _ _ Hn) at 1.
    rewrite resolveLoop_first_match;
      [lia | eapply pages_before_are_others; eassumption | reflexivity]. }
  unfold DocumentView.getSize. split.
  - intros position Hpos. rewrite Hsize in Hpos.
    destruct (page_of_position _ position Hsizes Hpos) as (n & p & Hn & Hp).
    exists n, p,
      (position - sumOf DocumentView.pageGetSize (take n (DocumentView.viewPageViews dv))).
    split; [exact Hn|]. split; [lia|].
    rewrite (Hresolve n p _ Hn). lia.
  - intros n p a m q b Hn Hm Ha Hb.
    rewrite (Hresolve n p a Hn), (Hresolve m q b Hm). intros Heq.
    destruct (Nat.lt_trichotomy n m) as [Hlt | [-> | Hgt]].
    + pose proof (sumOf_take_step _ n m p Hsizes Hn Hlt). lia.
    + split; [reflexivity | lia].
    + pose proof (sumOf_take_step _ m n q Hsizes Hm Hgt). lia.
Qed.

End PagePositions.

(** * Instances on the sample document *)

Lemma getWordStartPosition_in_document_witness :
  DocumentView.built Samples.helloWorldView /\
  0 <= 7 < DocumentView.getSize Samples.helloWorldView /\
  exists r,
    DocumentView.getWordStartPosition Samples.helloWorldView 7 = Ok r /\ 0 <= r <= 7.
Proof.
  assert (0 <= 7 < DocumentView.getSize Samples.helloWorldView) as Hpos
      by (change (0 <= 7 < 16); lia).
  split; [exact helloWorldView_built|]. split; [exact Hpos|].
  exact (getWordStartPosition_in_document_not_after
           Samples.helloWorldView 7 helloWorldView_built Hpos).
Defined.

Lemma getWordEndPosition_in_document_witness :
  DocumentView.built Samples.helloWorldView /\
  0 <= 7 < DocumentView.getSize Samples.helloWorldView /\
  exists r,
    DocumentView.getWordEndPosition Samples.helloWorldView 7 = Ok r /\
    7 <= r <= DocumentView.getSize Samples.helloWorldView - 1.
Proof.
  assert (0 <= 7 < DocumentView.getSize Samples.helloWorldView) as Hpos
      by (change (0 <= 7 < 16); lia).
  split; [exact helloWorldView_built|]. split; [exact Hpos|].
  exact (getWordEndPosition_in_document_not_before
           Samples.helloWorldView 7 helloWorldView_built Hpos).
Defined.

Lemma getLineStartPosition_witness :
  DocumentView.built Samples.helloWorldView /\
  0 <= 9 < DocumentView.getSize Samples.helloWorldView /\
  exists r,
    DocumentView.getLineStartPosition Samples.helloWorldView 9 = Ok r /\
    0 <= r <= 9 /\
    forall p', r <= p' <= 9 ->
               DocumentView.getLineStartPosition Samples.helloWorldView p' = Ok r.
Proof.
  assert (0 <= 9 < DocumentView.getSize Samples.helloWorldView) as Hpos
      by (change (0 <= 9 < 16); lia).
  split; [exact helloWorldView_built|]. split; [exact Hpos|].
  exact (getLineStartPosition_is_stable_start
           Samples.helloWorldView 9 helloWorldView_built Hpos).
Defined.

Lemma getLineEndPosition_witness :
  DocumentView.built Samples.helloWorldView /\
  0 <= 9 < DocumentView.getSize Samples.helloWorldView /\
  exists r,
    DocumentView.getLineEndPosition Samples.helloWorldView 9 = Ok r /\
    9 <= r <= DocumentView.getSize Samples.helloWorldView - 1 /\
    forall p', 9 <= p' <= r ->
               DocumentView.getLineEndPosition Samples.helloWorldView p' = Ok r.
Proof.
  assert (0 <= 9 < DocumentView.getSize Samples.helloWorldView) as Hpos
      by (change (0 <= 9 < 16); lia).
  split; [exact helloWorldView_built|]. split; [exact Hpos|].
  exact (getLineEndPosition_is_stable_end
           Samples.helloWorldView 9 helloWorldView_built Hpos).
Defined.

Example helloWorld_line_boundaries :
  map (DocumentView.getLineStartPosition Samples.helloWorldView) [0; 5; 6; 9; 12; 15; 16]
  = [Ok 0; Ok 0; Ok 6; Ok 6; Ok 12; Ok 12; Throw (PositionNotInDocument 16)] /\
  map (DocumentView.getLineEndPosition Samples.helloWorldView) [0; 5; 6; 9; 12; 15]
  = [Ok 5; Ok 5; Ok 11; Ok 11; Ok 15; Ok 15].
Proof. repeat split. Qed.

Lemma getScreenPositions_answers_witness :
  DocumentView.built Samples.helloWorldView /\
  (forall (pv : DocumentView.PageView) (a b : Z),
      exists psp, (fun _ from to => Ok (from, to)) pv a b = @Ok (Z * Z) psp) /\
  0 <= 3 < DocumentView.getSize Samples.helloWorldView /\
  13 < DocumentView.getSize Samples.helloWorldView /\
  exists r,
    DocumentView.getScreenPositions (Z * Z) (fun _ from to => Ok (from, to))
      Samples.helloWorldView 3 13 = Ok r /\
    (3 <= 13 -> r <> []).
Proof.
  assert (forall (pv : DocumentView.PageView) (a b : Z),
             exists psp, (fun _ from to => Ok (from, to)) pv a b = @Ok (Z * Z) psp)
    as Htotal by (intros pv a b; exists (a, b); reflexivity).
  assert (0 <= 3 < DocumentView.getSize Samples.helloWorldView) as Hfrom
      by (change (0 <= 3 < 16); lia).
  assert (13 < DocumentView.getSize Samples.helloWorldView) as Hto
      by (change (13 < 16); lia).
  split; [exact helloWorldView_built|]. split; [exact Htotal|].
  split; [exact Hfrom|]. split; [exact Hto|].
  exact (getScreenPositions_answers_inside_the_document
           (Z * Z) (fun _ from to => Ok (from, to))
           Samples.helloWorldView 3 13 helloWorldView_built Htotal Hfrom Hto).
Defined.

Lemma getScreenPositions_negative_from_witness :
  DocumentView.built Samples.helloWorldView /\
  -1 < 0 /\
  isThrow (DocumentView.getScreenPositions (Z * Z) (fun _ from to => Ok (from, to))
             Samples.helloWorldView (-1) 3) = true.
Proof.
  assert (-1 < 0) as Hfrom by lia.
  split; [exact helloWorldView_built|]. split; [exact Hfrom|].
  exact (getScreenPositions_throws_when_from_is_negative
           (Z * Z) (fun _ from to => Ok (from, to))
           Samples.helloWorldView (-1) 3 helloWorldView_built Hfrom).
Defined.

Lemma ModelDoc_deleteChild_undoes_insertChild_witness :
  Forall (fun c : nat => id c <> id 7%nat) (ModelDoc.getChildren nat Samples.numberedDoc) /\
  ModelDoc.getChildren nat (ModelDoc.insertChild nat 7%nat 1 Samples.numberedDoc)
  = [1; 7; 2; 3]%nat /\
  ModelDoc.deleteChild nat id 7%nat (ModelDoc.insertChild nat 7%nat 1 Samples.numberedDoc)
  = Ok Samples.numberedDoc.
Proof.
  assert (Forall (fun c : nat => id c <> id 7%nat)
                 (ModelDoc.getChildren nat Samples.numberedDoc)) as Hfresh
      by (repeat constructor; discriminate).
  split; [exact Hfresh|]. split; [reflexivity|].
  exact (ModelDoc_deleteChild_undoes_insertChild nat id Samples.numberedDoc 7%nat 1 Hfresh).
Defined.

Lemma DocRenderNode_deleteChild_undoes_insertChild_witness :
  Forall (fun c => BlockRenderNode.objectId c <> BlockRenderNode.objectId Samples.barBlock)
         (DocRenderNode.getChildren Samples.docNode) /\
  DocRenderNode.deleteChild Samples.barBlock
    (DocRenderNode.insertChild Samples.barBlock (Some 1) Samples.docNode)
  = Ok (DocRenderNode.clearCache Samples.docNode).
Proof.
  assert (Forall (fun c => BlockRenderNode.objectId c
                           <> BlockRenderNode.objectId Samples.barBlock)
                 (DocRenderNode.getChildren Samples.docNode)) as Hfresh
      by (repeat constructor; discriminate).
  split; [exact Hfresh|].
  exact (DocRenderNode_deleteChild_undoes_insertChild
           Samples.docNode Samples.barBlock (Some 1) Hfresh).
Defined.

Lemma DocView_insertChild_in_step_witness :
  let child := {| DocView.getDOMContainer := 30%nat |} in
  childrenInStep Samples.twoPageDocView /\
  (1 <= Z.of_nat (length (DocView.childNodes Samples.twoPageDocView)) ->
   ~ In (DocView.getDOMContainer child) (DocView.childNodes Samples.twoPageDocView) ->
   childrenInStep (fst (DocView.insertChild child 1 Samples.twoPageDocView))) /\
  (1 > Z.of_nat (length (DocView.childNodes Samples.twoPageDocView)) ->
   ~ childrenInStep (fst (DocView.insertChild child 1 Samples.twoPageDocView)) /\
   length (DocView.getChildren (fst (DocView.insertChild child 1 Samples.twoPageDocView)))
   = S (length (DocView.childNodes
                  (fst (DocView.insertChild child 1 Samples.twoPageDocView))))).
Proof.
  intros child.
  assert (childrenInStep Samples.twoPageDocView) as Hstep by reflexivity.
  split; [exact Hstep|].
  exact (DocView_insertChild_keeps_children_and_dom_in_step
           Samples.twoPageDocView child 1 Hstep).
Defined.

Example twoPageDocView_insertions :
  let child := {| DocView.getDOMContainer := 30%nat |} in
  map (fun offset =>
         DocView.childNodes (fst (DocView.insertChild child offset Samples.twoPageDocView)))
      [0; 1; 2; 3]
  = [[10; 20; 30]; [10; 20; 30]; [10; 20; 30]; [10; 20]]%nat /\
  map (fun offset =>
         length (DocView.getChildren
                   (fst (DocView.insertChild child offset Samples.twoPageDocView))))
      [0; 1; 2; 3]
  = [3; 3; 3; 3]%nat.
Proof. split; reflexivity. Qed.

Lemma resolvePageViewPosition_adds_witness :
  let fooPage := Samples.pageOf [Samples.lineOf [Samples.fooBox]] in
  DocumentView.built Samples.helloWorldView /\
  DocumentView.resolvePageViewPosition Samples.pageByLineCount
    Samples.helloWorldView 2 fooPage = 14 /\
  (forall before p after,
      DocumentView.viewPageViews Samples.helloWorldView = before ++ p :: after ->
      Forall (fun q => Samples.pageByLineCount q <> Samples.pageByLineCount fooPage)
             before ->
      Samples.pageByLineCount p = Samples.pageByLineCount fooPage ->
      DocumentView.resolvePageViewPosition Samples.pageByLineCount
        Samples.helloWorldView 2 fooPage
      = sumOf DocumentView.pageGetSize before + 2 /\
      (0 <= 2 < DocumentView.pageGetSize p ->
       0 <= DocumentView.resolvePageViewPosition Samples.pageByLineCount
              Samples.helloWorldView 2 fooPage
         < DocumentView.getSize Samples.helloWorldView)) /\
  (Forall (fun q => Samples.pageByLineCount q <> Samples.pageByLineCount fooPage)
          (DocumentView.viewPageViews Samples.helloWorldView) ->
   DocumentView.resolvePageViewPosition Samples.pageByLineCount
     Samples.helloWorldView 2 fooPage
   = DocumentView.getSize Samples.helloWorldView + 2).
Proof.
  intros fooPage.
  split; [exact helloWorldView_built|]. split; [reflexivity|].
  exact (resolvePageViewPosition_adds_the_pages_before
           Samples.pageByLineCount Samples.helloWorldView 2 fooPage
           helloWorldView_built).
Defined.

Lemma resolvePageViewPosition_one_to_one_witness :
  DocumentView.built Samples.helloWorldView /\
  NoDup (map Samples.pageByLineCount (DocumentView.viewPageViews Samples.helloWorldView)) /\
  (forall position,
      0 <= position < DocumentView.getSize Samples.helloWorldView ->
      exists n p pageViewPosition,
        DocumentView.viewPageViews Samples.helloWorldView !! n = Some p /\
        0 <= pageViewPosition < DocumentView.pageGetSize p /\
        DocumentView.resolvePageViewPosition Samples.pageByLineCount
          Samples.helloWorldView pageViewPosition p = position) /\
  (forall n p a m q b,
      DocumentView.viewPageViews Samples.helloWorldView !! n = Some p ->
      DocumentView.viewPageViews Samples.helloWorldView !! m = Some q ->
      0 <= a < DocumentView.pageGetSize p ->
      0 <= b < DocumentView.pageGetSize q ->
      DocumentView.resolvePageViewPosition Samples.pageByLineCount
        Samples.helloWorldView a p
      = DocumentView.resolvePageViewPosition Samples.pageByLineCount
          Samples.helloWorldView b q ->
      n = m /\ a = b).
Proof.
  assert (NoDup (map Samples.pageByLineCount
                     (DocumentView.viewPageViews Samples.helloWorldView))) as Hnodup.
  { change (NoDup [2; 1]%nat).
    apply NoDup_cons_2; [|apply NoDup_cons_2; [|apply NoDup_nil_2]].
    - intros Habs. apply list_elem_of_singleton in Habs. discriminate Habs.
    - intros Habs. apply elem_of_nil in Habs. exact Habs. }
  split; [exact helloWorldView_built|]. split; [exact Hnodup|].
  exact (resolvePageViewPosition_is_one_to_one
           Samples.pageByLineCount Samples.helloWorldView helloWorldView_built Hnodup).
Defined.

(** ** Updating the view of a text run *)

Lemma contents_of_text_boxes (children : list TextInlineViewNode.AtomicBox) :
  Forall TextInlineViewNode.isTextAtomicBox children ->
  TextInlineViewNode.contents children
  = Some (map TextInlineViewNode.contentOf children).
Proof.
  induction 1 as [|child rest Hchild _ IH]; [reflexivity|].
  destruct child as [content|]; [|destruct Hchild].
  cbn [TextInlineViewNode.contents map TextInlineViewNode.contentOf].
  rewrite IH. reflexivity.
Qed.

Lemma contents_of_other_box (children : list TextInlineViewNode.AtomicBox) :
  ~ Forall TextInlineViewNode.isTextAtomicBox children ->
  TextInlineViewNode.contents children = None.
Proof.
  induction children as [|child rest IH]; intros Hnot.
  - exfalso. apply Hnot. constructor.
  - destruct child as [content|]; [|reflexivity].
    cbn [TextInlineViewNode.contents]. rewrite IH; [reflexivity|].
    intros Hrest. apply Hnot. constructor; [exact I | exact Hrest].
Qed.

Lemma isTextAtomicBox_all_dec (children : list TextInlineViewNode.AtomicBox) :
  Forall TextInlineViewNode.isTextAtomicBox children \/
  ~ Forall TextInlineViewNode.isTextAtomicBox children.
Proof.
  induction children as [|child rest [IH|IH]].
  - left. constructor.
  - destruct child as [content|].
    + left. constructor; [exact I | exact IH].
    + right. intros Hall. apply Forall_cons in Hall as [Habs _]. exact Habs.
  - right. intros Hall. apply Forall_cons in Hall as [_ Hrest]. exact (IH Hrest).
Qed.

(** X25. onLayoutUpdated throws exactly when some child of the layout node is
    not a text atomic box, and then the view has taken the new size while
    its DOM is as before: the size is assigned before the children are
    read.  When it returns, the text is the children's contents in order,
    the attributes the constructor set are untouched, and the view no
    longer depends on the state before the call, so a second call with the
    same layout node changes nothing. *)
Theorem TextInlineViewNode_onLayoutUpdated_throws_after_taking_the_size
        (layoutNode : TextInlineViewNode.TextInlineBox) (v : TextInlineViewNode.t) :
  let after := fst (TextInlineViewNode.onLayoutUpdated layoutNode v) in
  (snd (TextInlineViewNode.onLayoutUpdated layoutNode v)
   = TextInlineViewNode.ThrewInvalidChild
   <-> ~ Forall TextInlineViewNode.isTextAtomicBox
         (TextInlineViewNode.getChildren layoutNode)) /\
  TextInlineViewNode.viewSize after = Some (TextInlineViewNode.getSize layoutNode) /\
  (snd (TextInlineViewNode.onLayoutUpdated layoutNode v)
   = TextInlineViewNode.ThrewInvalidChild ->
   TextInlineViewNode.containerStyle after = TextInlineViewNode.containerStyle v /\
   TextInlineViewNode.contentTextDecoration after
   = TextInlineViewNode.contentTextDecoration v /\
   TextInlineViewNode.innerText after = TextInlineViewNode.innerText v) /\
  (snd (TextInlineViewNode.onLayoutUpdated layoutNode v) = TextInlineViewNode.Returned ->
   TextInlineViewNode.innerText after
   = String.concat EmptyString
       (map TextInlineViewNode.contentOf (TextInlineViewNode.getChildren layoutNode)) /\
   TextInlineViewNode.display (TextInlineViewNode.containerStyle after)
   = TextInlineViewNode.display (TextInlineViewNode.containerStyle v) /\
   TextInlineViewNode.whiteSpace (TextInlineViewNode.containerStyle after)
   = TextInlineViewNode.whiteSpace (TextInlineViewNode.containerStyle v) /\
   TextInlineViewNode.lineHeight (TextInlineViewNode.containerStyle after)
   = TextInlineViewNode.lineHeight (TextInlineViewNode.containerStyle v) /\
   TextInlineViewNode.onLayoutUpdated layoutNode after
   = (after, TextInlineViewNode.Returned)) /\
  TextInlineViewNode.containerClassName after = TextInlineViewNode.containerClassName v /\
  TextInlineViewNode.containerId after = TextInlineViewNode.containerId v /\
  TextInlineViewNode.containerRole after = TextInlineViewNode.containerRole v /\
  TextInlineViewNode.contentClassName after = TextInlineViewNode.contentClassName v.
Proof.
  intros after. subst after. unfold TextInlineViewNode.onLayoutUpdated.
  destruct (isTextAtomicBox_all_dec (TextInlineViewNode.getChildren layoutNode))
    as [Hall|Hnot].
  - rewrite (contents_of_text_boxes _ Hall).
    cbn [fst snd TextInlineViewNode.viewSize TextInlineViewNode.containerStyle
         TextInlineViewNode.contentTextDecoration TextInlineViewNode.innerText
         TextInlineViewNode.containerClassName TextInlineViewNode.containerId
         TextInlineViewNode.containerRole TextInlineViewNode.contentClassName
         TextInlineViewNode.display TextInlineViewNode.whiteSpace
         TextInlineViewNode.lineHeight].
    split; [split; [intros Habs; discriminate Habs | intros Habs; contradiction]|].
    split; [reflexivity|].
    split; [intros Habs; discriminate Habs|].
    split; [|repeat split; reflexivity].
    intros _. repeat split; reflexivity.
  - rewrite (contents_of_other_box _ Hnot).
    cbn [fst snd TextInlineViewNode.viewSize TextInlineViewNode.containerStyle
         TextInlineViewNode.contentTextDecoration TextInlineViewNode.innerText
         TextInlineViewNode.containerClassName TextInlineViewNode.containerId
         TextInlineViewNode.containerRole TextInlineViewNode.contentClassName].
    split; [split; [intros _; exact Hnot | reflexivity]|].
    split; [reflexivity|].
    split; [intros _; repeat split; reflexivity|].
    split; [intros Habs; discriminate Habs|].
    repeat split; reflexivity.
Qed.
